(** * go-trader: recommendation lifecycle and execution engine

    A shallow embedding of the REST handlers [acceptRecommendation] and
    [aiGenerateRecommendation] (package [api]), of the persistence layer
    they call (package [database]) and of the drafting service (package
    [ai]), followed by the properties of the specification.

    Conventions of the embedding:
    - Go [float64] is Rocq's primitive [float] (IEEE 754 binary64, round to
      nearest even), so every arithmetic expression of the source is
      evaluated bit for bit, each operation rounded on its own (as the amd64
      compiler emits them, without fused multiply-add);
    - Go [int64] is [Z];
    - Go [string] is [string] (a sequence of bytes); [strings.ToUpper] and
      [strings.ToLower] map the ASCII letters, which is what Go does on
      every text without a byte above 127;
    - a nil-able pointer is an [option];
    - a call that returns [(T, error)] returns a [result T];
    - the collaborators the engine does not own (broker HTTP endpoint,
      database server faults, process environment, news search) are the
      fields of an environment record [Env];
    - the package-level map [recs] is a [gmap string recommendation]. *)

From Stdlib Require Import ZArith List String Ascii Bool Floats Lia.
From stdpp Require Import gmap strings.
Import ListNotations.

Set Warnings "-inexact-float".

Local Open Scope string_scope.
Local Open Scope Z_scope.

(** ** Errors and results *)

(** [error] values. [OrderFailed] is
    [fmt.Errorf("order failed status %d: %s", code, body)]. *)
Inductive error : Type :=
| Error (msg : string)
| OrderFailed (code : Z) (body : string).

(** The outcome of a Go call returning [(T, error)]; [Panic] is a run-time
    panic (an index out of range) unwinding through the caller. *)
Inductive result (A : Type) : Type :=
| Ok (a : A)
| Err (e : error)
| Panic.
Arguments Ok {A} a.
Arguments Err {A} e.
Arguments Panic {A}.

(** ** Package [strings] and [math] *)

Module strings.

Definition upperByte (c : ascii) : ascii :=
  let n := nat_of_ascii c in
  if (Nat.leb 97 n && Nat.leb n 122)%bool then ascii_of_nat (n - 32) else c.

Definition lowerByte (c : ascii) : ascii :=
  let n := nat_of_ascii c in
  if (Nat.leb 65 n && Nat.leb n 90)%bool then ascii_of_nat (n + 32) else c.

(** [strings.ToUpper] and [strings.ToLower] on ASCII text; a byte above 127
    is left as it is (there Go maps the Unicode letter it belongs to). *)
Fixpoint ToUpper (s : string) : string :=
  match s with
  | EmptyString => EmptyString
  | String c s' => String (upperByte c) (ToUpper s')
  end.

Fixpoint ToLower (s : string) : string :=
  match s with
  | EmptyString => EmptyString
  | String c s' => String (lowerByte c) (ToLower s')
  end.

(** [strings.Contains s substr]. *)
Fixpoint Contains (s substr : string) : bool :=
  if String.prefix substr s then true
  else match s with
       | EmptyString => false
       | String _ s' => Contains s' substr
       end.

End strings.

Module math.

Local Open Scope float_scope.

(** The integer nearest to [m * 2^e], halves away from zero. *)
Definition roundMagnitude (m : positive) (e : Z) : Z :=
  if (0 <=? e)%Z then (Z.pos m * 2 ^ e)%Z
  else ((Z.pos m + 2 ^ (- e - 1)) / 2 ^ (- e))%Z.

(** [math.Round x], given by the integer it denotes: [None] when [x] is
    NaN or infinite (which [math.Round] returns unchanged). *)
Definition Round (x : float) : option Z :=
  match Prim2SF x with
  | S754_zero _ => Some 0%Z
  | S754_finite s m e =>
      let r := roundMagnitude m e in Some (if s then (- r)%Z else r)
  | S754_infinity _ | S754_nan => None
  end.

(** [math.Abs]. *)
Definition Abs (x : float) : float := abs x.

End math.

(** The conversion [int64(f)] of an integral [float64]. The Go
    specification leaves the result open when the value does not fit; the
    amd64 compiler yields the "integer indefinite" value [-2^63], which is
    what this model returns. *)
Definition int64_indefinite : Z := - 2 ^ 63.

Definition int64 (r : option Z) : Z :=
  match r with
  | Some z => if ((- 2 ^ 63 <=? z) && (z <? 2 ^ 63))%bool then z else int64_indefinite
  | None => int64_indefinite
  end.

(** The conversion [float64(n)] of an [int64]. *)
Definition float64 (n : Z) : float :=
  if n =? - 2 ^ 63 then (- 0x1p63)%float
  else if n <? 0 then (- of_uint63 (Uint63.of_Z (- n)))%float
       else of_uint63 (Uint63.of_Z n).

(** ** Package [broker]: the OANDA client *)

Module broker.

Record Quote := { Quote_Price : string; Quote_Liquidity : Z }.

Record Price := {
  Price_Instrument : string;
  Price_Bids : list Quote;
  Price_Asks : list Quote }.

Record OHLC := {
  OHLC_Open : string; OHLC_High : string; OHLC_Low : string; OHLC_Close : string }.

Record Candle := { Candle_Complete : bool; Candle_Volume : Z; Candle_Mid : OHLC }.

Record CandlesResponse := {
  CandlesResponse_Instrument : string;
  CandlesResponse_Granularity : string;
  CandlesResponse_Candles : list Candle }.

Record Account := {
  Account_ID : string;
  Account_Currency : string;
  Account_Balance : float;
  Account_NAV : float }.

(** The [Order] member of [MarketOrderRequest]. *)
Record MarketOrderRequest := {
  Order_Type : string;
  Order_Instrument : string;
  Order_Units : float;
  Order_TimeInForce : string;
  Order_PositionFill : string;
  Order_TakeProfitOnFill : option string;
  Order_StopLossOnFill : option string }.

Record OrderCreateResponse := { OrderCreateTransaction_ID : string }.

(** What [makeRequest] hands back: the status code and the outcome of
    reading the body with [io.ReadAll]. *)
Record Response := { StatusCode : Z; Body : result string }.

End broker.

(** ** Package [models] *)

Module models.

Inductive RecommendationStatus :=
| RecommendationStatusPending
| RecommendationStatusExecuted.

Inductive AIRecommendationStatus :=
| AIRecommendationStatusPending
| AIRecommendationStatusApproved
| AIRecommendationStatusRejected
| AIRecommendationStatusExecuted.

Inductive TradeStatus := TradeStatusOpen | TradeStatusClosed.

(** Times are seconds since the epoch. *)
Record Recommendation := {
  Recommendation_ID : string;
  Recommendation_Instrument : string;
  Recommendation_Direction : string;
  Recommendation_Units : float;
  Recommendation_Rationale : option string;
  Recommendation_ConfidenceScore : option float;
  Recommendation_MarketConditions : string;
  Recommendation_Status : RecommendationStatus;
  Recommendation_TradeID : option string;
  Recommendation_CreatedAt : Z;
  Recommendation_ExecutedAt : option Z }.

Record AIRecommendation := {
  AIRecommendation_ID : string;
  AIRecommendation_Instrument : string;
  AIRecommendation_Direction : string;
  AIRecommendation_Units : float;
  AIRecommendation_Confidence : float;
  AIRecommendation_Rationale : string;
  AIRecommendation_StopLoss : option float;
  AIRecommendation_TakeProfit : option float;
  AIRecommendation_TimeToLive : Z;
  AIRecommendation_MarketContext : string;
  AIRecommendation_NewsContext : string;
  AIRecommendation_HistoricalContext : string;
  AIRecommendation_Status : AIRecommendationStatus;
  AIRecommendation_ApprovedAt : option Z;
  AIRecommendation_ExecutedTradeID : option string;
  AIRecommendation_CreatedAt : Z;
  AIRecommendation_UpdatedAt : Z }.

Record Trade := {
  Trade_ID : string;
  Trade_Instrument : string;
  Trade_Direction : string;
  Trade_Units : float;
  Trade_EntryPrice : option float;
  Trade_ExitPrice : option float;
  Trade_ProfitLoss : option float;
  Trade_Commission : option float;
  Trade_Swap : option float;
  Trade_Status : TradeStatus;
  Trade_OandaTradeID : option string;
  Trade_CreatedAt : Z;
  Trade_UpdatedAt : Z;
  Trade_ClosedAt : option Z }.

End models.

(** ** Package [ai]: requests, drafts and contexts *)

Module ai.

Record RecommendationRequest := {
  Request_Instruments : list string;
  Request_RiskLevel : string;
  Request_TimeHorizon : string;
  Request_MaxRisk : float;
  Request_Context : string;
  Request_Units : Z;
  Request_RiskPercent : float;
  Request_StopLossPips : float }.

(** [map[string]interface{}], each value by its JSON text. *)
Record MarketContext := { MarketContext_Instruments : list (string * string) }.

Record NewsItem := {
  NewsItem_Title : string;
  NewsItem_Url : string;
  NewsItem_Snippet : string;
  NewsItem_Source : string;
  NewsItem_Published : string }.

Record HistoricalContext := { HistoricalContext_Notes : string }.

Record TradingContext := {
  TradingContext_Timestamp : Z;
  TradingContext_MarketData : option MarketContext;
  TradingContext_NewsAnalysis : list NewsItem;
  TradingContext_Historical : option HistoricalContext }.

Record Recommendation := {
  Recommendation_ID : string;
  Recommendation_Instrument : string;
  Recommendation_Direction : string;
  Recommendation_Units : Z;
  Recommendation_Confidence : float;
  Recommendation_Rationale : string;
  Recommendation_StopLoss : option float;
  Recommendation_TakeProfit : option float;
  Recommendation_TimeToLive : Z;
  Recommendation_MarketData : option MarketContext;
  Recommendation_NewsContext : list NewsItem }.

End ai.

(** ** The environment of a request *)

(** The SQL statements of package [database], as the fault plan of the
    environment names them. *)
Inductive Stmt : Type :=
| SelectRecommendations
| SelectAIRecommendations
| InsertRecommendation
| InsertAIRecommendation
| InsertTrade
| InsertAudit (entity action : string)
| InsertAIUsageLog
| InsertMarketAnalysisCache
| UpdateRecommendationExecuted
| UpdateAIRecommendationExecuted
| UpdateRecommendationDeleted.

(** Everything a request reads from outside the engine. Each field stands
    for a collaborator, a library routine or a helper whose source is not
    part of the embedding; no property below assumes anything about a field
    unless it says so. *)
Record Env := {
  (** [parseDecimal], the price parser of package [api]. *)
  parseDecimal : string -> float;
  (** [fmt.Sprintf("%.5f", x)]. *)
  Sprintf_5f : float -> string;
  (** [time.Now()] of the Go process and [NOW()] of the database; the
      statements of one request read one clock value. *)
  time_Now : Z;
  NOW : Z;
  (** [time.Now().Format("20060102150405")]. *)
  time_Now_Format : string;
  (** [os.Getenv("ANTHROPIC_API_KEY")]. *)
  ANTHROPIC_API_KEY : string;
  (** [json.Marshal] of the request body the model client composes. *)
  claudePayload : ai.RecommendationRequest -> string;
  (** [json.Marshal] of the market and news contexts, and of the summary
      (instrument, granularity, count) written to the analysis cache. *)
  json_Marshal_market : option ai.MarketContext -> string;
  json_Marshal_news : list ai.NewsItem -> string;
  json_Marshal_summary : string -> string -> Z -> string;
  (** [time.Since(start).Milliseconds()] at the end of a generation. *)
  elapsed_Milliseconds : Z;
  (** The market fetcher wired in [main]. *)
  marketFetcher : list string -> result ai.MarketContext;
  (** [BraveClient.SearchNews query count]. *)
  SearchNews : string -> Z -> result (list ai.NewsItem);
  (** [OandaMT4Client.GetPrices]; the first argument counts the calls of
      one request, which may see different quotes. *)
  GetPrices : nat -> list string -> result (list broker.Price);
  (** [OandaMT4Client.GetCandles instrument granularity count]. *)
  GetCandles : string -> string -> Z -> result (option broker.CandlesResponse);
  (** [OandaMT4Client.GetAccount]. *)
  GetAccount : result broker.Account;
  (** [makeRequest("POST", ".../orders", nil, payload)]. *)
  postOrder : broker.MarketOrderRequest -> result broker.Response;
  (** [json.Unmarshal] of an order response body. *)
  json_Unmarshal_order : string -> result broker.OrderCreateResponse;
  (** The statements the database server fails, and with what: a lost
      connection as much as a value the schema's column types or
      constraints refuse, which the embedding does not model. *)
  db_err : Stmt -> option error;
  (** [gen_random_uuid()], by the number of ids drawn so far. *)
  gen_random_uuid : nat -> string;
  (** Whether the server reads a text as a [uuid] (the cast [::uuid]). *)
  uuid_in : string -> bool }.

(** ** Package [database]: the tables and the statements over them *)

Module database.

(** A value of an audit [details] map. *)
Inductive Detail := DString (s : string) | DFloat (f : float).

Record AuditLog := {
  audit_entity : string;
  audit_entity_id : string;
  audit_action : string;
  audit_details : list (string * Detail);
  audit_created_at : Z }.

(** A row of [recommendations]: the columns [ListRecommendations] scans,
    and [deleted_at]. *)
Record RecommendationRow := {
  rec_columns : models.Recommendation;
  rec_deleted_at : option Z }.

Record TradeRow := {
  trade_columns : models.Trade;
  trade_deleted_at : option Z }.

Record AIUsageLog := {
  usage_recommendation_id : string;
  usage_prompt_tokens : Z;
  usage_completion_tokens : Z;
  usage_total_tokens : Z;
  usage_response_time_ms : Z;
  usage_claude_model : string }.

Record MarketAnalysisCache := {
  cache_instruments : string;
  cache_analysis_data : string;
  cache_expires_at : Z }.

(** The state behind a [*Postgres]: each table in insertion order, and
    the number of ids [gen_random_uuid()] has drawn. *)
Record Postgres := {
  recommendations : list RecommendationRow;
  ai_recommendations : list models.AIRecommendation;
  trades : list TradeRow;
  audit_logs : list AuditLog;
  ai_usage_logs : list AIUsageLog;
  market_analysis_cache : list MarketAnalysisCache;
  uuid_drawn : nat }.

Definition with_recommendations (l : list RecommendationRow) (p : Postgres) :=
  {| recommendations := l; ai_recommendations := ai_recommendations p;
     trades := trades p; audit_logs := audit_logs p;
     ai_usage_logs := ai_usage_logs p;
     market_analysis_cache := market_analysis_cache p;
     uuid_drawn := uuid_drawn p |}.

Definition with_ai_recommendations (l : list models.AIRecommendation) (p : Postgres) :=
  {| recommendations := recommendations p; ai_recommendations := l;
     trades := trades p; audit_logs := audit_logs p;
     ai_usage_logs := ai_usage_logs p;
     market_analysis_cache := market_analysis_cache p;
     uuid_drawn := uuid_drawn p |}.

Definition with_trades (l : list TradeRow) (p : Postgres) :=
  {| recommendations := recommendations p;
     ai_recommendations := ai_recommendations p;
     trades := l; audit_logs := audit_logs p;
     ai_usage_logs := ai_usage_logs p;
     market_analysis_cache := market_analysis_cache p;
     uuid_drawn := uuid_drawn p |}.

Definition with_audit_logs (l : list AuditLog) (p : Postgres) :=
  {| recommendations := recommendations p;
     ai_recommendations := ai_recommendations p;
     trades := trades p; audit_logs := l;
     ai_usage_logs := ai_usage_logs p;
     market_analysis_cache := market_analysis_cache p;
     uuid_drawn := uuid_drawn p |}.

Definition with_ai_usage_logs (l : list AIUsageLog) (p : Postgres) :=
  {| recommendations := recommendations p;
     ai_recommendations := ai_recommendations p;
     trades := trades p; audit_logs := audit_logs p;
     ai_usage_logs := l;
     market_analysis_cache := market_analysis_cache p;
     uuid_drawn := uuid_drawn p |}.

Definition with_market_analysis_cache (l : list MarketAnalysisCache) (p : Postgres) :=
  {| recommendations := recommendations p;
     ai_recommendations := ai_recommendations p;
     trades := trades p; audit_logs := audit_logs p;
     ai_usage_logs := ai_usage_logs p;
     market_analysis_cache := l;
     uuid_drawn := uuid_drawn p |}.

Definition with_uuid_drawn (n : nat) (p : Postgres) :=
  {| recommendations := recommendations p;
     ai_recommendations := ai_recommendations p;
     trades := trades p; audit_logs := audit_logs p;
     ai_usage_logs := ai_usage_logs p;
     market_analysis_cache := market_analysis_cache p;
     uuid_drawn := n |}.

(** [ORDER BY created_at DESC]: a stable insertion sort, later rows first
    among equal keys. *)
Fixpoint insert_desc {A : Type} (key : A -> Z) (x : A) (l : list A) : list A :=
  match l with
  | [] => [x]
  | y :: l' => if key y <? key x then x :: l else y :: insert_desc key x l'
  end.

Definition order_by_desc {A : Type} (key : A -> Z) (l : list A) : list A :=
  fold_right (insert_desc key) [] l.

(** [COALESCE(NULLIF($1,'')::uuid, gen_random_uuid())]: an empty text
    draws a fresh id, any other text is cast to [uuid], which fails on a
    text the server does not read as one. An id is kept as the text that
    was supplied (the server prints it back in lower case). *)
Definition coalesce_id (E : Env) (supplied : string) (p : Postgres)
  : result string * Postgres :=
  if String.eqb supplied "" then
    (Ok (gen_random_uuid E (uuid_drawn p)), with_uuid_drawn (S (uuid_drawn p)) p)
  else if uuid_in E supplied then (Ok supplied, p)
  else (Err (Error "invalid input syntax for type uuid"), p).

Definition duplicate_key : error :=
  Error "duplicate key value violates unique constraint".

(** [func (p *Postgres) audit]. *)
Definition audit (E : Env) (entity entityID action : string)
    (details : list (string * Detail)) (p : Postgres) : option error * Postgres :=
  match db_err E (InsertAudit entity action) with
  | Some e => (Some e, p)
  | None =>
      let row := {| audit_entity := entity; audit_entity_id := entityID;
                    audit_action := action; audit_details := details;
                    audit_created_at := NOW E |} in
      (None, with_audit_logs (audit_logs p ++ [row]) p)
  end.

Definition set_Recommendation_ID_CreatedAt (id : string) (now : Z)
    (r : models.Recommendation) : models.Recommendation :=
  {| models.Recommendation_ID := id;
     models.Recommendation_Instrument := models.Recommendation_Instrument r;
     models.Recommendation_Direction := models.Recommendation_Direction r;
     models.Recommendation_Units := models.Recommendation_Units r;
     models.Recommendation_Rationale := models.Recommendation_Rationale r;
     models.Recommendation_ConfidenceScore := models.Recommendation_ConfidenceScore r;
     models.Recommendation_MarketConditions := models.Recommendation_MarketConditions r;
     models.Recommendation_Status := models.Recommendation_Status r;
     models.Recommendation_TradeID := models.Recommendation_TradeID r;
     models.Recommendation_CreatedAt := now;
     models.Recommendation_ExecutedAt := models.Recommendation_ExecutedAt r |}.

(** [CreateRecommendation]: the [id] is a primary key. *)
Definition CreateRecommendation (E : Env) (r : models.Recommendation) (p : Postgres)
  : result string * Postgres :=
  match db_err E InsertRecommendation with
  | Some e => (Err e, p)
  | None =>
      match coalesce_id E (models.Recommendation_ID r) p with
      | (Ok id, p1) =>
          if existsb (fun x => String.eqb (models.Recommendation_ID (rec_columns x)) id)
               (recommendations p1)
          then (Err duplicate_key, p)
          else
            let row := {| rec_columns := set_Recommendation_ID_CreatedAt id (NOW E) r;
                          rec_deleted_at := None |} in
            let p2 := with_recommendations (recommendations p1 ++ [row]) p1 in
            let '(_, p3) :=
              audit E "recommendations" id "CREATE"
                [("instrument", DString (models.Recommendation_Instrument r));
                 ("direction", DString (models.Recommendation_Direction r));
                 ("units", DFloat (models.Recommendation_Units r))] p2 in
            (Ok id, p3)
      | (Err e, _) => (Err e, p)
      | (Panic, _) => (Panic, p)
      end
  end.

(** [ListRecommendations]: the live rows, newest first, at most 200. *)
Definition ListRecommendations (E : Env) (p : Postgres)
  : result (list models.Recommendation) :=
  match db_err E SelectRecommendations with
  | Some e => Err e
  | None =>
      Ok (firstn 200
            (order_by_desc models.Recommendation_CreatedAt
               (map rec_columns
                  (List.filter (fun x => match rec_deleted_at x with
                                    | None => true
                                    | Some _ => false
                                    end) (recommendations p)))))
  end.

(** [SET status='EXECUTED', trade_id=$2, executed_at=NOW()]. *)
Definition set_executed (tradeID : string) (now : Z) (r : models.Recommendation)
  : models.Recommendation :=
  {| models.Recommendation_ID := models.Recommendation_ID r;
     models.Recommendation_Instrument := models.Recommendation_Instrument r;
     models.Recommendation_Direction := models.Recommendation_Direction r;
     models.Recommendation_Units := models.Recommendation_Units r;
     models.Recommendation_Rationale := models.Recommendation_Rationale r;
     models.Recommendation_ConfidenceScore := models.Recommendation_ConfidenceScore r;
     models.Recommendation_MarketConditions := models.Recommendation_MarketConditions r;
     models.Recommendation_Status := models.RecommendationStatusExecuted;
     models.Recommendation_TradeID := Some tradeID;
     models.Recommendation_CreatedAt := models.Recommendation_CreatedAt r;
     models.Recommendation_ExecutedAt := Some now |}.

(** The [UPDATE recommendations ... WHERE id=$1] of
    [MarkRecommendationExecuted], row by row. *)
Definition update_executed (id tradeID : string) (now : Z) (x : RecommendationRow)
  : RecommendationRow :=
  if String.eqb (models.Recommendation_ID (rec_columns x)) id
  then {| rec_columns := set_executed tradeID now (rec_columns x);
          rec_deleted_at := rec_deleted_at x |}
  else x.

(** [MarkRecommendationExecuted]. *)
Definition MarkRecommendationExecuted (E : Env) (id tradeID : string) (p : Postgres)
  : option error * Postgres :=
  match db_err E UpdateRecommendationExecuted with
  | Some e => (Some e, p)
  | None =>
      let p1 := with_recommendations
                  (map (update_executed id tradeID (NOW E)) (recommendations p)) p in
      let '(_, p2) :=
        audit E "recommendations" id "EXECUTE" [("trade_id", DString tradeID)] p1 in
      (None, p2)
  end.

Definition set_Trade_ID_times (id : string) (now : Z) (t : models.Trade)
  : models.Trade :=
  {| models.Trade_ID := id;
     models.Trade_Instrument := models.Trade_Instrument t;
     models.Trade_Direction := models.Trade_Direction t;
     models.Trade_Units := models.Trade_Units t;
     models.Trade_EntryPrice := models.Trade_EntryPrice t;
     models.Trade_ExitPrice := models.Trade_ExitPrice t;
     models.Trade_ProfitLoss := models.Trade_ProfitLoss t;
     models.Trade_Commission := models.Trade_Commission t;
     models.Trade_Swap := models.Trade_Swap t;
     models.Trade_Status := models.Trade_Status t;
     models.Trade_OandaTradeID := models.Trade_OandaTradeID t;
     models.Trade_CreatedAt := now;
     models.Trade_UpdatedAt := now;
     models.Trade_ClosedAt := models.Trade_ClosedAt t |}.

(** [CreateTrade]. The statement has no [RETURNING]: the audit row is
    keyed by [t.ID] as the caller passed it. *)
Definition CreateTrade (E : Env) (t : models.Trade) (p : Postgres)
  : option error * Postgres :=
  match db_err E InsertTrade with
  | Some e => (Some e, p)
  | None =>
      match coalesce_id E (models.Trade_ID t) p with
      | (Ok id, p1) =>
          if existsb (fun x => String.eqb (models.Trade_ID (trade_columns x)) id)
               (trades p1)
          then (Some duplicate_key, p)
          else
            let row := {| trade_columns := set_Trade_ID_times id (NOW E) t;
                          trade_deleted_at := None |} in
            let p2 := with_trades (trades p1 ++ [row]) p1 in
            let '(_, p3) :=
              audit E "trades" (models.Trade_ID t) "CREATE"
                [("instrument", DString (models.Trade_Instrument t));
                 ("direction", DString (models.Trade_Direction t));
                 ("units", DFloat (models.Trade_Units t))] p2 in
            (None, p3)
      | (Err e, _) => (Some e, p)
      | (Panic, _) => (Some (Error "panic"), p)
      end
  end.

(** [SoftDeleteRecommendation]. *)
Definition SoftDeleteRecommendation (E : Env) (id : string) (p : Postgres)
  : option error * Postgres :=
  match db_err E UpdateRecommendationDeleted with
  | Some e => (Some e, p)
  | None =>
      let del x :=
        if (String.eqb (models.Recommendation_ID (rec_columns x)) id
            && match rec_deleted_at x with None => true | Some _ => false end)%bool
        then {| rec_columns := rec_columns x; rec_deleted_at := Some (NOW E) |}
        else x in
      let p1 := with_recommendations (map del (recommendations p)) p in
      let '(_, p2) := audit E "recommendations" id "DELETE" [] p1 in
      (None, p2)
  end.

Definition set_AIRecommendation_ID_times (id : string) (now : Z)
    (r : models.AIRecommendation) : models.AIRecommendation :=
  {| models.AIRecommendation_ID := id;
     models.AIRecommendation_Instrument := models.AIRecommendation_Instrument r;
     models.AIRecommendation_Direction := models.AIRecommendation_Direction r;
     models.AIRecommendation_Units := models.AIRecommendation_Units r;
     models.AIRecommendation_Confidence := models.AIRecommendation_Confidence r;
     models.AIRecommendation_Rationale := models.AIRecommendation_Rationale r;
     models.AIRecommendation_StopLoss := models.AIRecommendation_StopLoss r;
     models.AIRecommendation_TakeProfit := models.AIRecommendation_TakeProfit r;
     models.AIRecommendation_TimeToLive := models.AIRecommendation_TimeToLive r;
     models.AIRecommendation_MarketContext := models.AIRecommendation_MarketContext r;
     models.AIRecommendation_NewsContext := models.AIRecommendation_NewsContext r;
     models.AIRecommendation_HistoricalContext :=
       models.AIRecommendation_HistoricalContext r;
     models.AIRecommendation_Status := models.AIRecommendation_Status r;
     models.AIRecommendation_ApprovedAt := models.AIRecommendation_ApprovedAt r;
     models.AIRecommendation_ExecutedTradeID :=
       models.AIRecommendation_ExecutedTradeID r;
     models.AIRecommendation_CreatedAt := now;
     models.AIRecommendation_UpdatedAt := now |}.

(** [CreateAIRecommendation]. *)
Definition CreateAIRecommendation (E : Env) (r : models.AIRecommendation)
    (p : Postgres) : result string * Postgres :=
  match db_err E InsertAIRecommendation with
  | Some e => (Err e, p)
  | None =>
      match coalesce_id E (models.AIRecommendation_ID r) p with
      | (Ok id, p1) =>
          if existsb (fun x => String.eqb (models.AIRecommendation_ID x) id)
               (ai_recommendations p1)
          then (Err duplicate_key, p)
          else
            let row := set_AIRecommendation_ID_times id (NOW E) r in
            let p2 := with_ai_recommendations (ai_recommendations p1 ++ [row]) p1 in
            let '(_, p3) :=
              audit E "ai_recommendations" id "CREATE"
                [("instrument", DString (models.AIRecommendation_Instrument r));
                 ("direction", DString (models.AIRecommendation_Direction r));
                 ("units", DFloat (models.AIRecommendation_Units r))] p2 in
            (Ok id, p3)
      | (Err e, _) => (Err e, p)
      | (Panic, _) => (Panic, p)
      end
  end.

(** [SET status='EXECUTED', executed_trade_id=$2, updated_at=NOW()]. *)
Definition set_ai_executed (tradeID : string) (now : Z) (r : models.AIRecommendation)
  : models.AIRecommendation :=
  {| models.AIRecommendation_ID := models.AIRecommendation_ID r;
     models.AIRecommendation_Instrument := models.AIRecommendation_Instrument r;
     models.AIRecommendation_Direction := models.AIRecommendation_Direction r;
     models.AIRecommendation_Units := models.AIRecommendation_Units r;
     models.AIRecommendation_Confidence := models.AIRecommendation_Confidence r;
     models.AIRecommendation_Rationale := models.AIRecommendation_Rationale r;
     models.AIRecommendation_StopLoss := models.AIRecommendation_StopLoss r;
     models.AIRecommendation_TakeProfit := models.AIRecommendation_TakeProfit r;
     models.AIRecommendation_TimeToLive := models.AIRecommendation_TimeToLive r;
     models.AIRecommendation_MarketContext := models.AIRecommendation_MarketContext r;
     models.AIRecommendation_NewsContext := models.AIRecommendation_NewsContext r;
     models.AIRecommendation_HistoricalContext :=
       models.AIRecommendation_HistoricalContext r;
     models.AIRecommendation_Status := models.AIRecommendationStatusExecuted;
     models.AIRecommendation_ApprovedAt := models.AIRecommendation_ApprovedAt r;
     models.AIRecommendation_ExecutedTradeID := Some tradeID;
     models.AIRecommendation_CreatedAt := models.AIRecommendation_CreatedAt r;
     models.AIRecommendation_UpdatedAt := now |}.

Definition update_ai_executed (id tradeID : string) (now : Z)
    (x : models.AIRecommendation) : models.AIRecommendation :=
  if String.eqb (models.AIRecommendation_ID x) id
  then set_ai_executed tradeID now x else x.

(** [MarkAIRecommendationExecuted]. *)
Definition MarkAIRecommendationExecuted (E : Env) (id tradeID : string) (p : Postgres)
  : option error * Postgres :=
  match db_err E UpdateAIRecommendationExecuted with
  | Some e => (Some e, p)
  | None =>
      let p1 := with_ai_recommendations
                  (map (update_ai_executed id tradeID (NOW E)) (ai_recommendations p)) p in
      let '(_, p2) :=
        audit E "ai_recommendations" id "EXECUTE" [("trade_id", DString tradeID)] p1 in
      (None, p2)
  end.

(** [ListAIRecommendations]: every row, newest first, at most [limit]. *)
Definition ListAIRecommendations (E : Env) (limit : Z) (p : Postgres)
  : result (list models.AIRecommendation) :=
  let limit := if ((limit <=? 0) || (500 <? limit))%bool then 200 else limit in
  match db_err E SelectAIRecommendations with
  | Some e => Err e
  | None =>
      Ok (List.firstn (Z.to_nat limit)
            (order_by_desc models.AIRecommendation_CreatedAt (ai_recommendations p)))
  end.

(** [CreateAIUsageLog]. *)
Definition CreateAIUsageLog (E : Env) (recommendationID : string)
    (promptTokens completionTokens totalTokens responseTimeMs : Z) (model : string)
    (p : Postgres) : option error * Postgres :=
  match db_err E InsertAIUsageLog with
  | Some e => (Some e, p)
  | None =>
      let row := {| usage_recommendation_id := recommendationID;
                    usage_prompt_tokens := promptTokens;
                    usage_completion_tokens := completionTokens;
                    usage_total_tokens := totalTokens;
                    usage_response_time_ms := responseTimeMs;
                    usage_claude_model := model |} in
      (None, with_ai_usage_logs (ai_usage_logs p ++ [row]) p)
  end.

(** [InsertMarketAnalysisCache]. *)
Definition InsertMarketAnalysisCache (E : Env) (instruments analysisData : string)
    (expiresAt : Z) (p : Postgres) : option error * Postgres :=
  match db_err E InsertMarketAnalysisCache with
  | Some e => (Some e, p)
  | None =>
      let row := {| cache_instruments := instruments;
                    cache_analysis_data := analysisData;
                    cache_expires_at := expiresAt |} in
      (None, with_market_analysis_cache (market_analysis_cache p ++ [row]) p)
  end.

End database.

(** ** Package [api]: the state of the server *)

(** The in-memory [recommendation] of package [api]. *)
Record recommendation := {
  ID : string;
  Instrument : string;
  Direction : string;
  Units : float;
  Rationale : string;
  CreatedAt : Z }.

(** The calls a request makes to its collaborators, in order. *)
Inductive Event : Type :=
| CallMarketFetcher (instruments : list string)
| CallNewsFetcher (instruments : list string)
| CallHistFetcher (instruments : list string)
| CallModel (request : ai.RecommendationRequest)
| CallGetPrices (instruments : list string)
| CallGetCandles (instrument granularity : string) (count : Z)
| CallGetAccount
| CallPostOrder (payload : broker.MarketOrderRequest).

(** What a handler can read and change: the database behind [s.db] ([None]
    when the server runs without one), the package-level map [recs], and
    the log of collaborator calls. *)
Record World := {
  db : option database.Postgres;
  recs : gmap string recommendation;
  calls : list Event }.

Definition with_db (p : option database.Postgres) (w : World) : World :=
  {| db := p; recs := recs w; calls := calls w |}.

Definition with_recs (m : gmap string recommendation) (w : World) : World :=
  {| db := db w; recs := m; calls := calls w |}.

(** A computation over the world. *)
Definition M (A : Type) : Type := World -> A * World.

Definition ret {A : Type} (a : A) : M A := fun w => (a, w).

Definition bind {A B : Type} (m : M A) (k : A -> M B) : M B :=
  fun w => let '(a, w') := m w in k a w'.

Declare Scope go_scope.
Delimit Scope go_scope with go.
Notation "x <- m ;; k" := (bind m (fun x => k))
  (at level 100, m at next level, right associativity) : go_scope.
Notation "m ;;; k" := (bind m (fun _ => k))
  (at level 100, right associativity) : go_scope.
Local Open Scope go_scope.

Definition call (e : Event) : M unit :=
  fun w => (tt, {| db := db w; recs := recs w; calls := calls w ++ [e] |}).

(** Run a method of [*Postgres] when [s.db != nil]; [otherwise] when it is
    nil. *)
Definition on_db {A : Type} (otherwise : A)
    (f : database.Postgres -> A * database.Postgres) : M A :=
  fun w => match db w with
           | Some p => let '(a, p') := f p in (a, with_db (Some p') w)
           | None => (otherwise, w)
           end.

(** ** The broker methods the handlers call *)

(** The part [PlaceMarketOrder] and [PlaceMarketOrderWithBrackets] share:
    post the payload, turn a status outside 2xx into an error, decode the
    body. *)
Definition postMarketOrder (E : Env) (payload : broker.MarketOrderRequest)
  : M (result broker.OrderCreateResponse) :=
  call (CallPostOrder payload) ;;;
  ret match postOrder E payload with
      | Err e => Err e
      | Panic => Panic
      | Ok resp =>
          if ((broker.StatusCode resp <? 200) || (300 <=? broker.StatusCode resp))%bool
          then Err (OrderFailed (broker.StatusCode resp)
                      match broker.Body resp with Ok b => b | _ => "" end)
          else match broker.Body resp with
               | Ok body => json_Unmarshal_order E body
               | Err e => Err e
               | Panic => Panic
               end
      end.

Definition PlaceMarketOrder (E : Env) (instrument : string) (units : float)
  : M (result broker.OrderCreateResponse) :=
  postMarketOrder E
    {| broker.Order_Type := "MARKET";
       broker.Order_Instrument := instrument;
       broker.Order_Units := units;
       broker.Order_TimeInForce := "FOK";
       broker.Order_PositionFill := "DEFAULT";
       broker.Order_TakeProfitOnFill := None;
       broker.Order_StopLossOnFill := None |}.

Definition bracketPrice (E : Env) (level : option float) : option string :=
  match level with
  | Some x => if (0 <? x)%float then Some (Sprintf_5f E x) else None
  | None => None
  end.

Definition PlaceMarketOrderWithBrackets (E : Env) (instrument : string) (units : float)
    (stopLoss takeProfit : option float) : M (result broker.OrderCreateResponse) :=
  postMarketOrder E
    {| broker.Order_Type := "MARKET";
       broker.Order_Instrument := instrument;
       broker.Order_Units := units;
       broker.Order_TimeInForce := "FOK";
       broker.Order_PositionFill := "DEFAULT";
       broker.Order_TakeProfitOnFill := bracketPrice E takeProfit;
       broker.Order_StopLossOnFill := bracketPrice E stopLoss |}.

(** The mid of the first bid and the first ask of the first price, or zero:
    the block
    [if prices, err := s.mt4Client.GetPrices(...); err == nil && len(prices) > 0 && ...]
    that the handlers repeat. [n] numbers the call within the request. *)
Definition midOfPrices (E : Env) (prices : result (list broker.Price)) : float :=
  match prices with
  | Ok (p0 :: _) =>
      match broker.Price_Bids p0, broker.Price_Asks p0 with
      | b0 :: _, a0 :: _ =>
          let b := parseDecimal E (broker.Quote_Price b0) in
          let a := parseDecimal E (broker.Quote_Price a0) in
          if ((0 <? b)%float && (0 <? a)%float)%bool then ((b + a) / 2)%float
          else 0%float
      | _, _ => 0%float
      end
  | _ => 0%float
  end.

Definition currentMid (E : Env) (n : nat) (instrument : string) : M float :=
  call (CallGetPrices [instrument]) ;;;
  ret (midOfPrices E (GetPrices E n [instrument])).

(** ** Package [ai]: aggregator, model client and service *)

(** Sequencing of calls that return [(T, error)]: the first error (or
    panic) ends the computation. *)
Definition bindR {A B : Type} (m : M (result A)) (k : A -> M (result B))
  : M (result B) :=
  r <- m ;;
  match r with
  | Ok a => k a
  | Err e => ret (Err e)
  | Panic => ret Panic
  end.

Notation "x <-? m ;; k" := (bindR m (fun x => k))
  (at level 100, m at next level, right associativity) : go_scope.

(** The interface [Aggregator]. *)
Record Aggregator := {
  GatherMarketData : list string -> M (result (option ai.MarketContext));
  GatherNewsData : list string -> M (result (list ai.NewsItem));
  GatherHistoricalData : list string -> M (result (option ai.HistoricalContext));
  AssembleContext : option ai.MarketContext -> list ai.NewsItem ->
                    option ai.HistoricalContext -> ai.TradingContext }.

(** The interface [ClaudeClient]. *)
Record ClaudeClient := {
  ClaudeClient_GenerateRecommendation :
    ai.TradingContext -> ai.RecommendationRequest -> M (result ai.Recommendation) }.

(** The interface [Service] (the method the handlers call). *)
Record Service := {
  Service_GenerateRecommendation :
    ai.RecommendationRequest -> M (result ai.Recommendation) }.

(** [NewAggregator]: [aggregatorImpl] forwards to its three fetchers and
    stamps the context at assembly time. *)
Definition NewAggregator (E : Env)
    (marketFetcher : list string -> M (result (option ai.MarketContext)))
    (newsFetcher : list string -> M (result (list ai.NewsItem)))
    (histFetcher : list string -> M (result (option ai.HistoricalContext)))
  : Aggregator :=
  {| GatherMarketData := marketFetcher;
     GatherNewsData := newsFetcher;
     GatherHistoricalData := histFetcher;
     AssembleContext := fun market news historical =>
       {| ai.TradingContext_Timestamp := time_Now E;
          ai.TradingContext_MarketData := market;
          ai.TradingContext_NewsAnalysis := news;
          ai.TradingContext_Historical := historical |} |}.

(** The zero [time.Time], in seconds since the epoch. *)
Definition zeroTime : Z := -62135596800.

(** The instrument both drafts name: the first requested one, or EUR_USD. *)
Definition firstInstrument (request : ai.RecommendationRequest) : string :=
  match ai.Request_Instruments request with
  | i0 :: _ => i0
  | [] => "EUR_USD"
  end.

(** [claudeClientImpl.GenerateRecommendation]. *)
Definition claudeClientImpl_GenerateRecommendation (E : Env)
    (tradingContext : ai.TradingContext) (request : ai.RecommendationRequest)
  : M (result ai.Recommendation) :=
  call (CallModel request) ;;;
  if String.eqb (ANTHROPIC_API_KEY E) "" then
    ret (Ok {| ai.Recommendation_ID := "fallback";
               ai.Recommendation_Instrument := firstInstrument request;
               ai.Recommendation_Direction := "BUY";
               ai.Recommendation_Units := 100;
               ai.Recommendation_Confidence := 0.5%float;
               ai.Recommendation_Rationale :=
                 "Fallback heuristic recommendation (no ANTHROPIC_API_KEY)";
               ai.Recommendation_StopLoss := None;
               ai.Recommendation_TakeProfit := None;
               ai.Recommendation_TimeToLive := zeroTime;
               ai.Recommendation_MarketData := ai.TradingContext_MarketData tradingContext;
               ai.Recommendation_NewsContext :=
                 ai.TradingContext_NewsAnalysis tradingContext |})
  else
    ret (Ok {| ai.Recommendation_ID := "simulated";
               ai.Recommendation_Instrument := firstInstrument request;
               ai.Recommendation_Direction := "BUY";
               ai.Recommendation_Units := 100;
               ai.Recommendation_Confidence := 0.7%float;
               ai.Recommendation_Rationale :=
                 "Simulated Claude call with payload: " ++ claudePayload E request;
               ai.Recommendation_StopLoss := None;
               ai.Recommendation_TakeProfit := None;
               ai.Recommendation_TimeToLive := zeroTime;
               ai.Recommendation_MarketData := ai.TradingContext_MarketData tradingContext;
               ai.Recommendation_NewsContext :=
                 ai.TradingContext_NewsAnalysis tradingContext |}).

Definition NewClaudeClient (E : Env) : ClaudeClient :=
  {| ClaudeClient_GenerateRecommendation := claudeClientImpl_GenerateRecommendation E |}.

(** [serviceImpl.GenerateRecommendation]. *)
Definition serviceImpl_GenerateRecommendation (agg : Aggregator) (claude : ClaudeClient)
    (request : ai.RecommendationRequest) : M (result ai.Recommendation) :=
  market <-? GatherMarketData agg (ai.Request_Instruments request) ;;
  news <-? GatherNewsData agg (ai.Request_Instruments request) ;;
  hist <-? GatherHistoricalData agg (ai.Request_Instruments request) ;;
  let ctxObj := AssembleContext agg market news hist in
  ClaudeClient_GenerateRecommendation claude ctxObj request.

Definition NewService (agg : Aggregator) (claude : ClaudeClient) : Service :=
  {| Service_GenerateRecommendation := serviceImpl_GenerateRecommendation agg claude |}.

(** ** The wiring of [main] *)

(** The market fetcher of [main], by what it returns; the candle snapshots
    it stores in [market_data] on the way are its own and no handler reads
    them. *)
Definition main_marketFetcher (E : Env) (instruments : list string)
  : M (result (option ai.MarketContext)) :=
  call (CallMarketFetcher instruments) ;;;
  ret match marketFetcher E instruments with
      | Ok m => Ok (Some m)
      | Err e => Err e
      | Panic => Panic
      end.

(** The news fetcher of [main]: [instruments[0]] panics on an empty list. *)
Definition main_newsFetcher (E : Env) (instruments : list string)
  : M (result (list ai.NewsItem)) :=
  call (CallNewsFetcher instruments) ;;;
  match instruments with
  | [] => ret Panic
  | i0 :: _ => ret (SearchNews E (i0 ++ " forex") 5)
  end.

Definition main_histFetcher (instruments : list string)
  : M (result (option ai.HistoricalContext)) :=
  call (CallHistFetcher instruments) ;;;
  ret (Ok (Some {| ai.HistoricalContext_Notes := "pending" |})).

(** [aiSvc] as [main] builds it. *)
Definition main_aiSvc (E : Env) : Service :=
  NewService
    (NewAggregator E (main_marketFetcher E) (main_newsFetcher E) main_histFetcher)
    (NewClaudeClient E).

(** ** Package [api]: the handlers *)

(** What a handler answers. *)
Inductive Body : Type :=
| H_error (err : error)
| H_created (r : recommendation)
| H_accepted (accepted : recommendation) (order : broker.OrderCreateResponse)
| H_recommendation (rec : ai.Recommendation).

(** [c.JSON(code, body)], or the 500 of gin's recovery middleware after a
    panic. *)
Inductive Response : Type :=
| JSON (code : Z) (body : Body)
| Recovered.

(** The server: [s.ai] ([None] when nil). Its database is [db] of the
    world. *)
Record Server := { Server_ai : option Service }.

Definition isHexDigit (ch : ascii) : bool :=
  let n := nat_of_ascii ch in
  ((Nat.leb 48 n && Nat.leb n 57) || (Nat.leb 97 n && Nat.leb n 102)
   || (Nat.leb 65 n && Nat.leb n 70))%bool.

(** The loop of [isUUIDLike] from index [i] on. The source ranges over the
    runes of [s] with their byte offsets; a byte above 127 starts (or is) a
    rune that is neither a hyphen nor a hexadecimal digit, so the loop over
    bytes returns the same. *)
Fixpoint isUUIDLike_from (i : nat) (s : string) : bool :=
  match s with
  | EmptyString => true
  | String ch s' =>
      match i with
      | 8%nat | 13%nat | 18%nat | 23%nat =>
          if Ascii.eqb ch "-" then isUUIDLike_from (S i) s' else false
      | _ =>
          if isHexDigit ch then isUUIDLike_from (S i) s' else false
      end
  end.

(** [isUUIDLike]. *)
Definition isUUIDLike (s : string) : bool :=
  if negb (Nat.eqb (String.length s) 36) then false else isUUIDLike_from 0 s.

(** The pip of an instrument, as both the bracket and the sizing code
    compute it:
    [pip := 0.0001; if strings.Contains(rec.Instrument, "JPY") { pip = 0.01 }]. *)
Definition pip (instrument : string) : float :=
  if strings.Contains instrument "JPY" then 0.01%float else 0.0001%float.

(** [distPips] of the bracket code. *)
Definition distPips (riskLevel : string) : float :=
  let l := strings.ToLower riskLevel in
  if String.eqb l "low" then 30%float
  else if String.eqb l "high" then 10%float
  else 20%float.

Definition set_brackets (sl tp : option float) (rec : ai.Recommendation)
  : ai.Recommendation :=
  {| ai.Recommendation_ID := ai.Recommendation_ID rec;
     ai.Recommendation_Instrument := ai.Recommendation_Instrument rec;
     ai.Recommendation_Direction := ai.Recommendation_Direction rec;
     ai.Recommendation_Units := ai.Recommendation_Units rec;
     ai.Recommendation_Confidence := ai.Recommendation_Confidence rec;
     ai.Recommendation_Rationale := ai.Recommendation_Rationale rec;
     ai.Recommendation_StopLoss := sl;
     ai.Recommendation_TakeProfit := tp;
     ai.Recommendation_TimeToLive := ai.Recommendation_TimeToLive rec;
     ai.Recommendation_MarketData := ai.Recommendation_MarketData rec;
     ai.Recommendation_NewsContext := ai.Recommendation_NewsContext rec |}.

Definition set_Units (units : Z) (rec : ai.Recommendation) : ai.Recommendation :=
  {| ai.Recommendation_ID := ai.Recommendation_ID rec;
     ai.Recommendation_Instrument := ai.Recommendation_Instrument rec;
     ai.Recommendation_Direction := ai.Recommendation_Direction rec;
     ai.Recommendation_Units := units;
     ai.Recommendation_Confidence := ai.Recommendation_Confidence rec;
     ai.Recommendation_Rationale := ai.Recommendation_Rationale rec;
     ai.Recommendation_StopLoss := ai.Recommendation_StopLoss rec;
     ai.Recommendation_TakeProfit := ai.Recommendation_TakeProfit rec;
     ai.Recommendation_TimeToLive := ai.Recommendation_TimeToLive rec;
     ai.Recommendation_MarketData := ai.Recommendation_MarketData rec;
     ai.Recommendation_NewsContext := ai.Recommendation_NewsContext rec |}.

Definition set_ID (id : string) (rec : ai.Recommendation) : ai.Recommendation :=
  {| ai.Recommendation_ID := id;
     ai.Recommendation_Instrument := ai.Recommendation_Instrument rec;
     ai.Recommendation_Direction := ai.Recommendation_Direction rec;
     ai.Recommendation_Units := ai.Recommendation_Units rec;
     ai.Recommendation_Confidence := ai.Recommendation_Confidence rec;
     ai.Recommendation_Rationale := ai.Recommendation_Rationale rec;
     ai.Recommendation_StopLoss := ai.Recommendation_StopLoss rec;
     ai.Recommendation_TakeProfit := ai.Recommendation_TakeProfit rec;
     ai.Recommendation_TimeToLive := ai.Recommendation_TimeToLive rec;
     ai.Recommendation_MarketData := ai.Recommendation_MarketData rec;
     ai.Recommendation_NewsContext := ai.Recommendation_NewsContext rec |}.

(** *** [aiGenerateRecommendation], stage by stage *)

(** "Enrich with SL/TP using price/candles": the current price, from the
    quotes or else from the close of the last M5 candle. *)
Definition enrichPrice (E : Env) (instrument : string) : M float :=
  mid <- currentMid E 0 instrument ;;
  if (mid =? 0)%float then
    call (CallGetCandles instrument "M5" 1) ;;;
    ret match GetCandles E instrument "M5" 1 with
        | Ok (Some candles) =>
            match broker.CandlesResponse_Candles candles with
            | [] => mid
            | c0 :: cs =>
                parseDecimal E (broker.OHLC_Close (broker.Candle_Mid (List.last cs c0)))
            end
        | _ => mid
        end
  else ret mid.

(** The bracket computation, [if mid > 0 { ... }]. *)
Definition brackets (req : ai.RecommendationRequest) (mid : float)
    (rec : ai.Recommendation) : ai.Recommendation :=
  if (0 <? mid)%float then
    let pip := pip (ai.Recommendation_Instrument rec) in
    let distPips := distPips (ai.Request_RiskLevel req) in
    let rr := 2%float in
    if String.eqb (strings.ToUpper (ai.Recommendation_Direction rec)) "BUY" then
      set_brackets (Some (mid - distPips * pip)%float)
                   (Some (mid + rr * distPips * pip)%float) rec
    else
      set_brackets (Some (mid + distPips * pip)%float)
                   (Some (mid - rr * distPips * pip)%float) rec
  else rec.

(** [pipValuePerUnit := 10.0 / 100000.0]. *)
Definition pipValuePerUnit : float := (10 / 100000)%float.

(** The unit count of the risk-based branch:
    [riskUSD := account.NAV * req.RiskPercent;
     units := riskUSD / (slPips * pipValuePerUnit);
     if units < 1 { units = 1 }; int64(math.Round(units))]. *)
Definition riskUnits (nav riskPercent slPips : float) : Z :=
  let riskUSD := (nav * riskPercent)%float in
  let units := (riskUSD / (slPips * pipValuePerUnit))%float in
  let units := if (units <? 1)%float then 1%float else units in
  int64 (math.Round units).

(** "Determine stop distance in pips". *)
Definition stopDistance (E : Env) (req : ai.RecommendationRequest)
    (rec : ai.Recommendation) : M float :=
  if (0 <? ai.Request_StopLossPips req)%float then ret (ai.Request_StopLossPips req)
  else match ai.Recommendation_StopLoss rec with
       | Some stopLoss =>
           mid <- currentMid E 1 (ai.Recommendation_Instrument rec) ;;
           if (0 <? mid)%float then
             ret (math.Abs (mid - stopLoss) / pip (ai.Recommendation_Instrument rec))%float
           else ret 0%float
       | None => ret 0%float
       end.

(** "Position sizing". *)
Definition positionSizing (E : Env) (req : ai.RecommendationRequest)
    (rec : ai.Recommendation) : M ai.Recommendation :=
  if 0 <? ai.Request_Units req then ret (set_Units (ai.Request_Units req) rec)
  else if (((0 <? ai.Request_RiskPercent req)%float
            && (0 <? ai.Request_StopLossPips req)%float)
           || ((0 <? ai.Request_RiskPercent req)%float
               && match ai.Recommendation_StopLoss rec with
                  | Some _ => true
                  | None => false
                  end))%bool
  then
    slPips <- stopDistance E req rec ;;
    call CallGetAccount ;;;
    match GetAccount E with
    | Ok account =>
        if (0 <? slPips)%float then
          ret (set_Units (riskUnits (broker.Account_NAV account)
                            (ai.Request_RiskPercent req) slPips) rec)
        else ret rec
    | _ => ret rec
    end
  else ret rec.

(** The byte 34, to write JSON text. *)
Definition dquote : string := String (ascii_of_nat 34) EmptyString.

(** [json.Marshal(struct{ Notes string }{Notes: "pending"})]. *)
Definition histJSON : string :=
  "{" ++ dquote ++ "notes" ++ dquote ++ ":" ++ dquote ++ "pending" ++ dquote ++ "}".

(** [safeID]: "Ensure we don't pass a non-UUID ID (e.g., "simulated") to
    the DB". *)
Definition safeID (rec : ai.Recommendation) : string :=
  if negb (isUUIDLike (ai.Recommendation_ID rec)) then ""
  else ai.Recommendation_ID rec.

(** [aiRow], the row handed to [CreateAIRecommendation]. *)
Definition aiRow (E : Env) (rec : ai.Recommendation) : models.AIRecommendation :=
  {| models.AIRecommendation_ID := safeID rec;
     models.AIRecommendation_Instrument := ai.Recommendation_Instrument rec;
     models.AIRecommendation_Direction := ai.Recommendation_Direction rec;
     models.AIRecommendation_Units := float64 (ai.Recommendation_Units rec);
     models.AIRecommendation_Confidence := ai.Recommendation_Confidence rec;
     models.AIRecommendation_Rationale := ai.Recommendation_Rationale rec;
     models.AIRecommendation_StopLoss := ai.Recommendation_StopLoss rec;
     models.AIRecommendation_TakeProfit := ai.Recommendation_TakeProfit rec;
     models.AIRecommendation_TimeToLive := ai.Recommendation_TimeToLive rec;
     models.AIRecommendation_MarketContext :=
       json_Marshal_market E (ai.Recommendation_MarketData rec);
     models.AIRecommendation_NewsContext :=
       json_Marshal_news E (ai.Recommendation_NewsContext rec);
     models.AIRecommendation_HistoricalContext := histJSON;
     models.AIRecommendation_Status := models.AIRecommendationStatusPending;
     models.AIRecommendation_ApprovedAt := None;
     models.AIRecommendation_ExecutedTradeID := None;
     models.AIRecommendation_CreatedAt := zeroTime;
     models.AIRecommendation_UpdatedAt := zeroTime |}.

(** [legacy], the mirror handed to [CreateRecommendation]. *)
Definition legacy (E : Env) (rec : ai.Recommendation) : models.Recommendation :=
  {| models.Recommendation_ID := "";
     models.Recommendation_Instrument := ai.Recommendation_Instrument rec;
     models.Recommendation_Direction := ai.Recommendation_Direction rec;
     models.Recommendation_Units := float64 (ai.Recommendation_Units rec);
     models.Recommendation_Rationale := Some (ai.Recommendation_Rationale rec);
     models.Recommendation_ConfidenceScore :=
       if (0 <? ai.Recommendation_Confidence rec)%float
       then Some (ai.Recommendation_Confidence rec) else None;
     models.Recommendation_MarketConditions :=
       json_Marshal_market E (ai.Recommendation_MarketData rec);
     models.Recommendation_Status := models.RecommendationStatusPending;
     models.Recommendation_TradeID := None;
     models.Recommendation_CreatedAt := zeroTime;
     models.Recommendation_ExecutedAt := None |}.

(** "Attempt to persist AI recommendation with contexts": the AI row, then
    its legacy mirror. Returns the draft (with the stored id when the row
    was written) and [persistedID]. *)
Definition persist (E : Env) (rec : ai.Recommendation) : M (ai.Recommendation * string) :=
  fun w =>
    match db w with
    | None => ((rec, ""), w)
    | Some p =>
        match database.CreateAIRecommendation E (aiRow E rec) p with
        | (Ok id, p1) =>
            let rec := set_ID id rec in
            let '(_, p2) := database.CreateRecommendation E (legacy E rec) p1 in
            ((rec, id), with_db (Some p2) w)
        | (_, p1) => ((rec, ""), with_db (Some p1) w)
        end
    end.

(** "Write AI usage log". *)
Definition usageLog (E : Env) (req : ai.RecommendationRequest) (persistedID : string)
  : M unit :=
  if negb (String.eqb persistedID "") then
    let promptTokens := Z.of_nat (List.length (ai.Request_Instruments req)) * 4 + 20 in
    let completionTokens := 60 in
    let total := promptTokens + completionTokens in
    on_db tt (fun p =>
      let '(_, p') := database.CreateAIUsageLog E persistedID promptTokens
                        completionTokens total (elapsed_Milliseconds E) "simulated" p in
      (tt, p'))
  else ret tt.

(** "Optional: write a small market analysis cache record". *)
Definition analysisCache (E : Env) (req : ai.RecommendationRequest) : M unit :=
  fun w =>
    match db w, ai.Request_Instruments req with
    | Some p, inst :: _ =>
        let '(_, w1) := call (CallGetCandles inst "M5" 20) w in
        match GetCandles E inst "M5" 20 with
        | Ok (Some candles) =>
            let buf := json_Marshal_summary E inst
                         (broker.CandlesResponse_Granularity candles)
                         (Z.of_nat (List.length (broker.CandlesResponse_Candles candles))) in
            let expires := time_Now E + 600 in
            let '(_, p') := database.InsertMarketAnalysisCache E inst buf expires p in
            (tt, with_db (Some p') w1)
        | _ => (tt, w1)
        end
    | _, _ => (tt, w)
    end.

(** [Server.aiGenerateRecommendation]. [req] is what [c.BindJSON] read, or
    [None] when it failed. *)
Definition aiGenerateRecommendation (E : Env) (s : Server)
    (req : option ai.RecommendationRequest) : M Response :=
  match req with
  | None => ret (JSON 400 (H_error (Error "invalid request")))
  | Some req =>
      match Server_ai s with
      | None => ret (JSON 503 (H_error (Error "ai service not configured")))
      | Some svc =>
          r <- Service_GenerateRecommendation svc req ;;
          match r with
          | Err e => ret (JSON 500 (H_error e))
          | Panic => ret Recovered
          | Ok rec =>
              mid <- enrichPrice E (ai.Recommendation_Instrument rec) ;;
              let rec := brackets req mid rec in
              rec <- positionSizing E req rec ;;
              stored <- persist E rec ;;
              let '(rec, persistedID) := stored in
              usageLog E req persistedID ;;;
              analysisCache E req ;;;
              ret (JSON 200 (H_recommendation rec))
          end
      end
  end.

(** *** [createRecommendation] *)

Definition set_ID_CreatedAt (id : string) (createdAt : Z) (r : recommendation)
  : recommendation :=
  {| ID := id; Instrument := Instrument r; Direction := Direction r;
     Units := Units r; Rationale := Rationale r; CreatedAt := createdAt |}.

(** [Server.createRecommendation]. [body] is what [c.BindJSON] read, or
    [None] when it failed. The row goes to the database; the map [recs]
    takes it when there is no database or the insert fails. *)
Definition createRecommendation (E : Env) (body : option recommendation) : M Response :=
  match body with
  | None => ret (JSON 400 (H_error (Error "invalid request")))
  | Some r =>
      let r := set_ID_CreatedAt
                 (if String.eqb (ID r) "" then time_Now_Format E else ID r)
                 (time_Now E) r in
      fun w =>
        match db w with
        | Some p =>
            let rec :=
              {| models.Recommendation_ID := ID r;
                 models.Recommendation_Instrument := Instrument r;
                 models.Recommendation_Direction := Direction r;
                 models.Recommendation_Units := Units r;
                 models.Recommendation_Rationale := Some (Rationale r);
                 models.Recommendation_ConfidenceScore := None;
                 models.Recommendation_MarketConditions := "";
                 models.Recommendation_Status := models.RecommendationStatusPending;
                 models.Recommendation_TradeID := None;
                 models.Recommendation_CreatedAt := zeroTime;
                 models.Recommendation_ExecutedAt := None |} in
            match database.CreateRecommendation E rec p with
            | (Ok id, p') =>
                (JSON 201 (H_created (set_ID_CreatedAt id (CreatedAt r) r)),
                 with_db (Some p') w)
            | (_, p') =>
                (JSON 201 (H_created r),
                 with_recs (<[ID r := r]> (recs w)) (with_db (Some p') w))
            end
        | None => (JSON 201 (H_created r), with_recs (<[ID r := r]> (recs w)) w)
        end
  end.

(** *** [acceptRecommendation] *)

(** What the lookup of an id yields: the order to place, whether it came
    from the AI table, and its brackets. *)
Record Resolved := {
  resolved_r : recommendation;
  resolved_isAI : bool;
  resolved_sl : option float;
  resolved_tp : option float }.

(** "First try legacy recommendations table". *)
Definition findLegacy (E : Env) (id : string) (w : World) : option Resolved :=
  match db w with
  | Some p =>
      match database.ListRecommendations E p with
      | Ok list =>
          match List.find (fun item => String.eqb (models.Recommendation_ID item) id) list with
          | Some item =>
              Some {| resolved_r :=
                        {| ID := models.Recommendation_ID item;
                           Instrument := models.Recommendation_Instrument item;
                           Direction := models.Recommendation_Direction item;
                           Units := models.Recommendation_Units item;
                           Rationale := match models.Recommendation_Rationale item with
                                        | Some s => s
                                        | None => ""
                                        end;
                           CreatedAt := models.Recommendation_CreatedAt item |};
                      resolved_isAI := false;
                      resolved_sl := None;
                      resolved_tp := None |}
          | None => None
          end
      | _ => None
      end
  | None => None
  end.

(** "If not found, try AI recommendations table". *)
Definition findAI (E : Env) (id : string) (w : World) : option Resolved :=
  match db w with
  | Some p =>
      match database.ListAIRecommendations E 200 p with
      | Ok list =>
          match List.find (fun item => String.eqb (models.AIRecommendation_ID item) id) list with
          | Some item =>
              Some {| resolved_r :=
                        {| ID := models.AIRecommendation_ID item;
                           Instrument := models.AIRecommendation_Instrument item;
                           Direction := models.AIRecommendation_Direction item;
                           Units := models.AIRecommendation_Units item;
                           Rationale := models.AIRecommendation_Rationale item;
                           CreatedAt := models.AIRecommendation_CreatedAt item |};
                      resolved_isAI := true;
                      resolved_sl := models.AIRecommendation_StopLoss item;
                      resolved_tp := models.AIRecommendation_TakeProfit item |}
          | None => None
          end
      | _ => None
      end
  | None => None
  end.

(** The last resort, [recs[id]]. *)
Definition findMemory (id : string) (w : World) : option Resolved :=
  match recs w !! id with
  | Some mem => Some {| resolved_r := mem; resolved_isAI := false;
                        resolved_sl := None; resolved_tp := None |}
  | None => None
  end.

(** The three lookups in the order of the source. *)
Definition resolve (E : Env) (id : string) (w : World) : option Resolved :=
  match findLegacy E id w with
  | Some x => Some x
  | None =>
      match findAI E id w with
      | Some x => Some x
      | None => findMemory id w
      end
  end.

(** "mark executed in DB and create trade record", under [s.db != nil]. *)
Definition reconcile (E : Env) (id : string) (x : Resolved) (units : float)
    (resp : broker.OrderCreateResponse) : M unit :=
  fun w =>
    match db w with
    | None => (tt, w)
    | Some p =>
        let orderID := broker.OrderCreateTransaction_ID resp in
        let '(_, p1) :=
          if resolved_isAI x
          then database.MarkAIRecommendationExecuted E id orderID p
          else database.MarkRecommendationExecuted E id orderID p in
        let '(entry, w1) := currentMid E 0 (Instrument (resolved_r x)) (with_db (Some p1) w) in
        let trade :=
          {| models.Trade_ID := "";
             models.Trade_Instrument := Instrument (resolved_r x);
             models.Trade_Direction := if (0 <=? units)%float then "BUY" else "SELL";
             models.Trade_Units := units;
             models.Trade_EntryPrice := Some entry;
             models.Trade_ExitPrice := None;
             models.Trade_ProfitLoss := None;
             models.Trade_Commission := None;
             models.Trade_Swap := None;
             models.Trade_Status := models.TradeStatusOpen;
             models.Trade_OandaTradeID := Some orderID;
             models.Trade_CreatedAt := zeroTime;
             models.Trade_UpdatedAt := zeroTime;
             models.Trade_ClosedAt := None |} in
        let '(_, p2) := database.CreateTrade E trade p1 in
        (tt, with_db (Some p2) w1)
    end.

(** The signed units of the order: negative for a SELL. *)
Definition orderUnits (r : recommendation) : float :=
  if String.eqb (strings.ToUpper (Direction r)) "SELL"
  then (- Units r)%float else Units r.

(** "Use brackets if we have SL/TP from AI". *)
Definition submit (E : Env) (x : Resolved) : M (result broker.OrderCreateResponse) :=
  let r := resolved_r x in
  match resolved_sl x, resolved_tp x with
  | None, None => PlaceMarketOrder E (Instrument r) (orderUnits r)
  | sl, tp => PlaceMarketOrderWithBrackets E (Instrument r) (orderUnits r) sl tp
  end.

(** [Server.acceptRecommendation], for the path parameter [id]. *)
Definition acceptRecommendation (E : Env) (id : string) : M Response :=
  fun w =>
    match resolve E id w with
    | None => (JSON 404 (H_error (Error "not found")), w)
    | Some x =>
        let r := resolved_r x in
        let units := orderUnits r in
        let '(placed, w1) := submit E x w in
        match placed with
        | Err err => (JSON 500 (H_error err), w1)
        | Panic => (Recovered, w1)
        | Ok resp =>
            let '(_, w2) := reconcile E id x units resp w1 in
            (JSON 200 (H_accepted r resp), w2)
        end
    end.

(** * Notions and examples the properties use *)

(** A draft for [instrument] in [direction], as the model client returns
    them (no brackets yet, 100 units). *)
Definition draftFor (instrument direction : string) : ai.Recommendation :=
  {| ai.Recommendation_ID := "fallback";
     ai.Recommendation_Instrument := instrument;
     ai.Recommendation_Direction := direction;
     ai.Recommendation_Units := 100;
     ai.Recommendation_Confidence := 0.5%float;
     ai.Recommendation_Rationale := "";
     ai.Recommendation_StopLoss := None;
     ai.Recommendation_TakeProfit := None;
     ai.Recommendation_TimeToLive := zeroTime;
     ai.Recommendation_MarketData := None;
     ai.Recommendation_NewsContext := [] |}.

(** A request for [instruments] at [riskLevel], nothing else set. *)
Definition requestFor (instruments : list string) (riskLevel : string)
  : ai.RecommendationRequest :=
  {| ai.Request_Instruments := instruments;
     ai.Request_RiskLevel := riskLevel;
     ai.Request_TimeHorizon := "";
     ai.Request_MaxRisk := 0%float;
     ai.Request_Context := "";
     ai.Request_Units := 0;
     ai.Request_RiskPercent := 0%float;
     ai.Request_StopLossPips := 0%float |}.

(** From the words of the specification ("the instrument's quote
    currency"): an instrument is named BASE_QUOTE, and its quote currency
    is what follows the underscore. This notion is the specification's; the
    source has no counterpart of it. *)
Fixpoint quoteCurrency (instrument : string) : string :=
  match instrument with
  | EmptyString => EmptyString
  | String c rest => if Ascii.eqb c "_" then rest else quoteCurrency rest
  end.

(** A [gen_random_uuid()] for the examples. *)
Definition demoUUID (n : nat) : string :=
  match n with
  | O => "0b0e7a52-4c1f-4d0a-9c3e-5a1f0c2d3e40"
  | S O => "0b0e7a52-4c1f-4d0a-9c3e-5a1f0c2d3e41"
  | S (S O) => "0b0e7a52-4c1f-4d0a-9c3e-5a1f0c2d3e42"
  | _ => "0b0e7a52-4c1f-4d0a-9c3e-5a1f0c2d3e43"
  end.

(** A price parser that knows the quotes of the examples. *)
Definition demoParse (s : string) : float :=
  if String.eqb s "1.09990" then 1.0999%float
  else if String.eqb s "1.10010" then 1.1001%float
  else 0%float.

Definition demoPrice : broker.Price :=
  {| broker.Price_Instrument := "EUR_USD";
     broker.Price_Bids := [ {| broker.Quote_Price := "1.09990"; broker.Quote_Liquidity := 1000000 |} ];
     broker.Price_Asks := [ {| broker.Quote_Price := "1.10010"; broker.Quote_Liquidity := 1000000 |} ] |}.

Definition demoAccount : broker.Account :=
  {| broker.Account_ID := "101-001-1234567-001";
     broker.Account_Currency := "USD";
     broker.Account_Balance := 10000%float;
     broker.Account_NAV := 10000%float |}.

(** An environment with live quotes, an account worth 10000, no model
    credential, the given answer of the broker to an order and the given
    database faults. *)
Definition demoEnv (order : result broker.Response) (faults : Stmt -> option error)
  : Env :=
  {| parseDecimal := demoParse;
     Sprintf_5f := fun _ => "0.00000";
     time_Now := 1767225600;
     NOW := 1767225600;
     time_Now_Format := "20260101000000";
     ANTHROPIC_API_KEY := "";
     claudePayload := fun _ => "{}";
     json_Marshal_market := fun _ => "{}";
     json_Marshal_news := fun _ => "[]";
     json_Marshal_summary := fun _ _ _ => "{}";
     elapsed_Milliseconds := 12;
     marketFetcher := fun _ => Ok {| ai.MarketContext_Instruments := [] |};
     SearchNews := fun _ _ => Ok [];
     GetPrices := fun _ _ => Ok [demoPrice];
     GetCandles := fun _ _ _ => Err (Error "API request failed with status 503");
     GetAccount := Ok demoAccount;
     postOrder := fun _ => order;
     json_Unmarshal_order := fun _ => Ok {| broker.OrderCreateTransaction_ID := "6357" |};
     db_err := faults;
     gen_random_uuid := demoUUID;
     uuid_in := isUUIDLike |}.

Definition orderFilled : result broker.Response :=
  Ok {| broker.StatusCode := 201; broker.Body := Ok "{}" |}.

Definition orderRejected : result broker.Response :=
  Ok {| broker.StatusCode := 400; broker.Body := Ok "INSUFFICIENT_MARGIN" |}.

Definition noFaults : Stmt -> option error := fun _ => None.

Definition emptyPostgres : database.Postgres :=
  {| database.recommendations := [];
     database.ai_recommendations := [];
     database.trades := [];
     database.audit_logs := [];
     database.ai_usage_logs := [];
     database.market_analysis_cache := [];
     database.uuid_drawn := 0 |}.

(** A server with an empty database, and one without a database. *)
Definition freshWorld : World := {| db := Some emptyPostgres; recs := ∅; calls := [] |}.
Definition memoryWorld : World := {| db := None; recs := ∅; calls := [] |}.

(** The clamp [if units < 1 { units = 1 }]. *)
Definition atLeastOne (units : float) : float :=
  if (units <? 1)%float then 1%float else units.

(** The request of the specification's example: no units, risk 0.01, stop
    25 pips. *)
Definition sizingRequest : ai.RecommendationRequest :=
  {| ai.Request_Instruments := ["EUR_USD"];
     ai.Request_RiskLevel := "medium";
     ai.Request_TimeHorizon := "intraday";
     ai.Request_MaxRisk := 0%float;
     ai.Request_Context := "";
     ai.Request_Units := 0;
     ai.Request_RiskPercent := 0.01%float;
     ai.Request_StopLossPips := 25%float |}.

(** The positions of the hyphens in a UUID. *)
Definition hyphenPosition (i : nat) : bool :=
  (Nat.eqb i 8 || Nat.eqb i 13 || Nat.eqb i 18 || Nat.eqb i 23)%bool.

(** The character a UUID may have at position [i]. *)
Definition shapedAt (i : nat) (ch : ascii) : bool :=
  if hyphenPosition i then Ascii.eqb ch "-" else isHexDigit ch.

(** From the words of the specification: a text is UUID-shaped when it has
    36 characters, hyphens at positions 8, 13, 18 and 23, and hexadecimal
    digits elsewhere. *)
Definition UUIDShaped (s : string) : Prop :=
  String.length s = 36%nat /\
  forall i ch, String.get i s = Some ch -> shapedAt i ch = true.

(** An empty trading context. *)
Definition demoContext : ai.TradingContext :=
  {| ai.TradingContext_Timestamp := 1767225600;
     ai.TradingContext_MarketData := None;
     ai.TradingContext_NewsAnalysis := [];
     ai.TradingContext_Historical := None |}.

(** What [MarkRecommendationExecuted] leaves of a legacy row. *)
Definition legacy_frame (old new : database.RecommendationRow) : Prop :=
  let o := database.rec_columns old in
  let n := database.rec_columns new in
  models.Recommendation_ID n = models.Recommendation_ID o /\
  models.Recommendation_Instrument n = models.Recommendation_Instrument o /\
  models.Recommendation_Direction n = models.Recommendation_Direction o /\
  models.Recommendation_Units n = models.Recommendation_Units o /\
  models.Recommendation_Rationale n = models.Recommendation_Rationale o /\
  models.Recommendation_ConfidenceScore n = models.Recommendation_ConfidenceScore o /\
  models.Recommendation_MarketConditions n = models.Recommendation_MarketConditions o /\
  models.Recommendation_CreatedAt n = models.Recommendation_CreatedAt o /\
  database.rec_deleted_at new = database.rec_deleted_at old.

(** What [MarkAIRecommendationExecuted] leaves of an AI row. *)
Definition ai_frame (o n : models.AIRecommendation) : Prop :=
  models.AIRecommendation_ID n = models.AIRecommendation_ID o /\
  models.AIRecommendation_Instrument n = models.AIRecommendation_Instrument o /\
  models.AIRecommendation_Direction n = models.AIRecommendation_Direction o /\
  models.AIRecommendation_Units n = models.AIRecommendation_Units o /\
  models.AIRecommendation_Confidence n = models.AIRecommendation_Confidence o /\
  models.AIRecommendation_Rationale n = models.AIRecommendation_Rationale o /\
  models.AIRecommendation_StopLoss n = models.AIRecommendation_StopLoss o /\
  models.AIRecommendation_TakeProfit n = models.AIRecommendation_TakeProfit o /\
  models.AIRecommendation_TimeToLive n = models.AIRecommendation_TimeToLive o /\
  models.AIRecommendation_MarketContext n = models.AIRecommendation_MarketContext o /\
  models.AIRecommendation_NewsContext n = models.AIRecommendation_NewsContext o /\
  models.AIRecommendation_HistoricalContext n = models.AIRecommendation_HistoricalContext o /\
  models.AIRecommendation_ApprovedAt n = models.AIRecommendation_ApprovedAt o /\
  models.AIRecommendation_CreatedAt n = models.AIRecommendation_CreatedAt o.

(** The effect of the legacy [UPDATE] on one row, whatever its state. *)
Definition legacy_marked (E : Env) (id tradeID : string)
    (old new : database.RecommendationRow) : Prop :=
  (models.Recommendation_ID (database.rec_columns old) <> id -> new = old) /\
  (models.Recommendation_ID (database.rec_columns old) = id ->
   legacy_frame old new /\
   models.Recommendation_Status (database.rec_columns new)
     = models.RecommendationStatusExecuted /\
   models.Recommendation_TradeID (database.rec_columns new) = Some tradeID /\
   models.Recommendation_ExecutedAt (database.rec_columns new) = Some (NOW E)).

(** The effect of the AI [UPDATE] on one row, whatever its state. *)
Definition ai_marked (E : Env) (id tradeID : string)
    (old new : models.AIRecommendation) : Prop :=
  (models.AIRecommendation_ID old <> id -> new = old) /\
  (models.AIRecommendation_ID old = id ->
   ai_frame old new /\
   models.AIRecommendation_Status new = models.AIRecommendationStatusExecuted /\
   models.AIRecommendation_ExecutedTradeID new = Some tradeID /\
   models.AIRecommendation_UpdatedAt new = NOW E).

(** A manual recommendation as [POST /recommendations] receives it, with
    no id. *)
Definition manualBody : recommendation :=
  {| ID := ""; Instrument := "EUR_USD"; Direction := "SELL";
     Units := 1000%float; Rationale := "manual"; CreatedAt := 0 |}.

(** The world after that request on a server with an empty database: the
    insert fails on the timestamp id, and [recs] takes the entry. *)
Definition worldWithManual : World :=
  snd (createRecommendation (demoEnv orderFilled noFaults) (Some manualBody) freshWorld).

(** The world after one generation on a server with an empty database: an
    AI row (pending, with brackets) and its legacy mirror. *)
Definition worldWithAI : World :=
  snd (aiGenerateRecommendation (demoEnv orderFilled noFaults)
         {| Server_ai := Some (main_aiSvc (demoEnv orderFilled noFaults)) |}
         (Some sizingRequest) freshWorld).

(** The trade row [acceptRecommendation] writes for the resolved
    recommendation [r] and the broker's answer. *)
Definition acceptedTrade (E : Env) (p : database.Postgres) (r : recommendation)
    (resp : broker.OrderCreateResponse) : database.TradeRow :=
  {| database.trade_columns :=
       {| models.Trade_ID := gen_random_uuid E (database.uuid_drawn p);
          models.Trade_Instrument := Instrument r;
          models.Trade_Direction := if (0 <=? orderUnits r)%float then "BUY" else "SELL";
          models.Trade_Units := orderUnits r;
          models.Trade_EntryPrice :=
            Some (midOfPrices E (GetPrices E 0 [Instrument r]));
          models.Trade_ExitPrice := None;
          models.Trade_ProfitLoss := None;
          models.Trade_Commission := None;
          models.Trade_Swap := None;
          models.Trade_Status := models.TradeStatusOpen;
          models.Trade_OandaTradeID := Some (broker.OrderCreateTransaction_ID resp);
          models.Trade_CreatedAt := NOW E;
          models.Trade_UpdatedAt := NOW E;
          models.Trade_ClosedAt := None |};
     database.trade_deleted_at := None |}.



Definition updateOf (x : Resolved) : Stmt :=
  if resolved_isAI x then UpdateAIRecommendationExecuted
  else UpdateRecommendationExecuted.





(** A database that fails every insert into [trades]. *)
Definition tradesDown (st : Stmt) : option error :=
  match st with
  | InsertTrade => Some (Error "connection reset by peer")
  | _ => None
  end.

(** A legacy row that was executed and then soft-deleted. *)
Definition staleRow : database.RecommendationRow :=
  {| database.rec_columns :=
       {| models.Recommendation_ID := demoUUID 2;
          models.Recommendation_Instrument := "GBP_USD";
          models.Recommendation_Direction := "SELL";
          models.Recommendation_Units := 500%float;
          models.Recommendation_Rationale := None;
          models.Recommendation_ConfidenceScore := None;
          models.Recommendation_MarketConditions := "";
          models.Recommendation_Status := models.RecommendationStatusExecuted;
          models.Recommendation_TradeID := Some "6001";
          models.Recommendation_CreatedAt := 1767000000;
          models.Recommendation_ExecutedAt := Some 1767000100 |};
     database.rec_deleted_at := Some 1767000200 |}.

(** * The other handlers *)

From Stdlib Require Import Sorting.Sorted.

(** What the handlers below answer: [c.JSON(code, payload)] on success,
    [c.JSON(code, gin.H{"error": ...})] on failure, or the 500 of the
    recovery middleware after a panic. *)
Inductive Answer (A : Type) : Type :=
| Answered (code : Z) (payload : A)
| Refused (code : Z) (err : error)
| Crashed.
Arguments Answered {A} code payload.
Arguments Refused {A} code err.
Arguments Crashed {A}.

(** *** [placeOrder] *)

(** The body of [POST /orders]. *)
Record OrderBody := {
  OrderBody_Instrument : string;
  OrderBody_Units : float;
  OrderBody_StopLoss : option float;
  OrderBody_TakeProfit : option float }.

(** [Server.placeOrder]. [body] is what [c.BindJSON] read, or [None] when
    it failed. *)
Definition placeOrder (E : Env) (body : option OrderBody)
  : M (Answer broker.OrderCreateResponse) :=
  match body with
  | None => ret (Refused 400 (Error "invalid request"))
  | Some req =>
      fun w =>
        let '(placed, w1) :=
          match OrderBody_StopLoss req, OrderBody_TakeProfit req with
          | None, None =>
              PlaceMarketOrder E (OrderBody_Instrument req) (OrderBody_Units req) w
          | sl, tp =>
              PlaceMarketOrderWithBrackets E (OrderBody_Instrument req)
                (OrderBody_Units req) sl tp w
          end in
        match placed with
        | Err err => (Refused 500 err, w1)
        | Panic => (Crashed, w1)
        | Ok resp =>
            match db w1 with
            | None => (Answered 200 resp, w1)
            | Some p =>
                let '(entry, w2) := currentMid E 0 (OrderBody_Instrument req) w1 in
                let tr :=
                  {| models.Trade_ID := "";
                     models.Trade_Instrument := OrderBody_Instrument req;
                     models.Trade_Direction :=
                       if (0 <=? OrderBody_Units req)%float then "BUY" else "SELL";
                     models.Trade_Units := OrderBody_Units req;
                     models.Trade_EntryPrice := Some entry;
                     models.Trade_ExitPrice := None;
                     models.Trade_ProfitLoss := None;
                     models.Trade_Commission := None;
                     models.Trade_Swap := None;
                     models.Trade_Status := models.TradeStatusOpen;
                     models.Trade_OandaTradeID :=
                       Some (broker.OrderCreateTransaction_ID resp);
                     models.Trade_CreatedAt := zeroTime;
                     models.Trade_UpdatedAt := zeroTime;
                     models.Trade_ClosedAt := None |} in
                let '(_, p') := database.CreateTrade E tr p in
                (Answered 200 resp, with_db (Some p') w2)
            end
        end
  end.

(** *** [listRecommendations] and [deleteRecommendation] *)

(** What [GET /recommendations] lists: the rows of the database, or the
    entries of [recs]. *)
Inductive Listing : Type :=
| FromDatabase (rows : list models.Recommendation)
| FromMemory (entries : list recommendation).

(** [Server.listRecommendations]. Go ranges over the map [recs] in an order
    it leaves open; the entries come here in the order of [map_to_list]. *)
Definition listRecommendations (E : Env) : M (Answer Listing) :=
  fun w =>
    match db w with
    | Some p =>
        match database.ListRecommendations E p with
        | Ok recsDB => (Answered 200 (FromDatabase recsDB), w)
        | Err err => (Refused 500 err, w)
        | Panic => (Crashed, w)
        end
    | None => (Answered 200 (FromMemory (map snd (map_to_list (recs w)))), w)
    end.

(** [Server.deleteRecommendation]; the payload is the deleted id. *)
Definition deleteRecommendation (E : Env) (id : string) : M (Answer string) :=
  fun w =>
    match db w with
    | None => (Refused 503 (Error "db not configured"), w)
    | Some p =>
        match database.SoftDeleteRecommendation E id p with
        | (Some err, p') => (Refused 500 err, with_db (Some p') w)
        | (None, p') => (Answered 200 id, with_db (Some p') w)
        end
    end.

(** * The gRPC recommendation service *)

(** [v1.Recommendation] and [v1.Trade], by the fields the service fills. *)
Record v1_Recommendation := {
  v1_Recommendation_Id : string;
  v1_Recommendation_Instrument : string;
  v1_Recommendation_Units : float;
  v1_Recommendation_Rationale : string }.

Record v1_Trade := {
  v1_Trade_Id : string;
  v1_Trade_Instrument : string;
  v1_Trade_Units : float }.

(** [status.Errorf(codes.NotFound, "not found")]. *)
Definition grpcNotFound : error := Error "rpc error: code = NotFound desc = not found".

(** [recServer.AcceptRecommendation]. The server holds the same
    [*Postgres] and broker client kinds as the REST server; a nil database
    is dereferenced by [ListRecommendations] and panics. *)
Definition recServer_AcceptRecommendation (E : Env) (id : string)
  : M (result (v1_Trade * v1_Recommendation)) :=
  fun w =>
    match db w with
    | None => (Panic, w)
    | Some p =>
        match database.ListRecommendations E p with
        | Err err => (Err err, w)
        | Panic => (Panic, w)
        | Ok list =>
            match List.find (fun r => String.eqb (models.Recommendation_ID r) id) list with
            | None => (Err grpcNotFound, w)
            | Some r =>
                let instr := models.Recommendation_Instrument r in
                let units := models.Recommendation_Units r in
                let found := {| v1_Recommendation_Id := models.Recommendation_ID r;
                                v1_Recommendation_Instrument := instr;
                                v1_Recommendation_Units := units;
                                v1_Recommendation_Rationale := "" |} in
                let '(placed, w1) := PlaceMarketOrder E instr units w in
                match placed with
                | Err err => (Err err, w1)
                | Panic => (Panic, w1)
                | Ok ord =>
                    let orderID := broker.OrderCreateTransaction_ID ord in
                    let '(_, p') := database.MarkRecommendationExecuted E id orderID p in
                    (Ok ({| v1_Trade_Id := orderID;
                            v1_Trade_Instrument := instr;
                            v1_Trade_Units := units |}, found),
                     with_db (Some p') w1)
                end
            end
        end
    end.

(** [v1.Direction]: the value the service tests for, or any other. *)
Inductive v1_Direction : Type :=
| Direction_DIRECTION_SELL
| Direction_other (value : Z).

(** [v1.CreateRecommendationRequest]. *)
Record v1_CreateRecommendationRequest := {
  v1_Create_Instrument : string;
  v1_Create_Direction : v1_Direction;
  v1_Create_Units : float;
  v1_Create_Rationale : string }.

(** [recReqToModel]. *)
Definition recReqToModel (req : v1_CreateRecommendationRequest) : models.Recommendation :=
  {| models.Recommendation_ID := "";
     models.Recommendation_Instrument := v1_Create_Instrument req;
     models.Recommendation_Direction :=
       match v1_Create_Direction req with
       | Direction_DIRECTION_SELL => "SELL"
       | Direction_other _ => "BUY"
       end;
     models.Recommendation_Units := v1_Create_Units req;
     models.Recommendation_Rationale :=
       if String.eqb (v1_Create_Rationale req) "" then None
       else Some (v1_Create_Rationale req);
     models.Recommendation_ConfidenceScore := None;
     models.Recommendation_MarketConditions := "";
     models.Recommendation_Status := models.RecommendationStatusPending;
     models.Recommendation_TradeID := None;
     models.Recommendation_CreatedAt := zeroTime;
     models.Recommendation_ExecutedAt := None |}.

(** [recServer.CreateRecommendation]; a nil database is dereferenced and
    panics. *)
Definition recServer_CreateRecommendation (E : Env) (req : v1_CreateRecommendationRequest)
  : M (result v1_Recommendation) :=
  fun w =>
    match db w with
    | None => (Panic, w)
    | Some p =>
        match database.CreateRecommendation E (recReqToModel req) p with
        | (Ok id, p') =>
            (Ok {| v1_Recommendation_Id := id;
                   v1_Recommendation_Instrument := v1_Create_Instrument req;
                   v1_Recommendation_Units := v1_Create_Units req;
                   v1_Recommendation_Rationale := v1_Create_Rationale req |},
             with_db (Some p') w)
        | (Err err, p') => (Err err, with_db (Some p') w)
        | (Panic, p') => (Panic, with_db (Some p') w)
        end
    end.

(** The [v1.Recommendation] the listing makes of a row. *)
Definition v1_of (r : models.Recommendation) : v1_Recommendation :=
  {| v1_Recommendation_Id := models.Recommendation_ID r;
     v1_Recommendation_Instrument := models.Recommendation_Instrument r;
     v1_Recommendation_Units := models.Recommendation_Units r;
     v1_Recommendation_Rationale :=
       match models.Recommendation_Rationale r with
       | Some rationale => rationale
       | None => ""
       end |}.

(** [recServer.ListRecommendations]. *)
Definition recServer_ListRecommendations (E : Env) : M (result (list v1_Recommendation)) :=
  fun w =>
    match db w with
    | None => (Panic, w)
    | Some p =>
        match database.ListRecommendations E p with
        | Ok list => (Ok (map v1_of list), w)
        | Err err => (Err err, w)
        | Panic => (Panic, w)
        end
    end.

(** [structToModelTrade]. *)
Definition structToModelTrade (id instrument : string) (units : float) : models.Trade :=
  {| models.Trade_ID := id;
     models.Trade_Instrument := instrument;
     models.Trade_Direction := if (units <? 0)%float then "SELL" else "BUY";
     models.Trade_Units := units;
     models.Trade_EntryPrice := None;
     models.Trade_ExitPrice := None;
     models.Trade_ProfitLoss := None;
     models.Trade_Commission := None;
     models.Trade_Swap := None;
     models.Trade_Status := models.TradeStatusOpen;
     models.Trade_OandaTradeID := None;
     models.Trade_CreatedAt := zeroTime;
     models.Trade_UpdatedAt := zeroTime;
     models.Trade_ClosedAt := None |}.

(** [tradeServer.PlaceOrder]. *)
Definition tradeServer_PlaceOrder (E : Env) (instrument : string) (units : float)
  : M (result v1_Trade) :=
  fun w =>
    let '(placed, w1) := PlaceMarketOrder E instrument units w in
    match placed with
    | Err err => (Err err, w1)
    | Panic => (Panic, w1)
    | Ok resp =>
        let orderID := broker.OrderCreateTransaction_ID resp in
        let answer := Ok {| v1_Trade_Id := orderID;
                            v1_Trade_Instrument := instrument;
                            v1_Trade_Units := units |} in
        match db w1 with
        | None => (answer, w1)
        | Some p =>
            let '(_, p') :=
              database.CreateTrade E (structToModelTrade orderID instrument units) p in
            (answer, with_db (Some p') w1)
        end
    end.

(** * Notions of the further properties *)

(** The primary keys of the three tables, in row order. *)
Definition recommendation_ids (p : database.Postgres) : list string :=
  map (fun x => models.Recommendation_ID (database.rec_columns x))
    (database.recommendations p).

Definition ai_recommendation_ids (p : database.Postgres) : list string :=
  map models.AIRecommendation_ID (database.ai_recommendations p).

Definition trade_ids (p : database.Postgres) : list string :=
  map (fun x => models.Trade_ID (database.trade_columns x)) (database.trades p).

(** A column of keys after a statement: the old keys are still there, in
    place, and keys that were pairwise distinct still are. *)
Definition keys_evolve (l l' : list string) : Prop :=
  l `prefix_of` l' /\ (NoDup l -> NoDup l').

(** A database after some statements: no row has left a table, no key has
    changed or been duplicated, and the logs have only grown at the end. *)
Definition evolves (p p' : database.Postgres) : Prop :=
  keys_evolve (recommendation_ids p) (recommendation_ids p') /\
  keys_evolve (ai_recommendation_ids p) (ai_recommendation_ids p') /\
  keys_evolve (trade_ids p) (trade_ids p') /\
  database.audit_logs p `prefix_of` database.audit_logs p' /\
  database.ai_usage_logs p `prefix_of` database.ai_usage_logs p' /\
  database.market_analysis_cache p `prefix_of` database.market_analysis_cache p'.

(** The same of a world: a server keeps (or keeps lacking) its database,
    and no key leaves the map [recs]. *)
Definition world_evolves (w w' : World) : Prop :=
  match db w, db w' with
  | Some p, Some p' => evolves p p'
  | None, None => True
  | _, _ => False
  end /\
  dom (recs w) ⊆ dom (recs w').

(** A computation that only lets the world evolve. *)
Definition evolving {A : Type} (m : M A) : Prop :=
  forall w, world_evolves w (snd (m w)).

(** The keys of every table are pairwise distinct. *)
Definition keys_distinct (p : database.Postgres) : Prop :=
  NoDup (recommendation_ids p) /\ NoDup (ai_recommendation_ids p) /\
  NoDup (trade_ids p).

(** The requests the two servers take, over the handlers embedded here. *)
Inductive Request : Type :=
| PostRecommendations (body : option recommendation)
| GetRecommendations
| PostRecommendationsAccept (id : string)
| DeleteRecommendations (id : string)
| PostOrders (body : option OrderBody)
| PostAIRecommend (body : option ai.RecommendationRequest)
| GrpcAcceptRecommendation (id : string)
| GrpcCreateRecommendation (req : v1_CreateRecommendationRequest)
| GrpcListRecommendations
| GrpcPlaceOrder (instrument : string) (units : float).

(** The world after one request, served in the environment [E] it meets,
    by the server [main] wires. *)
Definition serve (E : Env) (r : Request) (w : World) : World :=
  match r with
  | PostRecommendations body => snd (createRecommendation E body w)
  | GetRecommendations => snd (listRecommendations E w)
  | PostRecommendationsAccept id => snd (acceptRecommendation E id w)
  | DeleteRecommendations id => snd (deleteRecommendation E id w)
  | PostOrders body => snd (placeOrder E body w)
  | PostAIRecommend body =>
      snd (aiGenerateRecommendation E {| Server_ai := Some (main_aiSvc E) |} body w)
  | GrpcAcceptRecommendation id => snd (recServer_AcceptRecommendation E id w)
  | GrpcCreateRecommendation req => snd (recServer_CreateRecommendation E req w)
  | GrpcListRecommendations => snd (recServer_ListRecommendations E w)
  | GrpcPlaceOrder instrument units => snd (tradeServer_PlaceOrder E instrument units w)
  end.

(** The world after a sequence of requests, each with its environment. *)
Definition run (requests : list (Env * Request)) (w : World) : World :=
  fold_left (fun w er => serve (fst er) (snd er) w) requests w.

(** Two worlds in which every identifier resolves alike: the in-memory map
    is the same and the two listings find the same. *)
Definition resolves_alike (w w' : World) : Prop :=
  recs w' = recs w /\
  forall E id, findLegacy E id w' = findLegacy E id w /\
               findAI E id w' = findAI E id w.

(** A row that [WHERE deleted_at IS NULL] keeps. *)
Definition live (x : database.RecommendationRow) : bool :=
  match database.rec_deleted_at x with
  | None => true
  | Some _ => false
  end.

(** The live rows of the recommendations table, as the listing reads
    them. *)
Definition live_recommendations (p : database.Postgres) : list models.Recommendation :=
  map database.rec_columns (List.filter live (database.recommendations p)).

(** A list in which no entry is newer than one before it. *)
Definition newest_first {A : Type} (key : A -> Z) (l : list A) : Prop :=
  StronglySorted (fun a b => key b <= key a) l.

(** A database for the examples: the rows one generation leaves (an AI row
    and its legacy mirror) and a legacy row that was executed and then
    soft-deleted. *)
Definition demoPostgres : database.Postgres :=
  match db worldWithAI with
  | Some p => database.with_recommendations (database.recommendations p ++ [staleRow]) p
  | None => emptyPostgres
  end.

(** The server of the examples over that database. *)
Definition demoWorld : World := {| db := Some demoPostgres; recs := ∅; calls := [] |}.

(** The row [UPDATE recommendations SET deleted_at = NOW() WHERE id = $1
    AND deleted_at IS NULL] makes of a row. *)
Definition soft_deleted (E : Env) (id : string) (x : database.RecommendationRow)
  : database.RecommendationRow :=
  if (String.eqb (models.Recommendation_ID (database.rec_columns x)) id && live x)%bool
  then {| database.rec_columns := database.rec_columns x;
          database.rec_deleted_at := Some (NOW E) |}
  else x.

(** The audit row of a soft delete. *)
Definition deleteAudit (E : Env) (id : string) : database.AuditLog :=
  {| database.audit_entity := "recommendations";
     database.audit_entity_id := id;
     database.audit_action := "DELETE";
     database.audit_details := [];
     database.audit_created_at := NOW E |}.

(** What [createRecommendation] makes of the body before it stores it: a
    timestamp for a missing id, and the server's clock. *)
Definition stamped (E : Env) (body : recommendation) : recommendation :=
  set_ID_CreatedAt (if String.eqb (ID body) "" then time_Now_Format E else ID body)
    (time_Now E) body.

(** A recommendation found in the legacy listing or in [recs]: no
    brackets. *)
Definition plain (r : recommendation) : Resolved :=
  {| resolved_r := r; resolved_isAI := false; resolved_sl := None; resolved_tp := None |}.

(** The payload [placeOrder] posts for a request: a level that is absent
    or not positive is left out. *)
Definition orderPayload (E : Env) (req : OrderBody) : broker.MarketOrderRequest :=
  {| broker.Order_Type := "MARKET";
     broker.Order_Instrument := OrderBody_Instrument req;
     broker.Order_Units := OrderBody_Units req;
     broker.Order_TimeInForce := "FOK";
     broker.Order_PositionFill := "DEFAULT";
     broker.Order_TakeProfitOnFill := bracketPrice E (OrderBody_TakeProfit req);
     broker.Order_StopLossOnFill := bracketPrice E (OrderBody_StopLoss req) |}.

(** The trade row [placeOrder] writes for a filled order. *)
Definition orderTrade (E : Env) (p : database.Postgres) (req : OrderBody)
    (resp : broker.OrderCreateResponse) : database.TradeRow :=
  {| database.trade_columns :=
       {| models.Trade_ID := gen_random_uuid E (database.uuid_drawn p);
          models.Trade_Instrument := OrderBody_Instrument req;
          models.Trade_Direction :=
            if (0 <=? OrderBody_Units req)%float then "BUY" else "SELL";
          models.Trade_Units := OrderBody_Units req;
          models.Trade_EntryPrice :=
            Some (midOfPrices E (GetPrices E 0 [OrderBody_Instrument req]));
          models.Trade_ExitPrice := None;
          models.Trade_ProfitLoss := None;
          models.Trade_Commission := None;
          models.Trade_Swap := None;
          models.Trade_Status := models.TradeStatusOpen;
          models.Trade_OandaTradeID := Some (broker.OrderCreateTransaction_ID resp);
          models.Trade_CreatedAt := NOW E;
          models.Trade_UpdatedAt := NOW E;
          models.Trade_ClosedAt := None |};
     database.trade_deleted_at := None |}.

(** The audit row [CreateTrade] writes: keyed by the identifier the caller
    passed, not by the one the database drew. *)
Definition tradeAudit (E : Env) (supplied instrument direction : string) (units : float)
  : database.AuditLog :=
  {| database.audit_entity := "trades";
     database.audit_entity_id := supplied;
     database.audit_action := "CREATE";
     database.audit_details :=
       [("instrument", database.DString instrument);
        ("direction", database.DString direction);
        ("units", database.DFloat units)];
     database.audit_created_at := NOW E |}.

(** A request of the examples: sell 2000 EUR_USD, with a stop loss and a
    take profit that is not positive. *)
Definition demoOrder : OrderBody :=
  {| OrderBody_Instrument := "EUR_USD";
     OrderBody_Units := (-2000)%float;
     OrderBody_StopLoss := Some 1.105%float;
     OrderBody_TakeProfit := Some 0%float |}.

(** The payload of [PlaceMarketOrder]: a market order without brackets. *)
Definition plainOrder (instrument : string) (units : float) : broker.MarketOrderRequest :=
  {| broker.Order_Type := "MARKET";
     broker.Order_Instrument := instrument;
     broker.Order_Units := units;
     broker.Order_TimeInForce := "FOK";
     broker.Order_PositionFill := "DEFAULT";
     broker.Order_TakeProfitOnFill := None;
     broker.Order_StopLossOnFill := None |}.

(** The world after some more collaborator calls, and nothing else. *)
Definition called (more : list Event) (w : World) : World :=
  {| db := db w; recs := recs w; calls := calls w ++ more |}.

(** The server [main] builds: its AI service over the fetchers of [main]. *)
Definition mainServer (E : Env) : Server := {| Server_ai := Some (main_aiSvc E) |}.

(** The query the news fetcher of [main] sends for the requested
    instruments; none for an empty list. *)
Definition newsFor (E : Env) (instruments : list string)
  : option (result (list ai.NewsItem)) :=
  match instruments with
  | [] => None
  | i0 :: _ => Some (SearchNews E (i0 ++ " forex") 5)
  end.

(** The context of a request is gathered: the market fetch and the news
    search both succeed. *)
Definition contextGathered (E : Env) (req : ai.RecommendationRequest) : Prop :=
  (exists market, marketFetcher E (ai.Request_Instruments req) = Ok market) /\
  (exists news, newsFor E (ai.Request_Instruments req) = Some (Ok news)).

(** What [aiGenerateRecommendation] does with the draft of the service:
    brackets, sizing, persistence, the usage log and the analysis cache,
    and the answer. *)
Definition afterDraft (E : Env) (req : ai.RecommendationRequest) (rec : ai.Recommendation)
  : M Response :=
  (mid <- enrichPrice E (ai.Recommendation_Instrument rec) ;;
   let rec := brackets req mid rec in
   rec <- positionSizing E req rec ;;
   stored <- persist E rec ;;
   let '(rec, persistedID) := stored in
   usageLog E req persistedID ;;;
   analysisCache E req ;;;
   ret (JSON 200 (H_recommendation rec)))%go.

(** The calls that post an order, and the calls that read the account. *)
Definition isPostOrder (e : Event) : bool :=
  match e with
  | CallPostOrder _ => true
  | _ => false
  end.

Definition isGetAccount (e : Event) : bool :=
  match e with
  | CallGetAccount => true
  | _ => false
  end.

(** A computation that only adds calls to the log, at most [n] of them of
    the kind [kind]. *)
Definition emits (kind : Event -> bool) (n : nat) {A : Type} (m : M A) : Prop :=
  forall w, exists more,
    calls (snd (m w)) = (calls w ++ more)%list /\
    (length (List.filter kind more) <= n)%nat.

(** The requests whose handler submits an order. *)
Definition places (r : Request) : bool :=
  match r with
  | PostRecommendationsAccept _ | PostOrders _ | GrpcAcceptRecommendation _
  | GrpcPlaceOrder _ _ => true
  | _ => false
  end.

(** The price [aiGenerateRecommendation] finds for an instrument: the mid
    of the quotes or, when that is zero, the close of the last M5 candle. *)
Definition priceOf (E : Env) (instrument : string) : float :=
  let mid := midOfPrices E (GetPrices E 0 [instrument]) in
  if (mid =? 0)%float then
    match GetCandles E instrument "M5" 1 with
    | Ok (Some candles) =>
        match broker.CandlesResponse_Candles candles with
        | [] => mid
        | c0 :: cs => parseDecimal E (broker.OHLC_Close (broker.Candle_Mid (List.last cs c0)))
        end
    | _ => mid
    end
  else mid.

(** A broker that has no quote and no candle for any instrument. *)
Definition noPrices (E : Env) : Env :=
  {| parseDecimal := parseDecimal E;
     Sprintf_5f := Sprintf_5f E;
     time_Now := time_Now E;
     NOW := NOW E;
     time_Now_Format := time_Now_Format E;
     ANTHROPIC_API_KEY := ANTHROPIC_API_KEY E;
     claudePayload := claudePayload E;
     json_Marshal_market := json_Marshal_market E;
     json_Marshal_news := json_Marshal_news E;
     json_Marshal_summary := json_Marshal_summary E;
     elapsed_Milliseconds := elapsed_Milliseconds E;
     marketFetcher := marketFetcher E;
     SearchNews := SearchNews E;
     GetPrices := fun _ _ => Err (Error "no prices");
     GetCandles := fun _ _ _ => Err (Error "no candles");
     GetAccount := GetAccount E;
     postOrder := postOrder E;
     json_Unmarshal_order := json_Unmarshal_order E;
     db_err := db_err E;
     gen_random_uuid := gen_random_uuid E;
     uuid_in := uuid_in E |}.

(** A request that fixes the units and asks for risk sizing as well, and
    one that asks for risk sizing without a stop distance. *)
Definition unitsRequest : ai.RecommendationRequest :=
  {| ai.Request_Instruments := ["EUR_USD"];
     ai.Request_RiskLevel := "medium";
     ai.Request_TimeHorizon := "intraday";
     ai.Request_MaxRisk := 0%float;
     ai.Request_Context := "";
     ai.Request_Units := 5000;
     ai.Request_RiskPercent := 0.01%float;
     ai.Request_StopLossPips := 25%float |}.

Definition riskOnlyRequest : ai.RecommendationRequest :=
  {| ai.Request_Instruments := ["EUR_USD"];
     ai.Request_RiskLevel := "medium";
     ai.Request_TimeHorizon := "intraday";
     ai.Request_MaxRisk := 0%float;
     ai.Request_Context := "";
     ai.Request_Units := 0;
     ai.Request_RiskPercent := 0.01%float;
     ai.Request_StopLossPips := 0%float |}.

(** A computation that changes nothing but the log of calls. *)
Definition calls_only {A : Type} (m : M A) : Prop :=
  forall w, db (snd (m w)) = db w /\ recs (snd (m w)) = recs w.


(** The payload [acceptRecommendation] posts for a resolved
    recommendation: its instrument, its units negated for a SELL, and the
    levels of an AI recommendation that are positive, printed with five
    decimals. *)
Definition acceptPayload (E : Env) (x : Resolved) : broker.MarketOrderRequest :=
  {| broker.Order_Type := "MARKET";
     broker.Order_Instrument := Instrument (resolved_r x);
     broker.Order_Units := orderUnits (resolved_r x);
     broker.Order_TimeInForce := "FOK";
     broker.Order_PositionFill := "DEFAULT";
     broker.Order_TakeProfitOnFill := bracketPrice E (resolved_tp x);
     broker.Order_StopLossOnFill := bracketPrice E (resolved_sl x) |}.

(** A database that fails the update of a legacy recommendation. *)
Definition updateDown (st : Stmt) : option error :=
  match st with
  | UpdateRecommendationExecuted => Some (Error "connection reset by peer")
  | _ => None
  end.

(** A database that fails every insert of an AI recommendation. *)
Definition aiInsertDown (st : Stmt) : option error :=
  match st with
  | InsertAIRecommendation => Some (Error "connection reset by peer")
  | _ => None
  end.

(** A broker whose order identifiers are uuids, as the trades table wants
    its keys. *)
Definition uuidOrders (E : Env) : Env :=
  {| parseDecimal := parseDecimal E;
     Sprintf_5f := Sprintf_5f E;
     time_Now := time_Now E;
     NOW := NOW E;
     time_Now_Format := time_Now_Format E;
     ANTHROPIC_API_KEY := ANTHROPIC_API_KEY E;
     claudePayload := claudePayload E;
     json_Marshal_market := json_Marshal_market E;
     json_Marshal_news := json_Marshal_news E;
     json_Marshal_summary := json_Marshal_summary E;
     elapsed_Milliseconds := elapsed_Milliseconds E;
     marketFetcher := marketFetcher E;
     SearchNews := SearchNews E;
     GetPrices := GetPrices E;
     GetCandles := GetCandles E;
     GetAccount := GetAccount E;
     postOrder := postOrder E;
     json_Unmarshal_order :=
       fun _ => Ok {| broker.OrderCreateTransaction_ID := demoUUID 3 |};
     db_err := db_err E;
     gen_random_uuid := gen_random_uuid E;
     uuid_in := uuid_in E |}.


(** * The migration runner, [cmd/migrate] *)

Module migrate.

(** [os.DirEntry], by what the runner reads of it. *)
Record DirEntry := {
  Name : string;
  IsDir : bool }.

(** The database the runner works on: the file names in
    [schema_migrations], and the scripts executed so far, oldest first. *)
Record Database := {
  schema_migrations : list string;
  executed : list string }.

(** What the runner meets: its flags, the directory listing, and what
    fails, per file name. *)
Record Env := {
  dsn : string;
  sql_Open : option error;
  create_schema_migrations : option error;
  ReadDir : result (list DirEntry);
  select_exists : string -> option error;
  ReadFile : string -> option error;
  exec_script : string -> option error;
  insert_schema_migrations : string -> option error }.

(** How a run ends: [main] returns, or [log.Fatal] exits. *)
Inductive Exit : Type :=
| Returned
| Fatal (err : error).

(** A path separator among the bytes of [path]. *)
Fixpoint hasSeparator (path : string) : bool :=
  match path with
  | EmptyString => false
  | String c rest => (Ascii.eqb c "/" || hasSeparator rest)%bool
  end.

(** [filepath.Ext]: the suffix of the last element of [path] from its last
    dot on, or the empty text. *)
Fixpoint Ext (path : string) : string :=
  match path with
  | EmptyString => EmptyString
  | String c rest =>
      if hasSeparator rest then Ext rest
      else match Ext rest with
           | EmptyString => if Ascii.eqb c "." then path else EmptyString
           | ext => ext
           end
  end.

(** The entries the loop does not skip at once. *)
Definition isScript (e : DirEntry) : bool :=
  negb (IsDir e || negb (String.eqb (Ext (Name e)) ".sql"))%bool.

(** [SELECT EXISTS(SELECT 1 FROM schema_migrations WHERE filename=$1)]. *)
Definition recorded (name : string) (db : Database) : bool :=
  existsb (String.eqb name) (schema_migrations db).

(** The loop of [main] over the entries; returns how it ended, the
    database, and the names printed as applied. *)
Fixpoint apply_entries (E : Env) (entries : list DirEntry) (db : Database)
  : Exit * Database * list string :=
  match entries with
  | [] => (Returned, db, [])
  | e :: rest =>
      if negb (isScript e) then apply_entries E rest db
      else
        match select_exists E (Name e) with
        | Some err => (Fatal err, db, [])
        | None =>
            if recorded (Name e) db then apply_entries E rest db
            else
              match ReadFile E (Name e) with
              | Some err => (Fatal err, db, [])
              | None =>
                  match exec_script E (Name e) with
                  | Some err => (Fatal (Error ("failed applying " ++ Name e)), db, [])
                  | None =>
                      let db1 := {| schema_migrations := schema_migrations db;
                                    executed := executed db ++ [Name e] |} in
                      match insert_schema_migrations E (Name e) with
                      | Some err => (Fatal err, db1, [])
                      | None =>
                          let db2 :=
                            {| schema_migrations := schema_migrations db1 ++ [Name e];
                               executed := executed db1 |} in
                          let '(exit, db3, printed) := apply_entries E rest db2 in
                          (exit, db3, Name e :: printed)
                      end
                  end
              end
        end
  end.

(** [main]. *)
Definition main (E : Env) (db : Database) : Exit * Database * list string :=
  if String.eqb (dsn E) "" then
    (Fatal (Error "DATABASE_URL or --dsn is required"), db, [])
  else
    match sql_Open E with
    | Some err => (Fatal err, db, [])
    | None =>
        match create_schema_migrations E with
        | Some err => (Fatal err, db, [])
        | None =>
            match ReadDir E with
            | Ok entries => apply_entries E entries db
            | Err err => (Fatal err, db, [])
            | Panic => (Fatal (Error "panic"), db, [])
            end
        end
    end.

(** The scripts a run finds to apply: the entries that are scripts and are
    not recorded, by name, in the order of the directory. *)
Definition pending (entries : list DirEntry) (db : Database) : list string :=
  map Name (List.filter (fun e => (isScript e && negb (recorded (Name e) db))%bool)
              entries).

(** A run that meets no failure, over the entries [entries]. *)
Definition healthy (E : Env) (entries : list DirEntry) : Prop :=
  dsn E <> "" /\ sql_Open E = None /\ create_schema_migrations E = None /\
  ReadDir E = Ok entries /\
  forall name, select_exists E name = None /\ ReadFile E name = None /\
               exec_script E name = None /\ insert_schema_migrations E name = None.

(** The directory of the repository, and a run that meets no failure. *)
Definition demoEntries : list DirEntry :=
  [{| Name := "0001_init.sql"; IsDir := false |};
   {| Name := "0002_ai.sql"; IsDir := false |};
   {| Name := "0003_audit_logs.sql"; IsDir := false |};
   {| Name := "README.md"; IsDir := false |};
   {| Name := "archive.sql"; IsDir := true |}].

Definition demoEnv : Env :=
  {| dsn := "postgres://localhost/trader";
     sql_Open := None;
     create_schema_migrations := None;
     ReadDir := Ok demoEntries;
     select_exists := fun _ => None;
     ReadFile := fun _ => None;
     exec_script := fun _ => None;
     insert_schema_migrations := fun _ => None |}.

(** The same run with a bookkeeping insert that fails for the second
    script. *)
Definition demoEnvUnrecorded : Env :=
  {| dsn := "postgres://localhost/trader";
     sql_Open := None;
     create_schema_migrations := None;
     ReadDir := Ok demoEntries;
     select_exists := fun _ => None;
     ReadFile := fun _ => None;
     exec_script := fun _ => None;
     insert_schema_migrations :=
       fun name => if String.eqb name "0002_ai.sql"
                   then Some (Error "connection reset by peer") else None |}.

Definition emptyDatabase : Database := {| schema_migrations := []; executed := [] |}.

End migrate.

(** * Properties *)

(** ** Brackets (risk and bracket calculator) *)

Lemma brackets_priced req mid rec :
  (0 <? mid)%float = true ->
  brackets req mid rec =
    if String.eqb (strings.ToUpper (ai.Recommendation_Direction rec)) "BUY"
    then set_brackets
           (Some (mid - distPips (ai.Request_RiskLevel req)
                        * pip (ai.Recommendation_Instrument rec))%float)
           (Some (mid + 2 * distPips (ai.Request_RiskLevel req)
                        * pip (ai.Recommendation_Instrument rec))%float) rec
    else set_brackets
           (Some (mid + distPips (ai.Request_RiskLevel req)
                        * pip (ai.Recommendation_Instrument rec))%float)
           (Some (mid - 2 * distPips (ai.Request_RiskLevel req)
                        * pip (ai.Recommendation_Instrument rec))%float) rec.
Proof. intros Hmid. unfold brackets. rewrite Hmid. reflexivity. Qed.

(** C3. With a positive current price [mid], the stop distance
    [d = distPips] of the request's risk level and the instrument's [pip]:
    a BUY draft gets stop-loss [mid - d*pip] and take-profit
    [mid + 2*d*pip]; a SELL draft gets stop-loss [mid + d*pip] and
    take-profit [mid - 2*d*pip]. A BUY of EUR_USD at 1.1000 with 20 pips
    yields 1.0980 and 1.1040; a SELL of USD_JPY at 150.00 with 10 pips
    yields 150.10 and 149.80 (each the float64 nearest to the decimal). *)
Theorem brackets_by_direction :
  (forall req mid rec,
      (0 <? mid)%float = true ->
      let d := distPips (ai.Request_RiskLevel req) in
      let pip := pip (ai.Recommendation_Instrument rec) in
      (strings.ToUpper (ai.Recommendation_Direction rec) = "BUY" ->
       ai.Recommendation_StopLoss (brackets req mid rec) = Some (mid - d * pip)%float /\
       ai.Recommendation_TakeProfit (brackets req mid rec) = Some (mid + 2 * d * pip)%float)
      /\
      (strings.ToUpper (ai.Recommendation_Direction rec) = "SELL" ->
       ai.Recommendation_StopLoss (brackets req mid rec) = Some (mid + d * pip)%float /\
       ai.Recommendation_TakeProfit (brackets req mid rec) = Some (mid - 2 * d * pip)%float))
  /\
  (let priced := brackets (requestFor ["EUR_USD"] "medium") 1.1000%float
                   (draftFor "EUR_USD" "BUY") in
   distPips "medium" = 20%float /\ pip "EUR_USD" = 0.0001%float /\
   ai.Recommendation_StopLoss priced = Some 1.0980%float /\
   ai.Recommendation_TakeProfit priced = Some 1.1040%float)
  /\
  (let priced := brackets (requestFor ["USD_JPY"] "high") 150.00%float
                   (draftFor "USD_JPY" "SELL") in
   distPips "high" = 10%float /\ pip "USD_JPY" = 0.01%float /\
   ai.Recommendation_StopLoss priced = Some 150.10%float /\
   ai.Recommendation_TakeProfit priced = Some 149.80%float).
Proof.
  split; [| split].
  - intros req mid rec Hmid d p. split; intros Hdir.
    + rewrite (brackets_priced _ _ _ Hmid), Hdir. split; reflexivity.
    + rewrite (brackets_priced _ _ _ Hmid), Hdir. split; reflexivity.
  - vm_compute. repeat split; reflexivity.
  - vm_compute. repeat split; reflexivity.
Qed.

Lemma brackets_by_direction_witness :
  ai.Recommendation_StopLoss
    (brackets (requestFor ["GBP_USD"] "low") 1.25%float (draftFor "GBP_USD" "buy"))
  = Some (1.25 - 30 * 0.0001)%float.
Proof.
  exact (proj1 (proj1 (proj1 brackets_by_direction
                         (requestFor ["GBP_USD"] "low") 1.25%float
                         (draftFor "GBP_USD" "buy") eq_refl) eq_refl)).
Defined.

(** ** Pip unit *)

Lemma Contains_cons c s sub :
  strings.Contains s sub = true -> strings.Contains (String c s) sub = true.
Proof.
  intros H. cbn [strings.Contains].
  destruct (String.prefix sub (String c s)); [reflexivity | exact H].
Qed.

Lemma quoteCurrency_Contains instrument :
  quoteCurrency instrument = "JPY" -> strings.Contains instrument "JPY" = true.
Proof.
  induction instrument as [| c rest IH]; cbn [quoteCurrency].
  - discriminate.
  - destruct (Ascii.eqb c "_").
    + intros ->. apply Contains_cons. reflexivity.
    + intros H. apply Contains_cons, IH, H.
Qed.

(** C8, as the code has it. The pip is 0.01 exactly when the instrument's
    name contains the text JPY, and 0.0001 otherwise; so it is 0.01 for
    every instrument quoted in JPY, and it is a function of the name
    alone. *)
Theorem pip_by_name (instrument : string) :
  (pip instrument = 0.01%float <-> strings.Contains instrument "JPY" = true) /\
  (pip instrument = 0.0001%float <-> strings.Contains instrument "JPY" = false) /\
  (quoteCurrency instrument = "JPY" -> pip instrument = 0.01%float).
Proof.
  unfold pip. split; [| split].
  - destruct (strings.Contains instrument "JPY"); split; intros H;
      try reflexivity; discriminate H.
  - destruct (strings.Contains instrument "JPY"); split; intros H;
      try reflexivity; discriminate H.
  - intros H. rewrite (quoteCurrency_Contains _ H). reflexivity.
Qed.

(** C8 as stated fails: JPY_USD is quoted in USD and still gets the pip
    0.01, because its name contains JPY. *)
Lemma pip_quote_currency_counterexample :
  ~ (forall instrument : string,
        pip instrument = 0.01%float <-> quoteCurrency instrument = "JPY").
Proof.
  intros H. destruct (H "JPY_USD") as [H1 _].
  specialize (H1 eq_refl). vm_compute in H1. discriminate H1.
Qed.

(** ** Position sizing *)

Lemma digits2_pos_lower (m : positive) :
  2 ^ (Z.pos (digits2_pos m) - 1) <= Z.pos m.
Proof.
  induction m as [m IH | m IH |]; cbn [digits2_pos].
  - rewrite Pos2Z.inj_succ.
    replace (Z.succ (Z.pos (digits2_pos m)) - 1)
      with (Z.succ (Z.pos (digits2_pos m) - 1)) by lia.
    rewrite Z.pow_succ_r by lia. lia.
  - rewrite Pos2Z.inj_succ.
    replace (Z.succ (Z.pos (digits2_pos m)) - 1)
      with (Z.succ (Z.pos (digits2_pos m) - 1)) by lia.
    rewrite Z.pow_succ_r by lia. lia.
  - simpl. lia.
Qed.

Lemma Prim2SF_one : Prim2SF 1%float = S754_finite false 4503599627370496 (-52).
Proof. reflexivity. Qed.

(** A float that is not below 1 and has a rounding rounds to 1 or more. *)
Lemma Round_not_below_1 (q : float) (z : Z) :
  (q <? 1)%float = false -> math.Round q = Some z -> 1 <= z.
Proof.
  intros Hlt HR. rewrite ltb_spec, Prim2SF_one in Hlt.
  unfold math.Round in HR. pose proof (Prim2SF_valid q) as Hv.
  destruct (Prim2SF q) as [s | s | | s m e]; try discriminate HR.
  - destruct s; discriminate Hlt.
  - injection HR as <-.
    unfold SFltb, SFcompare in Hlt.
    destruct s; [discriminate Hlt |].
    unfold valid_binary, bounded, canonical_mantissa, fexp, emin in Hv.
    apply andb_prop in Hv as [Hc _].
    apply Z.eqb_eq in Hc. unfold prec, emax in Hc.
    assert (He : -52 <= e).
    { destruct (Z.compare_spec e (-52)) as [He | He | He];
        try discriminate Hlt; lia. }
    assert (Hm : 2 ^ 52 <= Z.pos m).
    { pose proof (digits2_pos_lower m) as Hd.
      replace (Z.pos (digits2_pos m)) with 53 in Hd by lia. exact Hd. }
    unfold math.roundMagnitude.
    destruct (Z.leb_spec 0 e) as [H0 | H0].
    + assert (1 <= 2 ^ e)
        by (apply Z.pow_le_mono_r with (b := 0) (a := 2); lia).
      nia.
    + assert (Hp : 0 < 2 ^ (- e)) by (apply Z.pow_pos_nonneg; lia).
      assert (Hq : 2 ^ (- e) <= 2 ^ 52) by (apply Z.pow_le_mono_r; lia).
      assert (Hr : 0 <= 2 ^ (- e - 1)) by (apply Z.pow_nonneg; lia).
      apply Z.div_le_lower_bound; lia.
Qed.

Lemma riskUnits_eq nav riskPercent slPips :
  riskUnits nav riskPercent slPips =
    int64 (math.Round (atLeastOne (nav * riskPercent / (slPips * pipValuePerUnit))%float)).
Proof. reflexivity. Qed.

Lemma Round_atLeastOne (q : float) (z : Z) :
  math.Round (atLeastOne q) = Some z -> 1 <= z.
Proof.
  unfold atLeastOne. destruct (q <? 1)%float eqn:Hq.
  - intros H. vm_compute in H. injection H as <-. lia.
  - apply Round_not_below_1, Hq.
Qed.

Lemma int64_in_range (z : Z) : 1 <= z -> z < 2 ^ 63 -> int64 (Some z) = z.
Proof.
  intros H1 H2. unfold int64.
  destruct (Z.leb_spec (- 2 ^ 63) z); [| lia].
  destruct (Z.ltb_spec z (2 ^ 63)); [reflexivity | lia].
Qed.

Lemma positionSizing_risk_based E req rec w account :
  ai.Request_Units req <= 0 ->
  (0 <? ai.Request_RiskPercent req)%float = true ->
  ((0 <? ai.Request_StopLossPips req)%float = true
   \/ ai.Recommendation_StopLoss rec <> None) ->
  (0 <? fst (stopDistance E req rec w))%float = true ->
  GetAccount E = Ok account ->
  fst (positionSizing E req rec w) =
    set_Units (riskUnits (broker.Account_NAV account) (ai.Request_RiskPercent req)
                 (fst (stopDistance E req rec w))) rec.
Proof.
  intros Hunits Hrp Hsl Hd Hacc. unfold positionSizing.
  destruct (Z.ltb_spec 0 (ai.Request_Units req)) as [Hlt | _]; [lia |].
  rewrite Hrp.
  assert (Hcond : (true && (0 <? ai.Request_StopLossPips req)%float
                   || true && match ai.Recommendation_StopLoss rec with
                              | Some _ => true
                              | None => false
                              end)%bool = true).
  { destruct Hsl as [Hs | Hs].
    - rewrite Hs. reflexivity.
    - destruct (ai.Recommendation_StopLoss rec); [| congruence].
      destruct (0 <? ai.Request_StopLossPips req)%float; reflexivity. }
  rewrite Hcond. unfold bind.
  destruct (stopDistance E req rec w) as [d w1] eqn:Hsd. cbn [fst] in Hd |- *.
  unfold call. rewrite Hacc, Hd. reflexivity.
Qed.

Lemma stopDistance_explicit E req rec w :
  (0 <? ai.Request_StopLossPips req)%float = true ->
  fst (stopDistance E req rec w) = ai.Request_StopLossPips req.
Proof. intros H. unfold stopDistance. rewrite H. reflexivity. Qed.

(** C2, as the code has it. For a request without a positive unit count,
    with a positive risk fraction and a stop distance [d] that resolves to
    a positive number of pips (the request's own, or else the one derived
    from the stop-loss), and an account the broker reports: the units are
    [int64(round(max(1, NAV * riskFraction / (d * pipValuePerUnit))))] in
    float64 arithmetic with [pipValuePerUnit = 10/100000]; whenever that
    rounding is a number below 2^63 the units are that number and at least
    1. For NAV 10000, risk 0.01 and 25 pips the units are 40000. *)
Theorem risk_based_units :
  (forall E req rec w account,
      ai.Request_Units req <= 0 ->
      (0 <? ai.Request_RiskPercent req)%float = true ->
      ((0 <? ai.Request_StopLossPips req)%float = true
       \/ ai.Recommendation_StopLoss rec <> None) ->
      (0 <? fst (stopDistance E req rec w))%float = true ->
      GetAccount E = Ok account ->
      let d := fst (stopDistance E req rec w) in
      let q := (broker.Account_NAV account * ai.Request_RiskPercent req
                / (d * pipValuePerUnit))%float in
      let units := ai.Recommendation_Units (fst (positionSizing E req rec w)) in
      ((0 <? ai.Request_StopLossPips req)%float = true ->
       d = ai.Request_StopLossPips req) /\
      units = int64 (math.Round (atLeastOne q)) /\
      (forall z, math.Round (atLeastOne q) = Some z -> z < 2 ^ 63 ->
                 units = z /\ 1 <= units))
  /\
  pipValuePerUnit = 0.0001%float
  /\
  ai.Recommendation_Units
    (fst (positionSizing (demoEnv orderFilled noFaults) sizingRequest
            (draftFor "EUR_USD" "BUY") freshWorld)) = 40000.
Proof.
  split; [| split].
  - intros E req rec w account Hunits Hrp Hsl Hd Hacc d q units.
    split; [| split].
    + intros H. apply stopDistance_explicit, H.
    + unfold units.
      rewrite (positionSizing_risk_based E req rec w account Hunits Hrp Hsl Hd Hacc).
      apply riskUnits_eq.
    + intros z Hz Hlt. unfold units.
      rewrite (positionSizing_risk_based E req rec w account Hunits Hrp Hsl Hd Hacc).
      cbn [set_Units ai.Recommendation_Units]. rewrite riskUnits_eq.
      fold d. fold q. rewrite Hz.
      pose proof (Round_atLeastOne q z Hz) as H1.
      rewrite (int64_in_range z H1 Hlt). split; [reflexivity | exact H1].
  - vm_compute. reflexivity.
  - vm_compute. reflexivity.
Qed.

Lemma risk_based_units_witness :
  ai.Recommendation_Units
    (fst (positionSizing (demoEnv orderFilled noFaults) sizingRequest
            (draftFor "EUR_USD" "BUY") freshWorld))
  = int64 (math.Round (atLeastOne (10000 * 0.01 / (25 * pipValuePerUnit))%float)).
Proof.
  exact (proj1 (proj2 (proj1 risk_based_units
                         (demoEnv orderFilled noFaults) sizingRequest
                         (draftFor "EUR_USD" "BUY") freshWorld demoAccount
                         ltac:(vm_compute; discriminate)
                         eq_refl (or_introl eq_refl) eq_refl eq_refl))).
Defined.

(** C2 as stated fails on its own example: equity 10000, risk 0.01 and 25
    pips give 40000 units, not 4000. *)
Lemma risk_based_units_counterexample :
  ai.Recommendation_Units
    (fst (positionSizing (demoEnv orderFilled noFaults) sizingRequest
            (draftFor "EUR_USD" "BUY") freshWorld)) <> 4000.
Proof. vm_compute. discriminate. Qed.

(** ** Stored identifiers *)

Lemma isUUIDLike_from_step i ch s :
  isUUIDLike_from i (String ch s) = (shapedAt i ch && isUUIDLike_from (S i) s)%bool.
Proof.
  unfold shapedAt.
  do 24 (destruct i as [| i];
         [cbn; destruct (Ascii.eqb ch "-"), (isHexDigit ch); reflexivity |]).
  cbn. destruct (isHexDigit ch); reflexivity.
Qed.

Lemma isUUIDLike_from_spec s : forall i,
  isUUIDLike_from i s = true <->
  (forall j ch, String.get j s = Some ch -> shapedAt (i + j) ch = true).
Proof.
  induction s as [| c s IH]; intros i.
  - split; [intros _ j ch H; destruct j; discriminate H | reflexivity].
  - rewrite isUUIDLike_from_step, andb_true_iff, IH. split.
    + intros [H0 Hs] j ch Hj. destruct j as [| j].
      * injection Hj as <-. rewrite Nat.add_0_r. exact H0.
      * rewrite Nat.add_succ_r. apply (Hs j ch Hj).
    + intros H. split.
      * rewrite <- (Nat.add_0_r i). apply H. reflexivity.
      * intros j ch Hj. replace (S i + j)%nat with (i + S j)%nat by lia.
        apply H. exact Hj.
Qed.

(** [isUUIDLike] decides the shape. *)
Lemma isUUIDLike_spec s : isUUIDLike s = true <-> UUIDShaped s.
Proof.
  unfold isUUIDLike, UUIDShaped.
  destruct (Nat.eqb_spec (String.length s) 36) as [Hl | Hl]; cbn [negb].
  - rewrite isUUIDLike_from_spec. split.
    + intros H. split; [exact Hl | exact H].
    + intros [_ H]. exact H.
  - split; [discriminate | intros [H _]; contradiction].
Qed.

Lemma existsb_false_not_In {A} (f : A -> string) (id : string) (l : list A) :
  existsb (fun x => String.eqb (f x) id) l = false -> ~ In id (map f l).
Proof.
  induction l as [| a l IH]; cbn [existsb map In]; [tauto |].
  rewrite orb_false_iff. intros [Ha Hl] [H | H].
  - rewrite H, String.eqb_refl in Ha. discriminate Ha.
  - exact (IH Hl H).
Qed.

Lemma CreateAIRecommendation_Ok E r p id p1 :
  database.CreateAIRecommendation E r p = (Ok id, p1) ->
  fst (database.coalesce_id E (models.AIRecommendation_ID r) p) = Ok id /\
  ~ In id (map models.AIRecommendation_ID (database.ai_recommendations p)) /\
  database.ai_recommendations p1 =
    (database.ai_recommendations p ++ [database.set_AIRecommendation_ID_times id (NOW E) r])%list.
Proof.
  unfold database.CreateAIRecommendation.
  destruct (db_err E InsertAIRecommendation); [discriminate |].
  destruct (database.coalesce_id E (models.AIRecommendation_ID r) p) as [[id' | e |] p0] eqn:Hc;
    try discriminate.
  destruct (existsb _ (database.ai_recommendations p0)) eqn:Hex; [discriminate |].
  assert (Hp0 : database.ai_recommendations p0 = database.ai_recommendations p).
  { unfold database.coalesce_id in Hc.
    destruct (String.eqb _ ""); [| destruct (uuid_in E _)];
      inversion Hc; reflexivity. }
  unfold database.audit. 
  destruct (db_err E (InsertAudit _ _)); intros H; injection H as <- <-; cbn;
    rewrite Hp0 in *; (split; [reflexivity | split; [apply (existsb_false_not_In _ _ _ Hex) | reflexivity]]).
Qed.

Lemma CreateRecommendation_ai_recommendations E r p :
  database.ai_recommendations (snd (database.CreateRecommendation E r p)) =
  database.ai_recommendations p.
Proof.
  unfold database.CreateRecommendation.
  destruct (db_err E InsertRecommendation); [reflexivity |].
  unfold database.coalesce_id.
  destruct (String.eqb (models.Recommendation_ID r) "").
  - destruct (existsb _ _); [reflexivity |].
    unfold database.audit. destruct (db_err E (InsertAudit _ _)); reflexivity.
  - destruct (uuid_in E _); [| reflexivity].
    destruct (existsb _ _); [reflexivity |].
    unfold database.audit. destruct (db_err E (InsertAudit _ _)); reflexivity.
Qed.

Lemma UUIDShaped_nonempty s : UUIDShaped s -> String.eqb s "" = false.
Proof. intros [Hl _]. destruct s; [discriminate Hl | reflexivity]. Qed.

(** C7. When the AI row of a draft is stored (the insert succeeds) and the
    database's [gen_random_uuid()] yields UUID-shaped text: the table gains
    exactly that row, under an id new to the table and UUID-shaped; a draft
    id that is not UUID-shaped is replaced by the generated id, a
    UUID-shaped one is kept; and [persist] reports that id. *)
Theorem stored_id_uuid_shaped E rec p id p1 :
  database.CreateAIRecommendation E (aiRow E rec) p = (Ok id, p1) ->
  UUIDShaped (gen_random_uuid E (database.uuid_drawn p)) ->
  database.ai_recommendations p1 =
    (database.ai_recommendations p
       ++ [database.set_AIRecommendation_ID_times id (NOW E) (aiRow E rec)])%list /\
  ~ In id (map models.AIRecommendation_ID (database.ai_recommendations p)) /\
  UUIDShaped id /\
  (~ UUIDShaped (ai.Recommendation_ID rec) ->
   id = gen_random_uuid E (database.uuid_drawn p) /\ id <> ai.Recommendation_ID rec) /\
  (UUIDShaped (ai.Recommendation_ID rec) -> id = ai.Recommendation_ID rec) /\
  (forall w, db w = Some p ->
     fst (persist E rec w) = (set_ID id rec, id) /\
     exists p2, db (snd (persist E rec w)) = Some p2 /\
                database.ai_recommendations p2 = database.ai_recommendations p1).
Proof.
  intros Hcreate Hgen.
  destruct (CreateAIRecommendation_Ok _ _ _ _ _ Hcreate) as (Hid & Hnew & Htable).
  assert (Hcases :
    (~ UUIDShaped (ai.Recommendation_ID rec) -> id = gen_random_uuid E (database.uuid_drawn p)) /\
    (UUIDShaped (ai.Recommendation_ID rec) -> id = ai.Recommendation_ID rec)).
  { cbn [aiRow models.AIRecommendation_ID] in Hid. unfold safeID in Hid.
    destruct (isUUIDLike (ai.Recommendation_ID rec)) eqn:Hshape; cbn [negb] in Hid.
    - apply isUUIDLike_spec in Hshape. split; [tauto | intros _].
      unfold database.coalesce_id in Hid.
      rewrite (UUIDShaped_nonempty _ Hshape) in Hid.
      destruct (uuid_in E _); cbn [fst] in Hid; congruence.
    - split.
      + intros _. cbn in Hid. congruence.
      + intros H. apply isUUIDLike_spec in H. congruence. }
  destruct Hcases as [Hno Hyes].
  split; [exact Htable |]. split; [exact Hnew |].
  assert (Hshaped : UUIDShaped id).
  { destruct (isUUIDLike (ai.Recommendation_ID rec)) eqn:Hshape.
    - apply isUUIDLike_spec in Hshape. rewrite (Hyes Hshape). exact Hshape.
    - rewrite Hno; [exact Hgen |].
      intros H. apply isUUIDLike_spec in H. congruence. }
  split; [exact Hshaped |]. split; [| split; [exact Hyes |]].
  - intros Hn. split; [exact (Hno Hn) |]. intros Heq. apply Hn. rewrite <- Heq.
    exact Hshaped.
  - intros w Hw. unfold persist. rewrite Hw, Hcreate.
    pose proof (CreateRecommendation_ai_recommendations E (legacy E (set_ID id rec)) p1) as Hm.
    destruct (database.CreateRecommendation E (legacy E (set_ID id rec)) p1) as [r2 p2].
    cbn [snd] in Hm. cbn [fst snd]. split; [reflexivity |].
    exists p2. split; [reflexivity | exact Hm].
Qed.

Lemma stored_id_uuid_shaped_witness :
  UUIDShaped (demoUUID 0) /\ demoUUID 0 <> "fallback".
Proof.
  pose (E := demoEnv orderFilled noFaults).
  pose (rec := draftFor "EUR_USD" "BUY").
  destruct (stored_id_uuid_shaped E rec emptyPostgres (demoUUID 0)
              (snd (database.CreateAIRecommendation E (aiRow E rec) emptyPostgres))
              eq_refl (proj1 (isUUIDLike_spec (demoUUID 0)) eq_refl))
    as (_ & _ & Hshaped & Hreplaced & _).
  split; [exact Hshaped |].
  apply Hreplaced. intros H. apply isUUIDLike_spec in H. discriminate H.
Defined.

(** ** The drafter *)

(** C9. For a request with a non-empty instrument list and no model
    credential, the drafter returns (never an error, never a panic) the
    heuristic draft: confidence fixed at 0.5, the first requested
    instrument, direction BUY, 100 units, no brackets; the draft is a
    function of the request and the context alone and the drafter writes
    nothing. With or without the credential, drafting such a request
    succeeds. *)
Theorem heuristic_draft E tradingContext request w i0 rest :
  ai.Request_Instruments request = i0 :: rest ->
  ANTHROPIC_API_KEY E = "" ->
  let out := claudeClientImpl_GenerateRecommendation E tradingContext request w in
  fst out =
    Ok {| ai.Recommendation_ID := "fallback";
          ai.Recommendation_Instrument := i0;
          ai.Recommendation_Direction := "BUY";
          ai.Recommendation_Units := 100;
          ai.Recommendation_Confidence := 0.5%float;
          ai.Recommendation_Rationale :=
            "Fallback heuristic recommendation (no ANTHROPIC_API_KEY)";
          ai.Recommendation_StopLoss := None;
          ai.Recommendation_TakeProfit := None;
          ai.Recommendation_TimeToLive := zeroTime;
          ai.Recommendation_MarketData := ai.TradingContext_MarketData tradingContext;
          ai.Recommendation_NewsContext :=
            ai.TradingContext_NewsAnalysis tradingContext |} /\
  db (snd out) = db w /\ recs (snd out) = recs w /\
  (forall E' w', exists rec,
      fst (claudeClientImpl_GenerateRecommendation E' tradingContext request w') = Ok rec /\
      ai.Recommendation_Instrument rec = i0 /\
      ai.Recommendation_Direction rec = "BUY").
Proof.
  intros Hinst Hkey out. subst out.
  unfold claudeClientImpl_GenerateRecommendation, bind, call, ret, firstInstrument.
  rewrite Hkey, Hinst. cbn. repeat split.
  intros E' w'. destruct (String.eqb (ANTHROPIC_API_KEY E') ""); cbn;
    eexists; repeat split; reflexivity.
Qed.

Lemma heuristic_draft_witness :
  exists rec,
    fst (claudeClientImpl_GenerateRecommendation (demoEnv orderFilled noFaults)
           demoContext (requestFor ["GBP_USD"; "EUR_USD"] "low") freshWorld) = Ok rec /\
    ai.Recommendation_Instrument rec = "GBP_USD" /\
    ai.Recommendation_Confidence rec = 0.5%float.
Proof.
  destruct (heuristic_draft (demoEnv orderFilled noFaults) demoContext
              (requestFor ["GBP_USD"; "EUR_USD"] "low") freshWorld
              "GBP_USD" ["EUR_USD"] eq_refl eq_refl) as (H & _).
  eexists. split; [exact H |]. split; reflexivity.
Defined.

(** ** Marking a recommendation executed *)

Lemma Forall2_map_same {A : Type} (R : A -> A -> Prop) (f : A -> A) (l : list A) :
  (forall x, R x (f x)) -> Forall2 R l (map f l).
Proof.
  intros H. induction l as [| a l IH]; cbn [map]; constructor; [apply H | exact IH].
Qed.

Lemma update_executed_marked E id tradeID x :
  legacy_marked E id tradeID x (database.update_executed id tradeID (NOW E) x).
Proof.
  unfold legacy_marked, database.update_executed.
  destruct (String.eqb_spec (models.Recommendation_ID (database.rec_columns x)) id)
    as [Heq | Hne]; split; intros H; try contradiction; try reflexivity.
  unfold legacy_frame. cbn. repeat split.
Qed.

Lemma update_ai_executed_marked E id tradeID x :
  ai_marked E id tradeID x (database.update_ai_executed id tradeID (NOW E) x).
Proof.
  unfold ai_marked, database.update_ai_executed.
  destruct (String.eqb_spec (models.AIRecommendation_ID x) id)
    as [Heq | Hne]; split; intros H; try contradiction; try reflexivity.
  unfold ai_frame. cbn. repeat split.
Qed.

(** C10. Marking executed, on either form: when the statement fails
    nothing changes; when it runs, every row whose id differs is left as it
    is, and every row with the id keeps all its columns (and its
    [deleted_at]) except the status, which becomes EXECUTED, the trade
    reference, which becomes the given trade id, and the executed (legacy)
    or updated (AI) timestamp, which becomes the current time. No
    condition on the row's current status or deletion mark is involved.
    The other tables are untouched, but for the audit log. *)
Theorem mark_executed_frame E id tradeID p :
  (let out := database.MarkRecommendationExecuted E id tradeID p in
   match fst out with
   | Some e => db_err E UpdateRecommendationExecuted = Some e /\ snd out = p
   | None =>
       Forall2 (legacy_marked E id tradeID)
         (database.recommendations p) (database.recommendations (snd out)) /\
       database.ai_recommendations (snd out) = database.ai_recommendations p /\
       database.trades (snd out) = database.trades p
   end) /\
  (let out := database.MarkAIRecommendationExecuted E id tradeID p in
   match fst out with
   | Some e => db_err E UpdateAIRecommendationExecuted = Some e /\ snd out = p
   | None =>
       Forall2 (ai_marked E id tradeID)
         (database.ai_recommendations p) (database.ai_recommendations (snd out)) /\
       database.recommendations (snd out) = database.recommendations p /\
       database.trades (snd out) = database.trades p
   end).
Proof.
  split.
  - unfold database.MarkRecommendationExecuted.
    destruct (db_err E UpdateRecommendationExecuted) as [e |]; cbn.
    + split; reflexivity.
    + unfold database.audit. destruct (db_err E (InsertAudit _ _)); cbn;
        (split; [apply Forall2_map_same, update_executed_marked | split; reflexivity]).
  - unfold database.MarkAIRecommendationExecuted.
    destruct (db_err E UpdateAIRecommendationExecuted) as [e |]; cbn.
    + split; reflexivity.
    + unfold database.audit. destruct (db_err E (InsertAudit _ _)); cbn;
        (split; [apply Forall2_map_same, update_ai_executed_marked | split; reflexivity]).
Qed.

(** ** Acceptance: resolving the identifier *)

Lemma In_insert_desc {A} (key : A -> Z) (x y : A) (l : list A) :
  In y (database.insert_desc key x l) -> y = x \/ In y l.
Proof.
  induction l as [| a l IH]; cbn [database.insert_desc].
  - intros [H | []]. left. symmetry. exact H.
  - destruct (key a <? key x).
    + intros [H | H]; [left; symmetry; exact H | right; exact H].
    + intros [H | H]; [right; left; exact H |].
      destruct (IH H) as [H' | H']; [left; exact H' | right; right; exact H'].
Qed.

Lemma In_order_by_desc {A} (key : A -> Z) (y : A) (l : list A) :
  In y (database.order_by_desc key l) -> In y l.
Proof.
  induction l as [| a l IH]; cbn [database.order_by_desc fold_right]; [tauto |].
  intros H. apply In_insert_desc in H as [-> | H]; [left; reflexivity |].
  right. apply IH, H.
Qed.

Lemma In_firstn_In {A} (n : nat) (y : A) (l : list A) : In y (List.firstn n l) -> In y l.
Proof.
  revert l. induction n as [| n IH]; intros [| a l]; cbn [List.firstn In]; try tauto.
  intros [H | H]; [left; exact H | right; apply IH, H].
Qed.

Lemma find_absent {A} (f : A -> string) (id : string) (l : list A) :
  ~ In id (map f l) -> List.find (fun x => String.eqb (f x) id) l = None.
Proof.
  induction l as [| a l IH]; cbn [map In List.find]; [reflexivity |].
  intros H. destruct (String.eqb_spec (f a) id) as [Heq | Hne]; [tauto |].
  apply IH. tauto.
Qed.

Lemma findLegacy_absent E id w :
  (forall p, db w = Some p ->
     ~ In id (map (fun x => models.Recommendation_ID (database.rec_columns x))
                (database.recommendations p))) ->
  findLegacy E id w = None.
Proof.
  intros H. unfold findLegacy. destruct (db w) as [p |]; [| reflexivity].
  specialize (H p eq_refl). unfold database.ListRecommendations.
  destruct (db_err E SelectRecommendations); [reflexivity |].
  rewrite find_absent; [reflexivity |].
  intros Hin. apply H. apply in_map_iff in Hin as (r & Hr & Hin).
  apply In_firstn_In, In_order_by_desc in Hin.
  apply in_map_iff in Hin as (x & Hx & Hin). apply filter_In in Hin as [Hin _].
  apply in_map_iff. exists x. split; [congruence | exact Hin].
Qed.

Lemma findAI_absent E id w :
  (forall p, db w = Some p ->
     ~ In id (map models.AIRecommendation_ID (database.ai_recommendations p))) ->
  findAI E id w = None.
Proof.
  intros H. unfold findAI. destruct (db w) as [p |]; [| reflexivity].
  specialize (H p eq_refl). unfold database.ListAIRecommendations.
  destruct (db_err E SelectAIRecommendations); [reflexivity |].
  rewrite find_absent; [reflexivity |].
  intros Hin. apply H. apply in_map_iff in Hin as (r & Hr & Hin).
  apply In_firstn_In, In_order_by_desc in Hin.
  apply in_map_iff. exists r. split; [exact Hr | exact Hin].
Qed.

Lemma findLegacy_shape E id w x :
  findLegacy E id w = Some x ->
  resolved_isAI x = false /\ resolved_sl x = None /\ resolved_tp x = None.
Proof.
  unfold findLegacy. destruct (db w); [| discriminate].
  destruct (database.ListRecommendations E _); try discriminate.
  destruct (List.find _ _); [| discriminate].
  intros H. injection H as <-. repeat split.
Qed.

Lemma findAI_shape E id w x :
  findAI E id w = Some x -> resolved_isAI x = true.
Proof.
  unfold findAI. destruct (db w); [| discriminate].
  destruct (database.ListAIRecommendations E 200 _); try discriminate.
  destruct (List.find _ _); [| discriminate].
  intros H. injection H as <-. reflexivity.
Qed.

(** C5, as the code has it. An identifier that no row of the legacy table,
    no row of the AI table and no entry of the in-memory map [recs] carries
    is answered 404 "not found", and the world is left exactly as it was
    (no write, no call to a collaborator). The lookup takes the legacy
    listing first (such a match carries no brackets), then the AI listing,
    then the in-memory map, and the first match wins. *)
Theorem accept_resolution :
  (forall E id w,
      (forall p, db w = Some p ->
         ~ In id (map (fun x => models.Recommendation_ID (database.rec_columns x))
                    (database.recommendations p)) /\
         ~ In id (map models.AIRecommendation_ID (database.ai_recommendations p))) ->
      recs w !! id = None ->
      acceptRecommendation E id w = (JSON 404 (H_error (Error "not found")), w))
  /\
  (forall E id w x,
      findLegacy E id w = Some x ->
      resolve E id w = Some x /\ resolved_isAI x = false /\
      resolved_sl x = None /\ resolved_tp x = None)
  /\
  (forall E id w x,
      findLegacy E id w = None -> findAI E id w = Some x ->
      resolve E id w = Some x /\ resolved_isAI x = true)
  /\
  (forall E id w,
      findLegacy E id w = None -> findAI E id w = None ->
      resolve E id w = findMemory id w).
Proof.
  split; [| split; [| split]].
  - intros E id w Hdb Hmem. unfold acceptRecommendation, resolve.
    rewrite findLegacy_absent by (intros p Hp; apply (Hdb p Hp)).
    rewrite findAI_absent by (intros p Hp; apply (Hdb p Hp)).
    unfold findMemory. rewrite Hmem. reflexivity.
  - intros E id w x H. unfold resolve. rewrite H.
    split; [reflexivity | exact (findLegacy_shape _ _ _ _ H)].
  - intros E id w x H1 H2. unfold resolve. rewrite H1, H2.
    split; [reflexivity | exact (findAI_shape _ _ _ _ H2)].
  - intros E id w H1 H2. unfold resolve. rewrite H1, H2. reflexivity.
Qed.

Lemma accept_resolution_witness :
  acceptRecommendation (demoEnv orderFilled noFaults) "20260101000000" freshWorld
  = (JSON 404 (H_error (Error "not found")), freshWorld).
Proof.
  apply (proj1 accept_resolution).
  - intros p Hp. injection Hp as <-. cbn. tauto.
  - reflexivity.
Defined.

(** C5 as stated fails: an id that is in neither table is not answered
    404 when the in-memory map [recs] has it; the order is placed and the
    database is written. *)
Lemma accept_resolution_counterexample :
  let E := demoEnv orderFilled noFaults in
  let id := "20260101000000" in
  let out := acceptRecommendation E id worldWithManual in
  db worldWithManual = Some emptyPostgres /\
  fst out = JSON 200 (H_accepted (set_ID_CreatedAt id 1767225600 manualBody)
                        {| broker.OrderCreateTransaction_ID := "6357" |}) /\
  (exists p, db (snd out) = Some p /\
             List.length (database.trades p) = 1%nat).
Proof.
  vm_compute. split; [reflexivity |]. split; [reflexivity |].
  eexists. split; reflexivity.
Qed.

(** ** Acceptance: a rejected order *)

Lemma postMarketOrder_world E payload w :
  snd (postMarketOrder E payload w) =
    {| db := db w; recs := recs w; calls := calls w ++ [CallPostOrder payload] |}.
Proof. reflexivity. Qed.

Lemma submit_world E x w :
  db (snd (submit E x w)) = db w /\ recs (snd (submit E x w)) = recs w.
Proof.
  unfold submit, PlaceMarketOrder, PlaceMarketOrderWithBrackets.
  destruct (resolved_sl x), (resolved_tp x); rewrite postMarketOrder_world;
    split; reflexivity.
Qed.

(** What the broker methods make of a status outside 2xx. *)
Lemma postMarketOrder_status E payload w resp :
  postOrder E payload = Ok resp ->
  (broker.StatusCode resp < 200 \/ 300 <= broker.StatusCode resp) ->
  fst (postMarketOrder E payload w) =
    Err (OrderFailed (broker.StatusCode resp)
           match broker.Body resp with Ok b => b | _ => "" end).
Proof.
  intros Hpost Hcode. unfold postMarketOrder, bind, call, ret. cbn. rewrite Hpost.
  destruct (Z.ltb_spec (broker.StatusCode resp) 200); [reflexivity |].
  destruct (Z.leb_spec 300 (broker.StatusCode resp)); [reflexivity | lia].
Qed.

(** C4. When the identifier resolves and the broker method returns an
    error, the handler answers 500 with that error, and neither the
    database (no trade row, no status update, no audit row: the resolved
    recommendation keeps the status it had) nor the in-memory map has
    changed. *)
Theorem accept_broker_rejection E id w x err :
  resolve E id w = Some x ->
  fst (submit E x w) = Err err ->
  let out := acceptRecommendation E id w in
  fst out = JSON 500 (H_error err) /\
  db (snd out) = db w /\
  recs (snd out) = recs w.
Proof.
  intros Hres Herr out. subst out. unfold acceptRecommendation. rewrite Hres.
  pose proof (submit_world E x w) as [Hdb Hrecs].
  destruct (submit E x w) as [placed w1]. cbn [fst snd] in *. subst placed.
  cbn [fst snd]. auto.
Qed.

Lemma accept_broker_rejection_witness :
  let out := acceptRecommendation (demoEnv orderRejected noFaults) (demoUUID 0) worldWithAI in
  fst out = JSON 500 (H_error (OrderFailed 400 "INSUFFICIENT_MARGIN")) /\
  db (snd out) = db worldWithAI /\
  recs (snd out) = recs worldWithAI.
Proof.
  pose (E := demoEnv orderRejected noFaults).
  destruct (resolve E (demoUUID 0) worldWithAI) as [x |] eqn:Hres;
    [| vm_compute in Hres; discriminate Hres].
  apply (accept_broker_rejection E (demoUUID 0) worldWithAI x
           (OrderFailed 400 "INSUFFICIENT_MARGIN") Hres).
  vm_compute in Hres. injection Hres as <-. vm_compute. reflexivity.
Defined.

(** ** Acceptance: a filled order *)

Lemma not_In_existsb_false {A} (f : A -> string) (id : string) (l : list A) :
  ~ In id (map f l) -> existsb (fun x => String.eqb (f x) id) l = false.
Proof.
  induction l as [| a l IH]; cbn [existsb map In]; [reflexivity |].
  intros H. destruct (String.eqb_spec (f a) id) as [Heq | Hne]; [tauto |].
  apply IH. tauto.
Qed.









(** ** Generation: an empty instrument list *)

(** C6, as the code has it. The only input error of a generation is a body
    that cannot be bound: it is answered 400 with the world untouched, so
    before any external call. A bound request with an empty instrument
    list is not checked: on the server [main] wires, it reaches the AI
    service, whose first act is the market fetch for the empty list, and
    the answer is never the 400. The drafter, handed an empty list, drafts
    for EUR_USD. *)
Theorem generation_empty_instruments :
  (forall E s w,
      aiGenerateRecommendation E s None w
      = (JSON 400 (H_error (Error "invalid request")), w))
  /\
  (forall E req w,
      ai.Request_Instruments req = [] ->
      let out := aiGenerateRecommendation E {| Server_ai := Some (main_aiSvc E) |}
                   (Some req) w in
      (exists rest, calls (snd out) = (calls w ++ CallMarketFetcher [] :: rest)%list) /\
      (forall body, fst out <> JSON 400 body))
  /\
  (forall E tradingContext req w,
      ai.Request_Instruments req = [] ->
      exists rec,
        fst (claudeClientImpl_GenerateRecommendation E tradingContext req w) = Ok rec /\
        ai.Recommendation_Instrument rec = "EUR_USD").
Proof.
  split; [| split].
  - reflexivity.
  - intros E req w Hempty out. subst out.
    unfold aiGenerateRecommendation, main_aiSvc, NewService, NewAggregator.
    cbn [Server_ai Service_GenerateRecommendation].
    unfold serviceImpl_GenerateRecommendation, bindR, bind.
    cbn [GatherMarketData GatherNewsData GatherHistoricalData].
    rewrite Hempty. unfold main_marketFetcher, main_newsFetcher, bind, call, ret.
    destruct (marketFetcher E []) as [m | e |]; cbn [fst snd calls].
    + split; [| discriminate].
      exists [CallNewsFetcher []]. rewrite <- app_assoc. reflexivity.
    + split; [exists []; reflexivity | intros body H; discriminate H].
    + split; [exists []; reflexivity | discriminate].
  - intros E tradingContext req w Hempty.
    unfold claudeClientImpl_GenerateRecommendation, bind, call, ret, firstInstrument.
    rewrite Hempty. destruct (String.eqb (ANTHROPIC_API_KEY E) ""); cbn;
      eexists; split; reflexivity.
Qed.

Lemma generation_empty_instruments_witness :
  exists rest,
    calls (snd (aiGenerateRecommendation (demoEnv orderFilled noFaults)
                  {| Server_ai := Some (main_aiSvc (demoEnv orderFilled noFaults)) |}
                  (Some (requestFor [] "low")) freshWorld))
    = CallMarketFetcher [] :: rest.
Proof.
  exact (proj1 (proj1 (proj2 generation_empty_instruments)
                  (demoEnv orderFilled noFaults) (requestFor [] "low") freshWorld
                  eq_refl)).
Defined.

(** C6 as stated fails: a request with an empty instrument list is not
    answered as an input error; the market fetcher and then the news
    fetcher are invoked, and the request ends in the recovery handler. *)
Lemma generation_empty_instruments_counterexample :
  let E := demoEnv orderFilled noFaults in
  let out := aiGenerateRecommendation E {| Server_ai := Some (main_aiSvc E) |}
               (Some (requestFor [] "low")) freshWorld in
  fst out = Recovered /\
  calls (snd out) = [CallMarketFetcher []; CallNewsFetcher []].
Proof. vm_compute. split; reflexivity. Qed.

(** ** A row that was already executed and soft-deleted *)

(** Marking it again overwrites the trade reference and the execution
    time, and keeps the deletion mark. *)
Example mark_executed_overwrites :
  let p := database.with_recommendations [staleRow] emptyPostgres in
  let out := database.MarkRecommendationExecuted (demoEnv orderFilled noFaults)
               (demoUUID 2) "6357" p in
  fst out = None /\
  map (fun x => (models.Recommendation_Status (database.rec_columns x),
                 models.Recommendation_TradeID (database.rec_columns x),
                 models.Recommendation_ExecutedAt (database.rec_columns x),
                 database.rec_deleted_at x))
      (database.recommendations (snd out))
  = [(models.RecommendationStatusExecuted, Some "6357", Some 1767225600,
      Some 1767000200)].
Proof. vm_compute. split; reflexivity. Qed.

(** * Further properties *)

(** ** Nothing is deleted, keys stay distinct *)

Lemma keys_evolve_refl l : keys_evolve l l.
Proof. split; [reflexivity | tauto]. Qed.

Lemma keys_evolve_trans l1 l2 l3 :
  keys_evolve l1 l2 -> keys_evolve l2 l3 -> keys_evolve l1 l3.
Proof. intros [H1 H2] [H3 H4]. split; [etransitivity; eassumption | tauto]. Qed.

Lemma keys_evolve_snoc l id :
  ~ In id l -> keys_evolve l (l ++ [id]).
Proof.
  intros Hnew. split; [apply prefix_app_r; reflexivity |].
  intros Hl. apply NoDup_app. split; [exact Hl |]. split.
  - intros x Hx Hin. apply list_elem_of_In in Hx.
    apply list_elem_of_singleton in Hin. subst x. exact (Hnew Hx).
  - apply NoDup_singleton.
Qed.

Lemma evolves_refl p : evolves p p.
Proof. repeat split; try reflexivity; tauto. Qed.

Lemma evolves_trans p1 p2 p3 : evolves p1 p2 -> evolves p2 p3 -> evolves p1 p3.
Proof.
  intros (A1 & A2 & A3 & A4 & A5 & A6) (B1 & B2 & B3 & B4 & B5 & B6).
  split; [exact (keys_evolve_trans _ _ _ A1 B1) |].
  split; [exact (keys_evolve_trans _ _ _ A2 B2) |].
  split; [exact (keys_evolve_trans _ _ _ A3 B3) |].
  split; [etransitivity; eassumption |].
  split; etransitivity; eassumption.
Qed.

Lemma world_evolves_refl w : world_evolves w w.
Proof.
  split; [| reflexivity]. destruct (db w); [apply evolves_refl | exact I].
Qed.

Lemma world_evolves_trans w1 w2 w3 :
  world_evolves w1 w2 -> world_evolves w2 w3 -> world_evolves w1 w3.
Proof.
  intros [A1 A2] [B1 B2]. split; [| etransitivity; eassumption].
  destruct (db w1), (db w2), (db w3); try contradiction; try exact I.
  eapply evolves_trans; eassumption.
Qed.

Lemma evolving_ret {A} (a : A) : evolving (ret a).
Proof. intros w. apply world_evolves_refl. Qed.

Lemma evolving_call e : evolving (call e).
Proof. intros w. unfold call. cbn. 
  split; [| reflexivity]. cbn. destruct (db w); [apply evolves_refl | exact I].
Qed.

Lemma evolving_bind {A B} (m : M A) (k : A -> M B) :
  evolving m -> (forall a, evolving (k a)) -> evolving (bind m k).
Proof.
  intros Hm Hk w. unfold bind. specialize (Hm w).
  destruct (m w) as [a w1]. cbn [snd] in Hm.
  eapply world_evolves_trans; [exact Hm | apply Hk].
Qed.

(** A method of [*Postgres] that only lets the database evolve. *)
Lemma evolving_db {A} (f : database.Postgres -> A * database.Postgres) w p :
  db w = Some p -> evolves p (snd (f p)) ->
  world_evolves w (with_db (Some (snd (f p))) w).
Proof.
  intros Hdb H. split; [| reflexivity]. rewrite Hdb. exact H.
Qed.

Lemma evolves_audit E entity entityID action details p :
  evolves p (snd (database.audit E entity entityID action details p)).
Proof.
  unfold database.audit. destruct (db_err E (InsertAudit entity action)); cbn [snd].
  - apply evolves_refl.
  - repeat (split; [first [apply keys_evolve_refl | reflexivity] |]).
    split; [apply prefix_app_r; reflexivity |]. split; reflexivity.
Qed.

(** Split off the audit row a method ends with. *)
Ltac after_audit H :=
  match goal with
  | |- context [database.audit ?E ?a ?b ?c ?d ?q] =>
      pose proof (evolves_audit E a b c d q) as H;
      destruct (database.audit E a b c d q) as [? ?];
      cbn [snd] in H |- *
  end.

Lemma coalesce_id_tables E supplied p :
  let p' := snd (database.coalesce_id E supplied p) in
  database.recommendations p' = database.recommendations p /\
  database.ai_recommendations p' = database.ai_recommendations p /\
  database.trades p' = database.trades p /\
  database.audit_logs p' = database.audit_logs p /\
  database.ai_usage_logs p' = database.ai_usage_logs p /\
  database.market_analysis_cache p' = database.market_analysis_cache p.
Proof.
  unfold database.coalesce_id.
  destruct (String.eqb supplied ""); [| destruct (uuid_in E supplied)];
    cbn; repeat split.
Qed.

Lemma evolves_CreateRecommendation E r p :
  evolves p (snd (database.CreateRecommendation E r p)).
Proof.
  unfold database.CreateRecommendation.
  destruct (db_err E InsertRecommendation); [apply evolves_refl |].
  pose proof (coalesce_id_tables E (models.Recommendation_ID r) p) as H.
  destruct (database.coalesce_id E (models.Recommendation_ID r) p) as [[id | e |] p1];
    try apply evolves_refl.
  cbn [snd] in H. destruct H as (H1 & H2 & H3 & H4 & H5 & H6).
  destruct (existsb _ _) eqn:Hex; [apply evolves_refl |].
  after_audit Ha. eapply evolves_trans; [| exact Ha].
  unfold evolves, recommendation_ids, ai_recommendation_ids, trade_ids. cbn.
  rewrite H1, H2, H3, H4, H5, H6, map_app. cbn [map].
  split; [| repeat (split; [first [apply keys_evolve_refl | reflexivity] |]); reflexivity].
  apply keys_evolve_snoc. rewrite <- H1.
  exact (existsb_false_not_In
           (fun x => models.Recommendation_ID (database.rec_columns x)) _ _ Hex).
Qed.

Lemma evolves_CreateAIRecommendation E r p :
  evolves p (snd (database.CreateAIRecommendation E r p)).
Proof.
  unfold database.CreateAIRecommendation.
  destruct (db_err E InsertAIRecommendation); [apply evolves_refl |].
  pose proof (coalesce_id_tables E (models.AIRecommendation_ID r) p) as H.
  destruct (database.coalesce_id E (models.AIRecommendation_ID r) p) as [[id | e |] p1];
    try apply evolves_refl.
  cbn [snd] in H. destruct H as (H1 & H2 & H3 & H4 & H5 & H6).
  destruct (existsb _ _) eqn:Hex; [apply evolves_refl |].
  after_audit Ha. eapply evolves_trans; [| exact Ha].
  unfold evolves, recommendation_ids, ai_recommendation_ids, trade_ids. cbn.
  rewrite H1, H2, H3, H4, H5, H6, map_app. cbn [map].
  split; [apply keys_evolve_refl |].
  split; [| repeat (split; [first [apply keys_evolve_refl | reflexivity] |]); reflexivity].
  apply keys_evolve_snoc. rewrite <- H2.
  exact (existsb_false_not_In models.AIRecommendation_ID _ _ Hex).
Qed.

Lemma evolves_CreateTrade E t p :
  evolves p (snd (database.CreateTrade E t p)).
Proof.
  unfold database.CreateTrade.
  destruct (db_err E InsertTrade); [apply evolves_refl |].
  pose proof (coalesce_id_tables E (models.Trade_ID t) p) as H.
  destruct (database.coalesce_id E (models.Trade_ID t) p) as [[id | e |] p1];
    try apply evolves_refl.
  cbn [snd] in H. destruct H as (H1 & H2 & H3 & H4 & H5 & H6).
  destruct (existsb _ _) eqn:Hex; [apply evolves_refl |].
  after_audit Ha. eapply evolves_trans; [| exact Ha].
  unfold evolves, recommendation_ids, ai_recommendation_ids, trade_ids. cbn.
  rewrite H1, H2, H3, H4, H5, H6, map_app. cbn [map].
  split; [apply keys_evolve_refl |]. split; [apply keys_evolve_refl |].
  split; [| repeat (split; [first [apply keys_evolve_refl | reflexivity] |]); reflexivity].
  apply keys_evolve_snoc. rewrite <- H3.
  exact (existsb_false_not_In
           (fun x => models.Trade_ID (database.trade_columns x)) _ _ Hex).
Qed.

Lemma map_key_preserved {A} (key : A -> string) (f : A -> A) (l : list A) :
  (forall x, key (f x) = key x) -> map key (map f l) = map key l.
Proof.
  intros H. rewrite map_map. apply map_ext. exact H.
Qed.

Lemma update_executed_ID id tradeID now x :
  models.Recommendation_ID (database.rec_columns (database.update_executed id tradeID now x))
  = models.Recommendation_ID (database.rec_columns x).
Proof.
  unfold database.update_executed. destruct (String.eqb _ id); reflexivity.
Qed.

Lemma update_ai_executed_ID id tradeID now x :
  models.AIRecommendation_ID (database.update_ai_executed id tradeID now x)
  = models.AIRecommendation_ID x.
Proof.
  unfold database.update_ai_executed. destruct (String.eqb _ id); reflexivity.
Qed.

Lemma evolves_MarkRecommendationExecuted E id tradeID p :
  evolves p (snd (database.MarkRecommendationExecuted E id tradeID p)).
Proof.
  unfold database.MarkRecommendationExecuted.
  destruct (db_err E UpdateRecommendationExecuted); [apply evolves_refl |].
  after_audit H. eapply evolves_trans; [| exact H].
  unfold evolves, recommendation_ids, ai_recommendation_ids, trade_ids. cbn.
  rewrite (map_key_preserved _ _ _ (update_executed_ID id tradeID (NOW E))).
  repeat (split; [first [apply keys_evolve_refl | reflexivity] |]); reflexivity.
Qed.

Lemma evolves_MarkAIRecommendationExecuted E id tradeID p :
  evolves p (snd (database.MarkAIRecommendationExecuted E id tradeID p)).
Proof.
  unfold database.MarkAIRecommendationExecuted.
  destruct (db_err E UpdateAIRecommendationExecuted); [apply evolves_refl |].
  after_audit H. eapply evolves_trans; [| exact H].
  unfold evolves, recommendation_ids, ai_recommendation_ids, trade_ids. cbn.
  rewrite (map_key_preserved _ _ _ (update_ai_executed_ID id tradeID (NOW E))).
  repeat (split; [first [apply keys_evolve_refl | reflexivity] |]); reflexivity.
Qed.

Lemma evolves_SoftDeleteRecommendation E id p :
  evolves p (snd (database.SoftDeleteRecommendation E id p)).
Proof.
  unfold database.SoftDeleteRecommendation.
  destruct (db_err E UpdateRecommendationDeleted); [apply evolves_refl |].
  after_audit H. eapply evolves_trans; [| exact H].
  unfold evolves, recommendation_ids, ai_recommendation_ids, trade_ids. cbn.
  rewrite map_key_preserved.
  - repeat (split; [first [apply keys_evolve_refl | reflexivity] |]); reflexivity.
  - intros x. destruct (_ && _)%bool; reflexivity.
Qed.

Lemma evolves_CreateAIUsageLog E rid a b c d model p :
  evolves p (snd (database.CreateAIUsageLog E rid a b c d model p)).
Proof.
  unfold database.CreateAIUsageLog. destruct (db_err E InsertAIUsageLog); cbn [snd].
  - apply evolves_refl.
  - repeat (split; [first [apply keys_evolve_refl | reflexivity] |]).
    split; [apply prefix_app_r; reflexivity | reflexivity].
Qed.

Lemma evolves_InsertMarketAnalysisCache E instruments data expires p :
  evolves p (snd (database.InsertMarketAnalysisCache E instruments data expires p)).
Proof.
  unfold database.InsertMarketAnalysisCache.
  destruct (db_err E InsertMarketAnalysisCache); cbn [snd].
  - apply evolves_refl.
  - repeat (split; [first [apply keys_evolve_refl | reflexivity] |]).
    apply prefix_app_r; reflexivity.
Qed.

Lemma world_evolves_same w w' :
  db w' = db w -> recs w' = recs w -> world_evolves w w'.
Proof.
  intros Hdb Hrecs. split; [| rewrite Hrecs; reflexivity].
  rewrite Hdb. destruct (db w); [apply evolves_refl | exact I].
Qed.

Lemma world_evolves_db w w' p p' :
  db w = Some p -> db w' = Some p' -> recs w' = recs w -> evolves p p' ->
  world_evolves w w'.
Proof.
  intros Hdb Hdb' Hrecs H. split; [| rewrite Hrecs; reflexivity].
  rewrite Hdb, Hdb'. exact H.
Qed.

Lemma evolving_on_db {A} (otherwise : A) (f : database.Postgres -> A * database.Postgres) :
  (forall p, evolves p (snd (f p))) -> evolving (on_db otherwise f).
Proof.
  intros H w. unfold on_db. destruct (db w) as [p |] eqn:Hdb.
  - specialize (H p). destruct (f p) as [a p']. cbn [snd] in *.
    eapply world_evolves_db; [exact Hdb | reflexivity | reflexivity | exact H].
  - apply world_evolves_refl.
Qed.

Lemma evolving_postMarketOrder E payload : evolving (postMarketOrder E payload).
Proof.
  unfold postMarketOrder. apply evolving_bind; [apply evolving_call |].
  intros _. apply evolving_ret.
Qed.

Lemma evolving_submit E x : evolving (submit E x).
Proof.
  unfold submit, PlaceMarketOrder, PlaceMarketOrderWithBrackets.
  destruct (resolved_sl x), (resolved_tp x); apply evolving_postMarketOrder.
Qed.

Lemma evolving_currentMid E n instrument : evolving (currentMid E n instrument).
Proof.
  unfold currentMid. apply evolving_bind; [apply evolving_call |].
  intros _. apply evolving_ret.
Qed.

Lemma evolving_reconcile E id x units resp : evolving (reconcile E id x units resp).
Proof.
  intros w. unfold reconcile. destruct (db w) as [p |] eqn:Hdb;
    [| apply world_evolves_refl].
  assert (Hmark : evolves p (snd (if resolved_isAI x
             then database.MarkAIRecommendationExecuted E id
                    (broker.OrderCreateTransaction_ID resp) p
             else database.MarkRecommendationExecuted E id
                    (broker.OrderCreateTransaction_ID resp) p))).
  { destruct (resolved_isAI x);
      [apply evolves_MarkAIRecommendationExecuted | apply evolves_MarkRecommendationExecuted]. }
  destruct (if resolved_isAI x then _ else _) as [o p1]. cbn [snd] in Hmark.
  unfold currentMid, bind, call, ret. cbn [db with_db recs calls].
  match goal with
  | |- context [database.CreateTrade E ?t p1] =>
      pose proof (evolves_CreateTrade E t p1) as Htrade;
      destruct (database.CreateTrade E t p1) as [o2 p2]
  end.
  cbn [snd] in *.
  eapply world_evolves_db; [exact Hdb | reflexivity | reflexivity |].
  eapply evolves_trans; eassumption.
Qed.

Lemma evolving_acceptRecommendation E id : evolving (acceptRecommendation E id).
Proof.
  intros w. unfold acceptRecommendation.
  destruct (resolve E id w) as [x |]; [| apply world_evolves_refl].
  pose proof (evolving_submit E x w) as Hs.
  destruct (submit E x w) as [[resp | err |] w1]; cbn [snd] in *; try exact Hs.
  pose proof (evolving_reconcile E id x (orderUnits (resolved_r x)) resp w1) as Hr.
  destruct (reconcile E id x (orderUnits (resolved_r x)) resp w1) as [[] w2].
  cbn [snd] in *. eapply world_evolves_trans; eassumption.
Qed.

Lemma dom_insert_grows (m : gmap string recommendation) k v :
  dom m ⊆ dom (<[k := v]> m).
Proof. rewrite dom_insert_L. set_solver. Qed.

Lemma evolving_createRecommendation E body : evolving (createRecommendation E body).
Proof.
  intros w. unfold createRecommendation. destruct body as [r |];
    [| apply world_evolves_refl].
  destruct (db w) as [p |] eqn:Hdb.
  - match goal with
    | |- context [database.CreateRecommendation E ?r0 p] =>
        pose proof (evolves_CreateRecommendation E r0 p) as Hc;
        destruct (database.CreateRecommendation E r0 p) as [[id | e |] p']
    end; cbn [snd] in *.
    + eapply world_evolves_db; [exact Hdb | reflexivity | reflexivity | exact Hc].
    + split; [cbn; rewrite Hdb; exact Hc | apply dom_insert_grows].
    + split; [cbn; rewrite Hdb; exact Hc | apply dom_insert_grows].
  - split; [cbn; rewrite Hdb; exact I | apply dom_insert_grows].
Qed.

Lemma evolving_deleteRecommendation E id : evolving (deleteRecommendation E id).
Proof.
  intros w. unfold deleteRecommendation. destruct (db w) as [p |] eqn:Hdb;
    [| apply world_evolves_refl].
  pose proof (evolves_SoftDeleteRecommendation E id p) as H.
  destruct (database.SoftDeleteRecommendation E id p) as [[err |] p']; cbn [snd] in *;
    (eapply world_evolves_db; [exact Hdb | reflexivity | reflexivity | exact H]).
Qed.

Lemma evolving_placeOrder E body : evolving (placeOrder E body).
Proof.
  intros w. unfold placeOrder. destruct body as [req |]; [| apply world_evolves_refl].
  assert (Hs : world_evolves w (snd
            match OrderBody_StopLoss req, OrderBody_TakeProfit req with
            | None, None =>
                PlaceMarketOrder E (OrderBody_Instrument req) (OrderBody_Units req) w
            | sl, tp =>
                PlaceMarketOrderWithBrackets E (OrderBody_Instrument req)
                  (OrderBody_Units req) sl tp w
            end)).
  { unfold PlaceMarketOrder, PlaceMarketOrderWithBrackets.
    destruct (OrderBody_StopLoss req), (OrderBody_TakeProfit req);
      apply evolving_postMarketOrder. }
  destruct (match OrderBody_StopLoss req, OrderBody_TakeProfit req with
            | None, None => _ | _, _ => _ end) as [[resp | err |] w1];
    cbn [snd] in Hs; try exact Hs.
  destruct (db w1) as [p |] eqn:Hdb; [| exact Hs].
  unfold currentMid, bind, call, ret. cbn [db with_db recs calls].
  match goal with
  | |- context [database.CreateTrade E ?t p] =>
      pose proof (evolves_CreateTrade E t p) as Htrade;
      destruct (database.CreateTrade E t p) as [o2 p2]
  end.
  cbn [snd] in *. eapply world_evolves_trans; [exact Hs |].
  eapply world_evolves_db; [exact Hdb | reflexivity | reflexivity | exact Htrade].
Qed.

Lemma evolving_recServer_AcceptRecommendation E id :
  evolving (recServer_AcceptRecommendation E id).
Proof.
  intros w. unfold recServer_AcceptRecommendation.
  destruct (db w) as [p |] eqn:Hdb; [| apply world_evolves_refl].
  destruct (database.ListRecommendations E p) as [list | err |];
    try apply world_evolves_refl.
  destruct (List.find _ list) as [r |]; [| apply world_evolves_refl].
  pose proof (evolving_postMarketOrder E
                {| broker.Order_Type := "MARKET";
                   broker.Order_Instrument := models.Recommendation_Instrument r;
                   broker.Order_Units := models.Recommendation_Units r;
                   broker.Order_TimeInForce := "FOK";
                   broker.Order_PositionFill := "DEFAULT";
                   broker.Order_TakeProfitOnFill := None;
                   broker.Order_StopLossOnFill := None |} w) as Hs.
  unfold PlaceMarketOrder.
  destruct (postMarketOrder E _ w) as [[ord | err |] w1] eqn:Hpost;
    cbn [snd] in Hs; try exact Hs.
  pose proof (evolves_MarkRecommendationExecuted E id
                (broker.OrderCreateTransaction_ID ord) p) as Hm.
  destruct (database.MarkRecommendationExecuted E id _ p) as [o p'].
  cbn [snd] in *.
  assert (Hrecs1 : recs w1 = recs w).
  { pose proof (postMarketOrder_world E
                  {| broker.Order_Type := "MARKET";
                     broker.Order_Instrument := models.Recommendation_Instrument r;
                     broker.Order_Units := models.Recommendation_Units r;
                     broker.Order_TimeInForce := "FOK";
                     broker.Order_PositionFill := "DEFAULT";
                     broker.Order_TakeProfitOnFill := None;
                     broker.Order_StopLossOnFill := None |} w) as Hw.
    rewrite Hpost in Hw. cbn [snd] in Hw. rewrite Hw. reflexivity. }
  eapply world_evolves_db; [exact Hdb | reflexivity | cbn; exact Hrecs1 | exact Hm].
Qed.

Lemma evolving_bindR {A B} (m : M (result A)) (k : A -> M (result B)) :
  evolving m -> (forall a, evolving (k a)) -> evolving (bindR m k).
Proof.
  intros Hm Hk. unfold bindR. apply evolving_bind; [exact Hm |].
  intros [a | e |]; [apply Hk | apply evolving_ret | apply evolving_ret].
Qed.

Lemma evolving_main_aiSvc E req :
  evolving (Service_GenerateRecommendation (main_aiSvc E) req).
Proof.
  cbn. unfold serviceImpl_GenerateRecommendation. cbn.
  apply evolving_bindR.
  { unfold main_marketFetcher. apply evolving_bind; [apply evolving_call |].
    intros _. apply evolving_ret. }
  intros market. apply evolving_bindR.
  { unfold main_newsFetcher. apply evolving_bind; [apply evolving_call |].
    intros _. destruct (ai.Request_Instruments req); apply evolving_ret. }
  intros news. apply evolving_bindR.
  { unfold main_histFetcher. apply evolving_bind; [apply evolving_call |].
    intros _. apply evolving_ret. }
  intros hist. unfold claudeClientImpl_GenerateRecommendation.
  apply evolving_bind; [apply evolving_call |].
  intros _. destruct (String.eqb (ANTHROPIC_API_KEY E) ""); apply evolving_ret.
Qed.

Lemma evolving_enrichPrice E instrument : evolving (enrichPrice E instrument).
Proof.
  unfold enrichPrice. apply evolving_bind; [apply evolving_currentMid |].
  intros mid. destruct (mid =? 0)%float; [| apply evolving_ret].
  apply evolving_bind; [apply evolving_call |]. intros _. apply evolving_ret.
Qed.

Lemma evolving_stopDistance E req rec : evolving (stopDistance E req rec).
Proof.
  unfold stopDistance. destruct (0 <? ai.Request_StopLossPips req)%float;
    [apply evolving_ret |].
  destruct (ai.Recommendation_StopLoss rec); [| apply evolving_ret].
  apply evolving_bind; [apply evolving_currentMid |].
  intros mid. destruct (0 <? mid)%float; apply evolving_ret.
Qed.

Lemma evolving_positionSizing E req rec : evolving (positionSizing E req rec).
Proof.
  unfold positionSizing. destruct (0 <? ai.Request_Units req); [apply evolving_ret |].
  destruct (_ || _)%bool; [| apply evolving_ret].
  apply evolving_bind; [apply evolving_stopDistance |].
  intros slPips. apply evolving_bind; [apply evolving_call |].
  intros _. destruct (GetAccount E); try apply evolving_ret.
  destruct (0 <? slPips)%float; apply evolving_ret.
Qed.

Lemma evolving_persist E rec : evolving (persist E rec).
Proof.
  intros w. unfold persist. destruct (db w) as [p |] eqn:Hdb;
    [| apply world_evolves_refl].
  pose proof (evolves_CreateAIRecommendation E (aiRow E rec) p) as Hc.
  destruct (database.CreateAIRecommendation E (aiRow E rec) p) as [[id | e |] p1];
    cbn [snd] in *;
    try (eapply world_evolves_db; [exact Hdb | reflexivity | reflexivity | exact Hc]).
  pose proof (evolves_CreateRecommendation E (legacy E (set_ID id rec)) p1) as Hm.
  destruct (database.CreateRecommendation E (legacy E (set_ID id rec)) p1) as [r2 p2].
  cbn [snd] in *.
  eapply world_evolves_db; [exact Hdb | reflexivity | reflexivity |].
  eapply evolves_trans; eassumption.
Qed.

Lemma evolving_usageLog E req persistedID : evolving (usageLog E req persistedID).
Proof.
  unfold usageLog. destruct (negb _); [| apply evolving_ret].
  apply evolving_on_db. intros p.
  match goal with
  | |- context [database.CreateAIUsageLog E ?a ?b ?c ?d ?e ?f p] =>
      pose proof (evolves_CreateAIUsageLog E a b c d e f p) as H;
      destruct (database.CreateAIUsageLog E a b c d e f p) as [o p']
  end.
  exact H.
Qed.

Lemma evolving_analysisCache E req : evolving (analysisCache E req).
Proof.
  intros w. unfold analysisCache. destruct (db w) as [p |] eqn:Hdb;
    [| apply world_evolves_refl].
  destruct (ai.Request_Instruments req) as [| inst rest]; [apply world_evolves_refl |].
  unfold call. cbn.
  destruct (GetCandles E inst "M5" 20) as [[candles |] | e |];
    try (apply world_evolves_same; reflexivity).
  match goal with
  | |- context [database.InsertMarketAnalysisCache E ?a ?b ?c p] =>
      pose proof (evolves_InsertMarketAnalysisCache E a b c p) as H;
      destruct (database.InsertMarketAnalysisCache E a b c p) as [o p']
  end.
  cbn [snd] in *.
  eapply world_evolves_db; [exact Hdb | reflexivity | reflexivity | exact H].
Qed.

Lemma evolving_aiGenerateRecommendation E req :
  evolving (aiGenerateRecommendation E {| Server_ai := Some (main_aiSvc E) |} req).
Proof.
  unfold aiGenerateRecommendation. destruct req as [req |]; [| apply evolving_ret].
  cbn [Server_ai]. apply evolving_bind; [apply evolving_main_aiSvc |].
  intros [rec | e |]; try apply evolving_ret.
  apply evolving_bind; [apply evolving_enrichPrice |]. intros mid.
  apply evolving_bind; [apply evolving_positionSizing |]. intros rec1.
  apply evolving_bind; [apply evolving_persist |]. intros [rec2 persistedID].
  apply evolving_bind; [apply evolving_usageLog |]. intros _.
  apply evolving_bind; [apply evolving_analysisCache |]. intros _.
  apply evolving_ret.
Qed.

Lemma evolving_listRecommendations E : evolving (listRecommendations E).
Proof.
  intros w. unfold listRecommendations. destruct (db w) as [p |];
    [destruct (database.ListRecommendations E p) |]; apply world_evolves_refl.
Qed.

Lemma evolving_recServer_CreateRecommendation E req :
  evolving (recServer_CreateRecommendation E req).
Proof.
  intros w. unfold recServer_CreateRecommendation.
  destruct (db w) as [p |] eqn:Hdb; [| apply world_evolves_refl].
  pose proof (evolves_CreateRecommendation E (recReqToModel req) p) as H.
  destruct (database.CreateRecommendation E (recReqToModel req) p) as [[id | e |] p'];
    cbn [snd] in *;
    (eapply world_evolves_db; [exact Hdb | reflexivity | reflexivity | exact H]).
Qed.

Lemma evolving_recServer_ListRecommendations E :
  evolving (recServer_ListRecommendations E).
Proof.
  intros w. unfold recServer_ListRecommendations. destruct (db w) as [p |];
    [destruct (database.ListRecommendations E p) |]; apply world_evolves_refl.
Qed.

Lemma evolving_tradeServer_PlaceOrder E instrument units :
  evolving (tradeServer_PlaceOrder E instrument units).
Proof.
  intros w. unfold tradeServer_PlaceOrder, PlaceMarketOrder.
  match goal with
  | |- context [postMarketOrder E ?pl w] =>
      pose proof (postMarketOrder_world E pl w) as Hw;
      destruct (postMarketOrder E pl w) as [[resp | err |] w1]
  end; cbn [snd] in *; subst w1;
    try (apply world_evolves_same; reflexivity).
  cbn [db]. destruct (db w) as [p |] eqn:Hdb.
  - match goal with
    | |- context [database.CreateTrade E ?t p] =>
        pose proof (evolves_CreateTrade E t p) as H;
        destruct (database.CreateTrade E t p) as [o p']
    end.
    cbn [snd] in *.
    eapply world_evolves_db; [exact Hdb | reflexivity | reflexivity | exact H].
  - apply world_evolves_same; [cbn; symmetry; exact Hdb | reflexivity].
Qed.

Lemma world_evolves_serve E r w : world_evolves w (serve E r w).
Proof.
  destruct r; cbn [serve].
  - apply evolving_createRecommendation.
  - apply evolving_listRecommendations.
  - apply evolving_acceptRecommendation.
  - apply evolving_deleteRecommendation.
  - apply evolving_placeOrder.
  - apply evolving_aiGenerateRecommendation.
  - apply evolving_recServer_AcceptRecommendation.
  - apply evolving_recServer_CreateRecommendation.
  - apply evolving_recServer_ListRecommendations.
  - apply evolving_tradeServer_PlaceOrder.
Qed.

Lemma world_evolves_run requests : forall w, world_evolves w (run requests w).
Proof.
  induction requests as [| [E r] requests IH]; intros w; cbn.
  - apply world_evolves_refl.
  - eapply world_evolves_trans; [apply world_evolves_serve | apply IH].
Qed.

(** X1. Whatever requests the servers take, in whatever environments: no
    row ever leaves the recommendations, AI recommendations or trades
    table and no key of a row changes (the old keys stay, in place, at the
    head of the column); the audit log only grows at its end, no entry of
    it is changed or removed; and no key leaves the in-memory map. *)
Theorem requests_delete_nothing requests w p :
  db w = Some p ->
  exists p',
    db (run requests w) = Some p' /\
    recommendation_ids p `prefix_of` recommendation_ids p' /\
    ai_recommendation_ids p `prefix_of` ai_recommendation_ids p' /\
    trade_ids p `prefix_of` trade_ids p' /\
    database.audit_logs p `prefix_of` database.audit_logs p' /\
    dom (recs w) ⊆ dom (recs (run requests w)).
Proof.
  intros Hdb. destruct (world_evolves_run requests w) as [H Hrecs].
  rewrite Hdb in H. destruct (db (run requests w)) as [p' |]; [| contradiction].
  destruct H as ([H1 _] & [H2 _] & [H3 _] & H4 & _).
  exists p'. repeat split; assumption.
Qed.

Lemma requests_delete_nothing_witness :
  exists p',
    db (run [(demoEnv orderFilled noFaults, PostAIRecommend (Some sizingRequest));
             (demoEnv orderFilled noFaults, DeleteRecommendations (demoUUID 1));
             (demoEnv orderRejected tradesDown, PostRecommendationsAccept (demoUUID 0))]
          demoWorld) = Some p' /\
    recommendation_ids demoPostgres `prefix_of` recommendation_ids p' /\
    ai_recommendation_ids demoPostgres `prefix_of` ai_recommendation_ids p' /\
    trade_ids demoPostgres `prefix_of` trade_ids p' /\
    database.audit_logs demoPostgres `prefix_of` database.audit_logs p' /\
    dom (recs demoWorld) ⊆ dom (recs (run
            [(demoEnv orderFilled noFaults, PostAIRecommend (Some sizingRequest));
             (demoEnv orderFilled noFaults, DeleteRecommendations (demoUUID 1));
             (demoEnv orderRejected tradesDown, PostRecommendationsAccept (demoUUID 0))]
          demoWorld)).
Proof.
  apply (requests_delete_nothing _ demoWorld demoPostgres). reflexivity.
Defined.

(** X2. Whatever requests the servers take: if the keys of each table were
    pairwise distinct, they still are. *)
Theorem requests_keep_keys_distinct requests w p :
  db w = Some p ->
  keys_distinct p ->
  exists p', db (run requests w) = Some p' /\ keys_distinct p'.
Proof.
  intros Hdb (N1 & N2 & N3). destruct (world_evolves_run requests w) as [H _].
  rewrite Hdb in H. destruct (db (run requests w)) as [p' |]; [| contradiction].
  destruct H as ([_ H1] & [_ H2] & [_ H3] & _).
  exists p'. split; [reflexivity |]. repeat split; auto.
Qed.

Lemma requests_keep_keys_distinct_witness :
  exists p',
    db (run [(demoEnv orderFilled noFaults, PostAIRecommend (Some sizingRequest));
             (demoEnv orderFilled noFaults, PostRecommendationsAccept (demoUUID 0))]
          demoWorld) = Some p' /\ keys_distinct p'.
Proof.
  apply (requests_keep_keys_distinct _ demoWorld demoPostgres); [reflexivity |].
  repeat split; apply (bool_decide_unpack _); vm_compute; reflexivity.
Defined.

(** ** What accepting leaves of a recommendation *)

Lemma insert_desc_map {A B} (g : A -> B) (keyA : A -> Z) (keyB : B -> Z) x l :
  (forall a, keyB (g a) = keyA a) ->
  database.insert_desc keyB (g x) (map g l) = map g (database.insert_desc keyA x l).
Proof.
  intros Hkey. induction l as [| y l IH]; cbn; [reflexivity |].
  rewrite !Hkey. destruct (keyA y <? keyA x); cbn; [reflexivity |].
  rewrite IH. reflexivity.
Qed.

Lemma order_by_desc_map {A B} (g : A -> B) (keyA : A -> Z) (keyB : B -> Z) l :
  (forall a, keyB (g a) = keyA a) ->
  database.order_by_desc keyB (map g l) = map g (database.order_by_desc keyA l).
Proof.
  intros Hkey. induction l as [| y l IH]; cbn; [reflexivity |].
  unfold database.order_by_desc in IH |- *. cbn. rewrite IH. apply insert_desc_map, Hkey.
Qed.

Lemma filter_map_same {A B} (g : A -> B) (f : A -> bool) (f' : B -> bool) l :
  (forall a, f' (g a) = f a) ->
  List.filter f' (map g l) = map g (List.filter f l).
Proof.
  intros H. induction l as [| y l IH]; cbn; [reflexivity |].
  rewrite H. destruct (f y); cbn; rewrite IH; reflexivity.
Qed.

Lemma find_map_same {A B} (g : A -> B) (f : A -> bool) (f' : B -> bool) l :
  (forall a, f' (g a) = f a) ->
  List.find f' (map g l) = option_map g (List.find f l).
Proof.
  intros H. induction l as [| y l IH]; cbn; [reflexivity |].
  rewrite H. destruct (f y); [reflexivity | exact IH].
Qed.

Lemma ListRecommendations_marked E id tradeID now p p' :
  database.recommendations p'
  = map (database.update_executed id tradeID now) (database.recommendations p) ->
  database.ListRecommendations E p'
  = match database.ListRecommendations E p with
    | Ok list =>
        Ok (map (fun c => if String.eqb (models.Recommendation_ID c) id
                          then database.set_executed tradeID now c else c) list)
    | other => other
    end.
Proof.
  intros Hrows. unfold database.ListRecommendations. rewrite Hrows.
  destruct (db_err E SelectRecommendations); [reflexivity |]. f_equal.
  rewrite (filter_map_same (database.update_executed id tradeID now)
             (fun x => match database.rec_deleted_at x with
                       | None => true | Some _ => false end)).
  2:{ intros a. unfold database.update_executed.
      destruct (String.eqb _ id); reflexivity. }
  match goal with
  | |- context [map database.rec_columns (map ?u ?l)] =>
      replace (map database.rec_columns (map u l))
        with (map (fun c => if String.eqb (models.Recommendation_ID c) id
                            then database.set_executed tradeID now c else c)
                (map database.rec_columns l))
  end.
  2:{ rewrite !map_map. apply map_ext. intros a. unfold database.update_executed.
      destruct (String.eqb _ id); reflexivity. }
  rewrite (order_by_desc_map _ models.Recommendation_CreatedAt).
  2:{ intros a. destruct (String.eqb _ id); reflexivity. }
  rewrite List.firstn_map. reflexivity.
Qed.

Lemma ListAIRecommendations_marked E limit id tradeID now p p' :
  database.ai_recommendations p'
  = map (database.update_ai_executed id tradeID now) (database.ai_recommendations p) ->
  database.ListAIRecommendations E limit p'
  = match database.ListAIRecommendations E limit p with
    | Ok list => Ok (map (database.update_ai_executed id tradeID now) list)
    | other => other
    end.
Proof.
  intros Hrows. unfold database.ListAIRecommendations. rewrite Hrows.
  destruct (db_err E SelectAIRecommendations); [reflexivity |]. f_equal.
  rewrite (order_by_desc_map _ models.AIRecommendation_CreatedAt).
  2:{ intros a. unfold database.update_ai_executed.
      destruct (String.eqb _ id); reflexivity. }
  rewrite List.firstn_map. reflexivity.
Qed.

Lemma findLegacy_marked E' id' id tradeID now w w' p p' :
  db w = Some p -> db w' = Some p' ->
  database.recommendations p'
  = map (database.update_executed id tradeID now) (database.recommendations p) ->
  findLegacy E' id' w' = findLegacy E' id' w.
Proof.
  intros Hdb Hdb' Hrows. unfold findLegacy. rewrite Hdb, Hdb'.
  rewrite (ListRecommendations_marked E' id tradeID now p p' Hrows).
  destruct (database.ListRecommendations E' p) as [list | |]; try reflexivity.
  rewrite (find_map_same _ (fun item => String.eqb (models.Recommendation_ID item) id')).
  2:{ intros a. destruct (String.eqb _ id); reflexivity. }
  destruct (List.find _ list) as [item |]; cbn [option_map]; [| reflexivity].
  destruct (String.eqb _ id); reflexivity.
Qed.

Lemma findAI_marked E' id' id tradeID now w w' p p' :
  db w = Some p -> db w' = Some p' ->
  database.ai_recommendations p'
  = map (database.update_ai_executed id tradeID now) (database.ai_recommendations p) ->
  findAI E' id' w' = findAI E' id' w.
Proof.
  intros Hdb Hdb' Hrows. unfold findAI. rewrite Hdb, Hdb'.
  rewrite (ListAIRecommendations_marked E' 200 id tradeID now p p' Hrows).
  destruct (database.ListAIRecommendations E' 200 p) as [list | |]; try reflexivity.
  rewrite (find_map_same _ (fun item => String.eqb (models.AIRecommendation_ID item) id')).
  2:{ intros a. unfold database.update_ai_executed.
      destruct (String.eqb _ id); reflexivity. }
  destruct (List.find _ list) as [item |]; cbn [option_map]; [| reflexivity].
  unfold database.update_ai_executed. destruct (String.eqb _ id); reflexivity.
Qed.

Lemma findLegacy_same E' id' w w' p p' :
  db w = Some p -> db w' = Some p' ->
  database.recommendations p' = database.recommendations p ->
  findLegacy E' id' w' = findLegacy E' id' w.
Proof.
  intros Hdb Hdb' Hrows. unfold findLegacy, database.ListRecommendations.
  rewrite Hdb, Hdb', Hrows. reflexivity.
Qed.

Lemma findAI_same E' id' w w' p p' :
  db w = Some p -> db w' = Some p' ->
  database.ai_recommendations p' = database.ai_recommendations p ->
  findAI E' id' w' = findAI E' id' w.
Proof.
  intros Hdb Hdb' Hrows. unfold findAI, database.ListAIRecommendations.
  rewrite Hdb, Hdb', Hrows. reflexivity.
Qed.

Lemma resolves_alike_refl w : resolves_alike w w.
Proof. split; [reflexivity | intros; split; reflexivity]. Qed.

Lemma resolves_alike_trans w1 w2 w3 :
  resolves_alike w1 w2 -> resolves_alike w2 w3 -> resolves_alike w1 w3.
Proof.
  intros [H1 H1'] [H2 H2']. split; [congruence |].
  intros E id. destruct (H1' E id), (H2' E id). split; congruence.
Qed.

Lemma resolves_alike_same w w' :
  db w' = db w -> recs w' = recs w -> resolves_alike w w'.
Proof.
  intros Hdb Hrecs. split; [exact Hrecs |].
  intros E id. unfold findLegacy, findAI. rewrite Hdb. split; reflexivity.
Qed.

Lemma resolves_alike_resolve E id w w' :
  resolves_alike w w' -> resolve E id w' = resolve E id w.
Proof.
  intros [Hrecs H]. destruct (H E id) as [H1 H2].
  unfold resolve, findMemory. rewrite H1, H2, Hrecs. reflexivity.
Qed.

Lemma audit_tables E entity entityID action details p :
  database.recommendations (snd (database.audit E entity entityID action details p))
  = database.recommendations p /\
  database.ai_recommendations (snd (database.audit E entity entityID action details p))
  = database.ai_recommendations p /\
  database.trades (snd (database.audit E entity entityID action details p))
  = database.trades p.
Proof.
  unfold database.audit. destruct (db_err E _); cbn; repeat split; reflexivity.
Qed.

Lemma CreateTrade_tables E t p :
  database.recommendations (snd (database.CreateTrade E t p))
  = database.recommendations p /\
  database.ai_recommendations (snd (database.CreateTrade E t p))
  = database.ai_recommendations p.
Proof.
  unfold database.CreateTrade. destruct (db_err E InsertTrade); [split; reflexivity |].
  destruct (database.coalesce_id E (models.Trade_ID t) p) as [[id | e |] p1] eqn:Hid;
    try (split; reflexivity).
  destruct (existsb _ _); [split; reflexivity |].
  destruct (coalesce_id_tables E (models.Trade_ID t) p) as (H1 & H2 & H3).
  rewrite Hid in H1, H2, H3. cbn [snd] in *.
  match goal with
  | |- context [database.audit E ?a ?b ?c ?d ?q] =>
      destruct (audit_tables E a b c d q) as (A1 & A2 & _);
      destruct (database.audit E a b c d q) as [o p3]
  end.
  cbn [snd] in *. rewrite A1, A2. cbn. split; congruence.
Qed.

Lemma resolves_alike_Mark E id tradeID w w' p :
  db w = Some p ->
  db w' = Some (snd (database.MarkRecommendationExecuted E id tradeID p)) ->
  recs w' = recs w ->
  resolves_alike w w'.
Proof.
  intros Hdb Hdb' Hrecs. split; [exact Hrecs |]. intros E' id'.
  unfold database.MarkRecommendationExecuted in Hdb'.
  destruct (db_err E UpdateRecommendationExecuted).
  - cbn [snd] in Hdb'. unfold findLegacy, findAI. rewrite Hdb, Hdb'. split; reflexivity.
  - match type of Hdb' with
    | context [database.audit E ?a ?b ?c ?d ?q] =>
        destruct (audit_tables E a b c d q) as (A1 & A2 & _);
        destruct (database.audit E a b c d q) as [o p2]
    end.
    cbn [snd] in *. split.
    + eapply findLegacy_marked; [exact Hdb | exact Hdb' |]. rewrite A1. reflexivity.
    + eapply findAI_same; [exact Hdb | exact Hdb' |]. rewrite A2. reflexivity.
Qed.

Lemma resolves_alike_MarkAI E id tradeID w w' p :
  db w = Some p ->
  db w' = Some (snd (database.MarkAIRecommendationExecuted E id tradeID p)) ->
  recs w' = recs w ->
  resolves_alike w w'.
Proof.
  intros Hdb Hdb' Hrecs. split; [exact Hrecs |]. intros E' id'.
  unfold database.MarkAIRecommendationExecuted in Hdb'.
  destruct (db_err E UpdateAIRecommendationExecuted).
  - cbn [snd] in Hdb'. unfold findLegacy, findAI. rewrite Hdb, Hdb'. split; reflexivity.
  - match type of Hdb' with
    | context [database.audit E ?a ?b ?c ?d ?q] =>
        destruct (audit_tables E a b c d q) as (A1 & A2 & _);
        destruct (database.audit E a b c d q) as [o p2]
    end.
    cbn [snd] in *. split.
    + eapply findLegacy_same; [exact Hdb | exact Hdb' |]. rewrite A1. reflexivity.
    + eapply findAI_marked; [exact Hdb | exact Hdb' |]. rewrite A2. reflexivity.
Qed.

Lemma resolves_alike_CreateTrade E t w w' p :
  db w = Some p ->
  db w' = Some (snd (database.CreateTrade E t p)) ->
  recs w' = recs w ->
  resolves_alike w w'.
Proof.
  intros Hdb Hdb' Hrecs. split; [exact Hrecs |]. intros E' id'.
  destruct (CreateTrade_tables E t p) as [H1 H2]. split.
  - eapply findLegacy_same; [exact Hdb | exact Hdb' | exact H1].
  - eapply findAI_same; [exact Hdb | exact Hdb' | exact H2].
Qed.

Lemma reconcile_resolves_alike E id x units resp w :
  resolves_alike w (snd (reconcile E id x units resp w)).
Proof.
  unfold reconcile. destruct (db w) as [p |] eqn:Hdb; [| apply resolves_alike_refl].
  assert (Hmark : forall w1, db w1 = Some (snd (if resolved_isAI x
             then database.MarkAIRecommendationExecuted E id
                    (broker.OrderCreateTransaction_ID resp) p
             else database.MarkRecommendationExecuted E id
                    (broker.OrderCreateTransaction_ID resp) p)) ->
           recs w1 = recs w -> resolves_alike w w1).
  { intros w1 H1 H2. destruct (resolved_isAI x);
      [eapply resolves_alike_MarkAI | eapply resolves_alike_Mark]; eassumption. }
  destruct (if resolved_isAI x then _ else _) as [o p1]. cbn [snd] in Hmark.
  unfold currentMid, bind, call, ret. cbn [db with_db recs calls].
  match goal with
  | |- context [database.CreateTrade E ?t p1] =>
      pose proof (fun w1 w2 => resolves_alike_CreateTrade E t w1 w2 p1) as Htrade;
      destruct (database.CreateTrade E t p1) as [o2 p2]
  end.
  cbn [snd] in *.
  eapply resolves_alike_trans.
  - apply (Hmark (with_db (Some p1) w)); reflexivity.
  - apply Htrade; reflexivity.
Qed.

Lemma submit_resolves_alike E x w : resolves_alike w (snd (submit E x w)).
Proof.
  destruct (submit_world E x w) as [H1 H2]. apply resolves_alike_same; assumption.
Qed.

Lemma acceptRecommendation_resolves_alike E id w :
  resolves_alike w (snd (acceptRecommendation E id w)).
Proof.
  unfold acceptRecommendation. destruct (resolve E id w) as [x |];
    [| apply resolves_alike_refl].
  pose proof (submit_resolves_alike E x w) as Hs.
  destruct (submit E x w) as [[resp | err |] w1]; cbn [snd] in *; try exact Hs.
  pose proof (reconcile_resolves_alike E id x (orderUnits (resolved_r x)) resp w1) as Hr.
  destruct (reconcile E id x (orderUnits (resolved_r x)) resp w1) as [u w2].
  cbn [snd] in *. eapply resolves_alike_trans; eassumption.
Qed.

(** X3. Accepting never changes what an identifier resolves to: after any
    accept call, whatever its outcome, every identifier (the accepted one
    included) resolves to the same recommendation, with the same units,
    direction and brackets, as before. The status written by the
    reconciliation is not among what the lookups read, so an executed
    recommendation is found again by the next accept call. *)
Theorem accept_keeps_resolution E id w E' id' :
  resolve E' id' (snd (acceptRecommendation E id w)) = resolve E' id' w.
Proof.
  apply resolves_alike_resolve, acceptRecommendation_resolves_alike.
Qed.

(** ** The listings *)

Lemma insert_desc_Permutation {A} (key : A -> Z) x l :
  database.insert_desc key x l ≡ₚ x :: l.
Proof.
  induction l as [| y l IH]; cbn; [reflexivity |].
  destruct (key y <? key x); [reflexivity |].
  rewrite IH. apply Permutation_swap.
Qed.

Lemma order_by_desc_Permutation {A} (key : A -> Z) (l : list A) :
  database.order_by_desc key l ≡ₚ l.
Proof.
  induction l as [| y l IH]; cbn; [reflexivity |].
  rewrite insert_desc_Permutation. unfold database.order_by_desc in IH.
  rewrite IH. reflexivity.
Qed.

Lemma insert_desc_newest_first {A} (key : A -> Z) x l :
  newest_first key l -> newest_first key (database.insert_desc key x l).
Proof.
  unfold newest_first. induction l as [| y l IH]; intros Hs; cbn.
  - constructor; constructor.
  - apply StronglySorted_inv in Hs. destruct Hs as [Hs Hy].
    destruct (key y <? key x) eqn:Hlt.
    + apply Z.ltb_lt in Hlt. constructor.
      * constructor; assumption.
      * constructor; [lia |].
        rewrite List.Forall_forall in Hy |- *. intros b Hb. specialize (Hy b Hb). lia.
    + apply Z.ltb_ge in Hlt. constructor; [apply IH, Hs |].
      rewrite List.Forall_forall in Hy |- *. intros b Hb.
      apply In_insert_desc in Hb. destruct Hb as [-> | Hb]; [lia | apply Hy, Hb].
Qed.

Lemma order_by_desc_newest_first {A} (key : A -> Z) (l : list A) :
  newest_first key (database.order_by_desc key l).
Proof.
  induction l as [| y l IH]; cbn.
  - constructor.
  - apply insert_desc_newest_first, IH.
Qed.

Lemma firstn_newest_first {A} (key : A -> Z) n (l : list A) :
  newest_first key l -> newest_first key (List.firstn n l).
Proof.
  unfold newest_first. revert l. induction n as [| n IH]; intros [| y l] Hs; cbn;
    try constructor.
  - apply IH. apply StronglySorted_inv in Hs. apply Hs.
  - apply StronglySorted_inv in Hs. destruct Hs as [_ Hy].
    rewrite List.Forall_forall in Hy |- *. intros b Hb. apply Hy.
    eapply In_firstn_In, Hb.
Qed.


(** X4. [ListRecommendations], when its query succeeds, returns at most 200
    rows, no entry newer than one before it, each of them a row of the
    table that is not soft-deleted; and when the table holds at most 200
    such rows it returns them all, each once. *)
Theorem list_recommendations_newest_first E p rows :
  database.ListRecommendations E p = Ok rows ->
  (length rows <= 200)%nat /\
  newest_first models.Recommendation_CreatedAt rows /\
  (forall r, In r rows ->
     exists x, In x (database.recommendations p) /\
               database.rec_deleted_at x = None /\ database.rec_columns x = r) /\
  ((length (live_recommendations p) <= 200)%nat -> rows ≡ₚ live_recommendations p).
Proof.
  unfold database.ListRecommendations.
  destruct (db_err E SelectRecommendations); [discriminate |].
  intros H. injection H as <-. repeat split.
  - apply List.firstn_le_length.
  - apply firstn_newest_first, order_by_desc_newest_first.
  - intros r Hr. apply In_firstn_In, In_order_by_desc, in_map_iff in Hr.
    destruct Hr as (x & <- & Hx). apply List.filter_In in Hx. destruct Hx as [Hx Hlive].
    exists x. repeat split; [exact Hx |]. destruct (database.rec_deleted_at x);
      [discriminate | reflexivity].
  - intros Hlen. fold live. fold (live_recommendations p).
    rewrite List.firstn_all2.
    + apply order_by_desc_Permutation.
    + rewrite (Permutation_length (order_by_desc_Permutation _ _)). exact Hlen.
Qed.

Lemma list_recommendations_newest_first_witness :
  exists rows,
    database.ListRecommendations (demoEnv orderFilled noFaults) demoPostgres = Ok rows /\
    (length rows <= 200)%nat /\
    newest_first models.Recommendation_CreatedAt rows.
Proof.
  eexists. split; [reflexivity |].
  destruct (list_recommendations_newest_first (demoEnv orderFilled noFaults)
              demoPostgres _ eq_refl) as (H1 & H2 & _).
  split; [exact H1 | exact H2].
Defined.

(** ** Soft deletion *)

Lemma SoftDeleteRecommendation_rows E id p :
  db_err E UpdateRecommendationDeleted = None ->
  fst (database.SoftDeleteRecommendation E id p) = None /\
  database.recommendations (snd (database.SoftDeleteRecommendation E id p))
  = map (soft_deleted E id) (database.recommendations p) /\
  database.audit_logs (snd (database.SoftDeleteRecommendation E id p))
  = match db_err E (InsertAudit "recommendations" "DELETE") with
    | Some _ => database.audit_logs p
    | None => (database.audit_logs p ++ [deleteAudit E id])%list
    end.
Proof.
  intros Hok. unfold database.SoftDeleteRecommendation, database.audit. rewrite Hok.
  destruct (db_err E (InsertAudit "recommendations" "DELETE")); cbn;
    repeat split; reflexivity.
Qed.

Lemma soft_deleted_not_live E id x :
  models.Recommendation_ID (database.rec_columns x) = id ->
  live (soft_deleted E id x) = false.
Proof.
  intros <-. unfold soft_deleted. rewrite String.eqb_refl. cbn.
  destruct (live x) eqn:Hl; [reflexivity | exact Hl].
Qed.

Lemma soft_deleted_columns E id x :
  database.rec_columns (soft_deleted E id x) = database.rec_columns x.
Proof. unfold soft_deleted. destruct (_ && _)%bool; reflexivity. Qed.

Lemma deleted_not_listed E E' id p rows :
  db_err E UpdateRecommendationDeleted = None ->
  database.ListRecommendations E' (snd (database.SoftDeleteRecommendation E id p))
  = Ok rows ->
  ~ In id (map models.Recommendation_ID rows).
Proof.
  intros Hok Hlist Hin. apply in_map_iff in Hin. destruct Hin as (r & Hid & Hr).
  destruct (SoftDeleteRecommendation_rows E id p Hok) as (_ & Hrows & _).
  unfold database.ListRecommendations in Hlist.
  destruct (db_err E' SelectRecommendations); [discriminate |].
  injection Hlist as <-. rewrite Hrows in Hr.
  apply In_firstn_In, In_order_by_desc, in_map_iff in Hr.
  destruct Hr as (x & <- & Hx). apply List.filter_In in Hx. destruct Hx as [Hx Hlive].
  apply in_map_iff in Hx. destruct Hx as (y & <- & _).
  rewrite soft_deleted_columns in Hid. fold (live (soft_deleted E id y)) in Hlive.
  rewrite (soft_deleted_not_live E id y Hid) in Hlive. discriminate.
Qed.

Lemma deleteRecommendation_answered E id w :
  (exists code payload, fst (deleteRecommendation E id w) = Answered code payload) ->
  exists p, db w = Some p /\ db_err E UpdateRecommendationDeleted = None /\
            fst (deleteRecommendation E id w) = Answered 200 id /\
            snd (deleteRecommendation E id w)
            = with_db (Some (snd (database.SoftDeleteRecommendation E id p))) w.
Proof.
  intros (code & payload & H). unfold deleteRecommendation in *.
  destruct (db w) as [p |]; [| discriminate]. exists p.
  unfold database.SoftDeleteRecommendation in *.
  destruct (db_err E UpdateRecommendationDeleted); [discriminate |].
  destruct (database.audit E _ _ _ _ _) as [o p2]. repeat split.
Qed.

(** X5. After a delete that was answered with success, the recommendation
    is gone for every reader, in whatever environment: the listing does not
    show its identifier, the legacy lookup of [acceptRecommendation] does
    not find it, and the gRPC accept places no order for it and writes
    nothing; yet its row is still in the table. *)
Theorem deleted_recommendation_not_found E id w code payload :
  fst (deleteRecommendation E id w) = Answered code payload ->
  let w' := snd (deleteRecommendation E id w) in
  code = 200 /\ payload = id /\
  (forall p, db w = Some p ->
     exists p', db w' = Some p' /\ recommendation_ids p' = recommendation_ids p) /\
  forall E',
    (forall rows, fst (listRecommendations E' w') = Answered 200 (FromDatabase rows) ->
                  ~ In id (map models.Recommendation_ID rows)) /\
    findLegacy E' id w' = None /\
    (forall result, fst (recServer_AcceptRecommendation E' id w') <> Ok result) /\
    snd (recServer_AcceptRecommendation E' id w') = w'.
Proof.
  intros Hans w'.
  destruct (deleteRecommendation_answered E id w (ex_intro _ code (ex_intro _ payload Hans)))
    as (p & Hdb & Hok & Hfst & Hsnd).
  rewrite Hfst in Hans. injection Hans as <- <-.
  assert (Hdb' : db w' = Some (snd (database.SoftDeleteRecommendation E id p))).
  { unfold w'. rewrite Hsnd. reflexivity. }
  split; [reflexivity |]. split; [reflexivity |]. split.
  { intros p0 Hp0. rewrite Hdb in Hp0. injection Hp0 as <-.
    eexists. split; [exact Hdb' |].
    destruct (SoftDeleteRecommendation_rows E id p Hok) as (_ & Hrows & _).
    unfold recommendation_ids. rewrite Hrows, map_map. apply map_ext.
    intros x. rewrite soft_deleted_columns. reflexivity. }
  intros E'.
  pose proof (deleted_not_listed E E' id p) as Hnot.
  repeat split.
  - intros rows. unfold listRecommendations. rewrite Hdb'.
    destruct (database.ListRecommendations E' _) as [l | e |] eqn:Hl; cbn [fst];
      intros H; inversion H; subst. eapply Hnot; [exact Hok | reflexivity].
  - unfold findLegacy. rewrite Hdb'.
    destruct (database.ListRecommendations E' _) as [l | e |] eqn:Hl; try reflexivity.
    rewrite (find_absent models.Recommendation_ID id l); [reflexivity |].
    eapply Hnot; [exact Hok | reflexivity].
  - intros result. unfold recServer_AcceptRecommendation. rewrite Hdb'.
    destruct (database.ListRecommendations E' _) as [l | e |] eqn:Hl; cbn [fst];
      try discriminate.
    rewrite (find_absent models.Recommendation_ID id l); [discriminate |].
    eapply Hnot; [exact Hok | reflexivity].
  - unfold recServer_AcceptRecommendation. rewrite Hdb'.
    destruct (database.ListRecommendations E' _) as [l | e |] eqn:Hl; cbn [snd];
      try reflexivity.
    rewrite (find_absent models.Recommendation_ID id l); [reflexivity |].
    eapply Hnot; [exact Hok | reflexivity].
Qed.

Lemma deleted_recommendation_not_found_witness :
  findLegacy (demoEnv orderFilled noFaults) (demoUUID 1)
    (snd (deleteRecommendation (demoEnv orderFilled noFaults) (demoUUID 1) demoWorld))
  = None.
Proof.
  apply (deleted_recommendation_not_found (demoEnv orderFilled noFaults) (demoUUID 1)
           demoWorld 200 (demoUUID 1) eq_refl).
Defined.

(** X6. Deleting, when the table holds no row under the identifier that is
    not already soft-deleted (the identifier is unknown, or its row was
    deleted before), is answered with success all the same, never with a
    not-found: no row changes (a row deleted before keeps the time of its
    first deletion) and an audit DELETE row for the identifier is appended,
    unless the audit insert fails. *)
Theorem delete_without_live_row E id w p :
  db w = Some p ->
  db_err E UpdateRecommendationDeleted = None ->
  (forall x, In x (database.recommendations p) ->
             models.Recommendation_ID (database.rec_columns x) = id -> live x = false) ->
  fst (deleteRecommendation E id w) = Answered 200 id /\
  exists p',
    db (snd (deleteRecommendation E id w)) = Some p' /\
    database.recommendations p' = database.recommendations p /\
    database.audit_logs p'
    = match db_err E (InsertAudit "recommendations" "DELETE") with
      | Some _ => database.audit_logs p
      | None => (database.audit_logs p ++ [deleteAudit E id])%list
      end.
Proof.
  intros Hdb Hok Hnone.
  destruct (SoftDeleteRecommendation_rows E id p Hok) as (Hfst & Hrows & Haud).
  unfold deleteRecommendation. rewrite Hdb.
  destruct (database.SoftDeleteRecommendation E id p) as [o p'] eqn:Hdel.
  cbn [fst snd] in *. subst o. split; [reflexivity |].
  exists p'. split; [reflexivity |]. split; [| exact Haud].
  rewrite Hrows. rewrite <- (map_id (database.recommendations p)) at 2.
  apply map_ext_in. intros x Hx. unfold soft_deleted.
  destruct (String.eqb _ id) eqn:Heq; [| reflexivity].
  apply String.eqb_eq in Heq. rewrite (Hnone x Hx Heq). reflexivity.
Qed.

Lemma delete_without_live_row_witness :
  fst (deleteRecommendation (demoEnv orderFilled noFaults) (demoUUID 2) demoWorld)
  = Answered 200 (demoUUID 2).
Proof.
  apply (delete_without_live_row (demoEnv orderFilled noFaults) (demoUUID 2) demoWorld
           demoPostgres eq_refl eq_refl).
  intros x Hx Hid. vm_compute in Hx.
  destruct Hx as [<- | [<- | []]]; [vm_compute in Hid; discriminate | reflexivity].
Defined.

(** ** Creating, then finding *)






(** X8. A recommendation whose identifier the database does not read as a
    uuid (so every recommendation posted without an identifier, which gets
    a timestamp for one) is answered 201 on a server with a database, yet
    no statement changes the database: [recs] takes the entry. The listing
    of the database, which is all that [listRecommendations] shows on such
    a server, is what it was; accept still resolves the identifier, from
    [recs], when no table holds it. *)
Theorem created_without_uuid_kept_in_memory E body w p :
  db w = Some p ->
  ID (stamped E body) <> "" ->
  uuid_in E (ID (stamped E body)) = false ->
  let w' := snd (createRecommendation E (Some body) w) in
  fst (createRecommendation E (Some body) w) = JSON 201 (H_created (stamped E body)) /\
  db w' = Some p /\
  recs w' = <[ID (stamped E body) := stamped E body]> (recs w) /\
  forall E',
    fst (listRecommendations E' w') = fst (listRecommendations E' w) /\
    (~ In (ID (stamped E body)) (recommendation_ids p) ->
     ~ In (ID (stamped E body)) (ai_recommendation_ids p) ->
     resolve E' (ID (stamped E body)) w' = Some (plain (stamped E body))).
Proof.
  intros Hdb Hid Huuid w'. subst w'. unfold createRecommendation.
  fold (stamped E body). rewrite Hdb.
  unfold database.CreateRecommendation, database.coalesce_id.
  cbn [models.Recommendation_ID]. apply String.eqb_neq in Hid. rewrite Hid, Huuid.
  destruct (db_err E InsertRecommendation); cbn [fst snd db recs with_db with_recs];
    (split; [reflexivity |]; split; [reflexivity |]; split; [reflexivity |]);
    intros E'; (split; [unfold listRecommendations; cbn [db with_db with_recs];
                        rewrite Hdb;
                        destruct (database.ListRecommendations E' p); reflexivity |]);
    intros H1 H2; unfold resolve;
    (rewrite findLegacy_absent by (cbn [db with_db with_recs]; intros p0 Hp0;
                                   injection Hp0 as <-; exact H1));
    (rewrite findAI_absent by (cbn [db with_db with_recs]; intros p0 Hp0;
                               injection Hp0 as <-; exact H2));
    unfold findMemory; cbn [recs with_recs with_db]; rewrite lookup_insert_eq;
    reflexivity.
Qed.

Lemma created_without_uuid_kept_in_memory_witness :
  db (snd (createRecommendation (demoEnv orderFilled noFaults) (Some manualBody) demoWorld))
  = Some demoPostgres /\
  resolve (demoEnv orderFilled noFaults) "20260101000000"
    (snd (createRecommendation (demoEnv orderFilled noFaults) (Some manualBody) demoWorld))
  = Some (plain (stamped (demoEnv orderFilled noFaults) manualBody)).
Proof.
  destruct (created_without_uuid_kept_in_memory (demoEnv orderFilled noFaults) manualBody
              demoWorld demoPostgres eq_refl) as (_ & H1 & _ & H2).
  - discriminate.
  - reflexivity.
  - split; [exact H1 |].
    apply (H2 (demoEnv orderFilled noFaults)); vm_compute;
      [intros [H | [H | []]] | intros [H | []]]; discriminate.
Defined.

(** ** Placing an order *)

Lemma placeOrder_posts E req w :
  match OrderBody_StopLoss req, OrderBody_TakeProfit req with
  | None, None => PlaceMarketOrder E (OrderBody_Instrument req) (OrderBody_Units req) w
  | sl, tp =>
      PlaceMarketOrderWithBrackets E (OrderBody_Instrument req) (OrderBody_Units req)
        sl tp w
  end = postMarketOrder E (orderPayload E req) w.
Proof.
  unfold PlaceMarketOrder, PlaceMarketOrderWithBrackets, orderPayload.
  destruct (OrderBody_StopLoss req), (OrderBody_TakeProfit req); reflexivity.
Qed.

Lemma postMarketOrder_calls E payload w :
  calls (snd (postMarketOrder E payload w)) = (calls w ++ [CallPostOrder payload])%list.
Proof. reflexivity. Qed.

Lemma CreateTrade_drawn E t p :
  db_err E InsertTrade = None ->
  models.Trade_ID t = "" ->
  ~ In (gen_random_uuid E (database.uuid_drawn p)) (trade_ids p) ->
  let p' := snd (database.CreateTrade E t p) in
  database.trades p'
  = (database.trades p
     ++ [{| database.trade_columns :=
              database.set_Trade_ID_times (gen_random_uuid E (database.uuid_drawn p))
                (NOW E) t;
            database.trade_deleted_at := None |}])%list /\
  database.audit_logs p'
  = match db_err E (InsertAudit "trades" "CREATE") with
    | Some _ => database.audit_logs p
    | None =>
        (database.audit_logs p
         ++ [tradeAudit E "" (models.Trade_Instrument t) (models.Trade_Direction t)
               (models.Trade_Units t)])%list
    end.
Proof.
  intros Hok Hid Hfresh. unfold database.CreateTrade, database.coalesce_id.
  rewrite Hok, Hid. cbn [String.eqb].
  cbn [database.trades database.with_uuid_drawn].
  rewrite (not_In_existsb_false
             (fun x => models.Trade_ID (database.trade_columns x)) _ _ Hfresh).
  unfold database.audit, tradeAudit.
  destruct (db_err E (InsertAudit "trades" "CREATE")); cbn; split; reflexivity.
Qed.

(** X9. An order that [placeOrder] does not answer with success has
    changed nothing: the database and [recs] are what they were, and the
    only call made is the one post of the order to the broker (none for a
    body that could not be read). *)
Theorem place_order_refused E body w :
  (forall resp, fst (placeOrder E body w) <> Answered 200 resp) ->
  db (snd (placeOrder E body w)) = db w /\
  recs (snd (placeOrder E body w)) = recs w /\
  calls (snd (placeOrder E body w))
  = match body with
    | Some req => (calls w ++ [CallPostOrder (orderPayload E req)])%list
    | None => calls w
    end.
Proof.
  intros Hno. unfold placeOrder in *. destruct body as [req |];
    [| repeat split; reflexivity].
  rewrite placeOrder_posts in *.
  pose proof (postMarketOrder_world E (orderPayload E req) w) as Hw.
  destruct (postMarketOrder E (orderPayload E req) w) as [[resp | err |] w1];
    cbn [fst snd] in *; subst w1; cbn [db recs calls]; try (repeat split; reflexivity).
  exfalso. cbn [db] in Hno. destruct (db w) as [p |].
  - destruct (currentMid E 0 _ _) as [entry w2].
    destruct (database.CreateTrade E _ p) as [o p']. apply (Hno resp). reflexivity.
  - apply (Hno resp). reflexivity.
Qed.

Lemma place_order_refused_witness :
  db (snd (placeOrder (demoEnv orderRejected noFaults) (Some demoOrder) demoWorld))
  = Some demoPostgres.
Proof.
  apply (place_order_refused (demoEnv orderRejected noFaults) (Some demoOrder) demoWorld).
  intros resp. vm_compute. discriminate.
Defined.

(** X10. An order the broker fills, on a server with a database whose
    trade insert succeeds and draws a new identifier, is answered with
    success and leaves exactly one new row in the trades table: open, for
    the instrument and the units of the request, BUY for units that are
    not negative and SELL otherwise, with the broker's order identifier and
    the current mid (or zero) as entry price. The payload posted leaves out
    a stop loss or take profit that is absent or not positive. No
    recommendation of either form is touched, and the audit row of the
    trade, when it is written, is keyed by the empty identifier, not by the
    identifier the database drew. *)
Theorem place_order_recorded E req w p resp :
  db w = Some p ->
  fst (postMarketOrder E (orderPayload E req) w) = Ok resp ->
  db_err E InsertTrade = None ->
  ~ In (gen_random_uuid E (database.uuid_drawn p)) (trade_ids p) ->
  fst (placeOrder E (Some req) w) = Answered 200 resp /\
  calls (snd (placeOrder E (Some req) w))
  = (calls w ++ [CallPostOrder (orderPayload E req);
                 CallGetPrices [OrderBody_Instrument req]])%list /\
  exists p',
    db (snd (placeOrder E (Some req) w)) = Some p' /\
    database.trades p' = (database.trades p ++ [orderTrade E p req resp])%list /\
    database.recommendations p' = database.recommendations p /\
    database.ai_recommendations p' = database.ai_recommendations p /\
    database.audit_logs p'
    = match db_err E (InsertAudit "trades" "CREATE") with
      | Some _ => database.audit_logs p
      | None =>
          (database.audit_logs p
           ++ [tradeAudit E "" (OrderBody_Instrument req)
                 (if (0 <=? OrderBody_Units req)%float then "BUY" else "SELL")
                 (OrderBody_Units req)])%list
      end.
Proof.
  intros Hdb Hpost Hok Hfresh. unfold placeOrder. rewrite placeOrder_posts.
  pose proof (postMarketOrder_world E (orderPayload E req) w) as Hw.
  destruct (postMarketOrder E (orderPayload E req) w) as [placed w1].
  cbn [fst snd] in *. subst placed w1. cbn [db]. rewrite Hdb.
  unfold currentMid, bind, call, ret. cbn [db recs calls].
  match goal with
  | |- context [database.CreateTrade E ?t p] =>
      destruct (CreateTrade_drawn E t p Hok eq_refl Hfresh) as [Htrades Haudit];
      destruct (CreateTrade_tables E t p) as [Hrecs Hai];
      destruct (database.CreateTrade E t p) as [o p']
  end.
  cbn [fst snd db calls with_db] in *. split; [reflexivity |]. split.
  - rewrite <- app_assoc. reflexivity.
  - exists p'. repeat split; assumption.
Qed.

Lemma place_order_recorded_witness :
  exists p',
    db (snd (placeOrder (demoEnv orderFilled noFaults) (Some demoOrder) demoWorld))
    = Some p' /\
    database.trades p'
    = [orderTrade (demoEnv orderFilled noFaults) demoPostgres demoOrder
         {| broker.OrderCreateTransaction_ID := "6357" |}].
Proof.
  destruct (place_order_recorded (demoEnv orderFilled noFaults) demoOrder demoWorld
              demoPostgres {| broker.OrderCreateTransaction_ID := "6357" |})
    as (_ & _ & p' & H1 & H2 & _).
  - reflexivity.
  - reflexivity.
  - reflexivity.
  - vm_compute. intros [].
  - exists p'. split; [exact H1 | exact H2].
Defined.

(** ** The gRPC accept *)

Lemma reconcile_calls E id x units resp w :
  exists rest, calls (snd (reconcile E id x units resp w)) = (calls w ++ rest)%list.
Proof.
  unfold reconcile. destruct (db w) as [p |].
  - destruct (if resolved_isAI x then _ else _) as [o p1].
    unfold currentMid, bind, call, ret. cbn [db with_db recs calls].
    destruct (database.CreateTrade E _ p1) as [o2 p2]. cbn. eexists. reflexivity.
  - exists []. cbn. rewrite app_nil_r. reflexivity.
Qed.

(** X11. The gRPC accept looks in the legacy listing only and, for the row
    it finds, posts one market order without brackets for the stored units
    as they are, whatever the stored direction; the REST accept of the
    same row posts the negated units when the direction is SELL. The gRPC
    accept never writes a trade row and never touches an AI
    recommendation: all it writes, after a filled order, is the executed
    mark of the legacy row. *)
Theorem grpc_accept_unsigned_units E id w p list r :
  db w = Some p ->
  database.ListRecommendations E p = Ok list ->
  List.find (fun item => String.eqb (models.Recommendation_ID item) id) list = Some r ->
  let out := recServer_AcceptRecommendation E id w in
  calls (snd out)
  = (calls w ++ [CallPostOrder (plainOrder (models.Recommendation_Instrument r)
                                  (models.Recommendation_Units r))])%list /\
  (exists p',
     db (snd out) = Some p' /\
     database.trades p' = database.trades p /\
     database.ai_recommendations p' = database.ai_recommendations p /\
     (database.recommendations p' = database.recommendations p \/
      exists ord,
        fst (postMarketOrder E (plainOrder (models.Recommendation_Instrument r)
                                  (models.Recommendation_Units r)) w) = Ok ord /\
        database.recommendations p'
        = map (database.update_executed id (broker.OrderCreateTransaction_ID ord) (NOW E))
            (database.recommendations p))) /\
  exists rest,
    calls (snd (acceptRecommendation E id w))
    = (calls w
       ++ CallPostOrder
            (plainOrder (models.Recommendation_Instrument r)
               (if String.eqb (strings.ToUpper (models.Recommendation_Direction r)) "SELL"
                then (- models.Recommendation_Units r)%float
                else models.Recommendation_Units r)) :: rest)%list.
Proof.
  intros Hdb Hlist Hfind out. subst out. split; [| split].
  - unfold recServer_AcceptRecommendation. rewrite Hdb, Hlist, Hfind.
    fold (plainOrder (models.Recommendation_Instrument r) (models.Recommendation_Units r)).
    unfold PlaceMarketOrder.
    fold (plainOrder (models.Recommendation_Instrument r) (models.Recommendation_Units r)).
    pose proof (postMarketOrder_world E
                  (plainOrder (models.Recommendation_Instrument r)
                     (models.Recommendation_Units r)) w) as Hw.
    destruct (postMarketOrder E _ w) as [[ord | err |] w1]; cbn [snd] in *; subst w1;
      try reflexivity.
    destruct (database.MarkRecommendationExecuted E id _ p) as [o p']. reflexivity.
  - unfold recServer_AcceptRecommendation. rewrite Hdb, Hlist, Hfind.
    unfold PlaceMarketOrder.
    fold (plainOrder (models.Recommendation_Instrument r) (models.Recommendation_Units r)).
    pose proof (postMarketOrder_world E
                  (plainOrder (models.Recommendation_Instrument r)
                     (models.Recommendation_Units r)) w) as Hw.
    destruct (postMarketOrder E _ w) as [[ord | err |] w1] eqn:Hpost; cbn [snd] in *;
      subst w1; cbn [db].
    2,3: exists p; rewrite Hdb; repeat split; left; reflexivity.
    unfold database.MarkRecommendationExecuted.
    destruct (db_err E UpdateRecommendationExecuted).
    + exists p. cbn. repeat split. left. reflexivity.
    + match goal with
      | |- context [database.audit E ?a ?b ?c ?d ?q] =>
          destruct (audit_tables E a b c d q) as (A1 & A2 & A3);
          destruct (database.audit E a b c d q) as [o p2]
      end.
      cbn [snd] in *. exists p2. cbn [db with_db snd].
      split; [reflexivity |]. split; [exact A3 |]. split; [exact A2 |].
      right. exists ord. split; [reflexivity | exact A1].
  - unfold acceptRecommendation, resolve, findLegacy. rewrite Hdb, Hlist, Hfind.
    unfold submit, orderUnits. cbn [resolved_r resolved_sl resolved_tp Instrument Direction Units].
    unfold PlaceMarketOrder.
    match goal with
    | |- context [postMarketOrder E ?pl w] =>
        pose proof (postMarketOrder_world E pl w) as Hw;
        destruct (postMarketOrder E pl w) as [[resp | err |] w1]
    end; cbn [snd] in *; subst w1.
    2,3: (exists []; reflexivity).
    match goal with
    | |- context [reconcile E id ?x ?u resp ?w1] =>
        destruct (reconcile_calls E id x u resp w1) as [rest Hrest];
        destruct (reconcile E id x u resp w1) as [u0 w2]
    end.
    cbn [snd calls] in *. exists rest. rewrite Hrest, <- app_assoc. reflexivity.
Qed.

Lemma grpc_accept_unsigned_units_witness :
  calls (snd (recServer_AcceptRecommendation (demoEnv orderFilled noFaults) (demoUUID 3)
                (snd (createRecommendation (demoEnv orderFilled noFaults)
                        (Some (set_ID_CreatedAt (demoUUID 3) 0 manualBody)) demoWorld))))
  = [CallPostOrder (plainOrder "EUR_USD" 1000%float)].
Proof.
  eapply (grpc_accept_unsigned_units (demoEnv orderFilled noFaults) (demoUUID 3)
            (snd (createRecommendation (demoEnv orderFilled noFaults)
                    (Some (set_ID_CreatedAt (demoUUID 3) 0 manualBody)) demoWorld))
            _ _
            {| models.Recommendation_ID := demoUUID 3;
               models.Recommendation_Instrument := "EUR_USD";
               models.Recommendation_Direction := "SELL";
               models.Recommendation_Units := 1000%float;
               models.Recommendation_Rationale := Some "manual";
               models.Recommendation_ConfidenceScore := None;
               models.Recommendation_MarketConditions := "";
               models.Recommendation_Status := models.RecommendationStatusPending;
               models.Recommendation_TradeID := None;
               models.Recommendation_CreatedAt := 1767225600;
               models.Recommendation_ExecutedAt := None |}).
  - reflexivity.
  - reflexivity.
  - reflexivity.
Defined.

(** ** Generation on the server of [main] *)

Lemma main_aiSvc_outcome E req w :
  let instruments := ai.Request_Instruments req in
  let out := Service_GenerateRecommendation (main_aiSvc E) req w in
  match marketFetcher E instruments with
  | Ok _ =>
      match newsFor E instruments with
      | Some (Ok _) =>
          (exists rec, fst out = Ok rec) /\
          snd out = called [CallMarketFetcher instruments; CallNewsFetcher instruments;
                            CallHistFetcher instruments; CallModel req] w
      | Some (Err e) =>
          fst out = Err e /\
          snd out = called [CallMarketFetcher instruments; CallNewsFetcher instruments] w
      | Some Panic | None =>
          fst out = Panic /\
          snd out = called [CallMarketFetcher instruments; CallNewsFetcher instruments] w
      end
  | Err e => fst out = Err e /\ snd out = called [CallMarketFetcher instruments] w
  | Panic => fst out = Panic /\ snd out = called [CallMarketFetcher instruments] w
  end.
Proof.
  cbn zeta. unfold main_aiSvc, NewService, serviceImpl_GenerateRecommendation, NewAggregator,
    NewClaudeClient, main_marketFetcher, main_newsFetcher, main_histFetcher,
    claudeClientImpl_GenerateRecommendation, newsFor, called.
  cbn [Service_GenerateRecommendation GatherMarketData GatherNewsData GatherHistoricalData
       AssembleContext ClaudeClient_GenerateRecommendation].
  unfold bindR, bind, call, ret. cbn [db recs calls].
  destruct (marketFetcher E (ai.Request_Instruments req)) as [m | e |];
    cbn [fst snd]; try (split; reflexivity).
  destruct (ai.Request_Instruments req) as [| i0 rest] eqn:Hinstr;
    cbn [fst snd db recs calls].
  - split; [reflexivity |]. rewrite <- app_assoc. reflexivity.
  - destruct (SearchNews E (i0 ++ " forex") 5) as [news | e |];
      cbn [fst snd db recs calls].
    + split.
      * destruct (String.eqb (ANTHROPIC_API_KEY E) ""); eexists; reflexivity.
      * destruct (String.eqb (ANTHROPIC_API_KEY E) ""); cbn [snd];
          rewrite <- !app_assoc; reflexivity.
    + split; [reflexivity |]. rewrite <- app_assoc. reflexivity.
    + split; [reflexivity |]. rewrite <- app_assoc. reflexivity.
Qed.

Lemma aiGenerateRecommendation_afterDraft E svc req w :
  aiGenerateRecommendation E {| Server_ai := Some svc |} (Some req) w
  = match fst (Service_GenerateRecommendation svc req w) with
    | Ok rec => afterDraft E req rec (snd (Service_GenerateRecommendation svc req w))
    | Err e => (JSON 500 (H_error e), snd (Service_GenerateRecommendation svc req w))
    | Panic => (Recovered, snd (Service_GenerateRecommendation svc req w))
    end.
Proof.
  unfold aiGenerateRecommendation. cbn [Server_ai]. unfold bind at 1.
  destruct (Service_GenerateRecommendation svc req w) as [[rec | e |] w1]; reflexivity.
Qed.

Lemma afterDraft_answers E req rec w :
  exists rec', fst (afterDraft E req rec w) = JSON 200 (H_recommendation rec').
Proof.
  unfold afterDraft.
  unfold bind at 1. destruct (enrichPrice E _ w) as [mid w1].
  unfold bind at 1. destruct (positionSizing E req _ w1) as [rec1 w2].
  unfold bind at 1. destruct (persist E rec1 w2) as [[rec2 pid] w3].
  unfold bind at 1. destruct (usageLog E req pid w3) as [u w4].
  unfold bind at 1. destruct (analysisCache E req w4) as [u' w5].
  exists rec2. reflexivity.
Qed.

Lemma generation_answer_cases E req w :
  let out := aiGenerateRecommendation E (mainServer E) (Some req) w in
  (contextGathered E req /\ exists rec, fst out = JSON 200 (H_recommendation rec)) \/
  (~ contextGathered E req /\
   (forall rec, fst out <> JSON 200 (H_recommendation rec)) /\
   (snd out = called [CallMarketFetcher (ai.Request_Instruments req)] w \/
    snd out = called [CallMarketFetcher (ai.Request_Instruments req);
                      CallNewsFetcher (ai.Request_Instruments req)] w)).
Proof.
  cbn zeta. unfold mainServer, contextGathered.
  rewrite aiGenerateRecommendation_afterDraft.
  pose proof (main_aiSvc_outcome E req w) as H. cbn zeta in H.
  pose proof (fun rec w1 => afterDraft_answers E req rec w1) as Hpipe.
  destruct (Service_GenerateRecommendation (main_aiSvc E) req w) as [r w1].
  cbn [fst snd] in *.
  destruct (marketFetcher E (ai.Request_Instruments req)) as [m | e |].
  - destruct (newsFor E (ai.Request_Instruments req)) as [[news | e |] |].
    + destruct H as [[rec ->] _]. left. split; [split; eexists; reflexivity |].
      apply Hpipe.
    + destruct H as [-> ->]. right. split; [| split].
      * intros [_ [news Hnews]]. discriminate.
      * intros rec. discriminate.
      * right. reflexivity.
    + destruct H as [-> ->]. right. split; [| split].
      * intros [_ [news Hnews]]. discriminate.
      * intros rec. discriminate.
      * right. reflexivity.
    + destruct H as [-> ->]. right. split; [| split].
      * intros [_ [news Hnews]]. discriminate.
      * intros rec. discriminate.
      * right. reflexivity.
  - destruct H as [-> ->]. right. split; [| split].
    + intros [[m Hm] _]. discriminate.
    + intros rec. discriminate.
    + left. reflexivity.
  - destruct H as [-> ->]. right. split; [| split].
    + intros [[m Hm] _]. discriminate.
    + intros rec. discriminate.
    + left. reflexivity.
Qed.

(** X12. On the server [main] builds, a bound generation request is
    answered 200 with a recommendation exactly when its context is
    gathered: the market fetch succeeds and the news search for the first
    requested instrument succeeds. Nothing else decides the answer: not the
    database (absent, or failing every statement), not the prices, the
    candles or the account of the broker. *)
Theorem generation_answers_iff_context E req w :
  (exists rec, fst (aiGenerateRecommendation E (mainServer E) (Some req) w)
               = JSON 200 (H_recommendation rec))
  <-> contextGathered E req.
Proof.
  destruct (generation_answer_cases E req w) as [[Hc Hrec] | (Hc & Hno & _)].
  - split; intros _; assumption.
  - split; [intros [rec Hrec]; destruct (Hno rec Hrec) | intros H; destruct (Hc H)].
Qed.

Lemma generation_answers_iff_context_witness :
  exists rec,
    fst (aiGenerateRecommendation (demoEnv orderFilled noFaults)
           (mainServer (demoEnv orderFilled noFaults)) (Some sizingRequest) memoryWorld)
    = JSON 200 (H_recommendation rec).
Proof.
  apply (proj2 (generation_answers_iff_context (demoEnv orderFilled noFaults)
                  sizingRequest memoryWorld)).
  split; eexists; reflexivity.
Defined.



(** ** The calls of a request *)

Lemma emits_ret kind {A} (a : A) : emits kind 0 (ret a).
Proof. intros w. exists []. cbn. rewrite app_nil_r. split; [reflexivity | lia]. Qed.

Lemma emits_same kind {A} (m : M A) :
  (forall w, calls (snd (m w)) = calls w) -> emits kind 0 m.
Proof.
  intros H w. exists []. rewrite H, app_nil_r. split; [reflexivity | cbn; lia].
Qed.

Lemma emits_call kind e : emits kind (if kind e then 1 else 0) (call e).
Proof.
  intros w. exists [e]. split; [reflexivity |]. cbn. destruct (kind e); cbn; lia.
Qed.

Lemma emits_le kind n n' {A} (m : M A) :
  (n <= n')%nat -> emits kind n m -> emits kind n' m.
Proof.
  intros Hle H w. destruct (H w) as (more & Hmore & Hlen).
  exists more. split; [exact Hmore | lia].
Qed.

Lemma emits_bind kind n1 n2 {A B} (m : M A) (k : A -> M B) :
  emits kind n1 m -> (forall a, emits kind n2 (k a)) -> emits kind (n1 + n2) (bind m k).
Proof.
  intros Hm Hk w. unfold bind. destruct (Hm w) as (more1 & H1 & L1).
  destruct (m w) as [a w1]. cbn [snd] in H1.
  destruct (Hk a w1) as (more2 & H2 & L2).
  exists (more1 ++ more2)%list. split.
  - rewrite H2, H1, app_assoc. reflexivity.
  - rewrite List.filter_app, List.length_app. lia.
Qed.

Lemma emits_on_db kind {A} (otherwise : A) (f : database.Postgres -> A * database.Postgres) :
  emits kind 0 (on_db otherwise f).
Proof.
  apply emits_same. intros w. unfold on_db. destruct (db w) as [p |]; [| reflexivity].
  destruct (f p). reflexivity.
Qed.

Lemma emits_postMarketOrder E payload : emits isPostOrder 1 (postMarketOrder E payload).
Proof.
  intros w. exists [CallPostOrder payload]. split; [reflexivity | cbn; lia].
Qed.

Lemma emits_postMarketOrder_account E payload :
  emits isGetAccount 0 (postMarketOrder E payload).
Proof.
  intros w. exists [CallPostOrder payload]. split; [reflexivity | cbn; lia].
Qed.

Lemma emits_currentMid kind E n instrument :
  kind (CallGetPrices [instrument]) = false -> emits kind 0 (currentMid E n instrument).
Proof.
  intros Hk w. exists [CallGetPrices [instrument]]. split; [reflexivity |].
  cbn. rewrite Hk. cbn. lia.
Qed.

Lemma emits_submit E x : emits isPostOrder 1 (submit E x).
Proof.
  unfold submit, PlaceMarketOrder, PlaceMarketOrderWithBrackets.
  destruct (resolved_sl x), (resolved_tp x); apply emits_postMarketOrder.
Qed.

Lemma emits_reconcile E id x units resp : emits isPostOrder 0 (reconcile E id x units resp).
Proof.
  intros w. unfold reconcile. destruct (db w) as [p |].
  - destruct (if resolved_isAI x then _ else _) as [o p1].
    unfold currentMid, bind, call, ret. cbn [db with_db recs calls].
    destruct (database.CreateTrade E _ p1) as [o2 p2]. cbn [snd calls with_db].
    eexists. split; [reflexivity | cbn; lia].
  - exists []. cbn. rewrite app_nil_r. split; [reflexivity | lia].
Qed.

Lemma emits_acceptRecommendation E id : emits isPostOrder 1 (acceptRecommendation E id).
Proof.
  intros w. unfold acceptRecommendation. destruct (resolve E id w) as [x |].
  - destruct (emits_submit E x w) as (more1 & H1 & L1).
    destruct (submit E x w) as [[resp | err |] w1]; cbn [snd] in *;
      try (exists more1; split; assumption).
    destruct (emits_reconcile E id x (orderUnits (resolved_r x)) resp w1)
      as (more2 & H2 & L2).
    destruct (reconcile E id x (orderUnits (resolved_r x)) resp w1) as [u w2].
    cbn [snd] in *. exists (more1 ++ more2)%list. split.
    + rewrite H2, H1, app_assoc. reflexivity.
    + rewrite List.filter_app, List.length_app. lia.
  - exists []. cbn. rewrite app_nil_r. split; [reflexivity | lia].
Qed.

Lemma emits_placeOrder E body : emits isPostOrder 1 (placeOrder E body).
Proof.
  intros w. unfold placeOrder. destruct body as [req |].
  - rewrite placeOrder_posts.
    pose proof (postMarketOrder_world E (orderPayload E req) w) as Hw.
    destruct (postMarketOrder E (orderPayload E req) w) as [[resp | err |] w1];
      cbn [snd] in *; subst w1; cbn [db recs calls snd].
    + destruct (db w) as [p |].
      * unfold currentMid, bind, call, ret. cbn [db recs calls].
        destruct (database.CreateTrade E _ p) as [o p']. cbn [snd calls with_db].
        exists [CallPostOrder (orderPayload E req);
                CallGetPrices [OrderBody_Instrument req]].
        split; [rewrite <- app_assoc; reflexivity | cbn; lia].
      * exists [CallPostOrder (orderPayload E req)]. split; [reflexivity | cbn; lia].
    + exists [CallPostOrder (orderPayload E req)]. split; [reflexivity | cbn; lia].
    + exists [CallPostOrder (orderPayload E req)]. split; [reflexivity | cbn; lia].
  - exists []. cbn. rewrite app_nil_r. split; [reflexivity | lia].
Qed.

Lemma emits_recServer_AcceptRecommendation E id :
  emits isPostOrder 1 (recServer_AcceptRecommendation E id).
Proof.
  intros w. unfold recServer_AcceptRecommendation.
  assert (Hnil : exists more, calls w = (calls w ++ more)%list /\
                              (length (List.filter isPostOrder more) <= 1)%nat).
  { exists []. rewrite app_nil_r. split; [reflexivity | cbn; lia]. }
  destruct (db w) as [p |]; [| exact Hnil].
  destruct (database.ListRecommendations E p) as [list | e |]; try exact Hnil.
  destruct (List.find _ list) as [r |]; [| exact Hnil].
  unfold PlaceMarketOrder.
  match goal with
  | |- context [postMarketOrder E ?pl w] =>
      pose proof (postMarketOrder_world E pl w) as Hw;
      destruct (postMarketOrder E pl w) as [[ord | err |] w1]
  end; cbn [snd] in *; subst w1.
  - destruct (database.MarkRecommendationExecuted E id _ p) as [o p']. cbn.
    eexists. split; [reflexivity | cbn; lia].
  - eexists. split; [reflexivity | cbn; lia].
  - eexists. split; [reflexivity | cbn; lia].
Qed.

Lemma emits_main_aiSvc kind E req :
  kind (CallMarketFetcher (ai.Request_Instruments req)) = false ->
  kind (CallNewsFetcher (ai.Request_Instruments req)) = false ->
  kind (CallHistFetcher (ai.Request_Instruments req)) = false ->
  kind (CallModel req) = false ->
  emits kind 0 (Service_GenerateRecommendation (main_aiSvc E) req).
Proof.
  intros K1 K2 K3 K4 w. pose proof (main_aiSvc_outcome E req w) as H. cbn zeta in H.
  destruct (Service_GenerateRecommendation (main_aiSvc E) req w) as [r w1].
  cbn [fst snd] in *.
  destruct (marketFetcher E (ai.Request_Instruments req)) as [m | e |].
  1: destruct (newsFor E (ai.Request_Instruments req)) as [[news | e |] |].
  all: destruct H as [_ ->]; unfold called; cbn [calls]; eexists;
    (split; [reflexivity |]); cbn; rewrite ?K1, ?K2, ?K3, ?K4; cbn; lia.
Qed.

Lemma emits_enrichPrice kind E instrument :
  kind (CallGetPrices [instrument]) = false ->
  kind (CallGetCandles instrument "M5" 1) = false ->
  emits kind 0 (enrichPrice E instrument).
Proof.
  intros K1 K2. unfold enrichPrice.
  apply (emits_bind kind 0 0); [apply emits_currentMid, K1 |].
  intros mid. destruct (mid =? 0)%float; [| apply emits_ret].
  apply (emits_bind kind 0 0); [| intros _; apply emits_ret].
  pose proof (emits_call kind (CallGetCandles instrument "M5" 1)) as H.
  rewrite K2 in H. exact H.
Qed.

Lemma emits_stopDistance kind E req rec :
  kind (CallGetPrices [ai.Recommendation_Instrument rec]) = false ->
  emits kind 0 (stopDistance E req rec).
Proof.
  intros K. unfold stopDistance.
  destruct (0 <? ai.Request_StopLossPips req)%float; [apply emits_ret |].
  destruct (ai.Recommendation_StopLoss rec); [| apply emits_ret].
  apply (emits_bind kind 0 0); [apply emits_currentMid, K |].
  intros mid. destruct (0 <? mid)%float; apply emits_ret.
Qed.

Lemma emits_positionSizing_orders E req rec :
  emits isPostOrder 0 (positionSizing E req rec).
Proof.
  unfold positionSizing. destruct (0 <? ai.Request_Units req); [apply emits_ret |].
  destruct (_ || _)%bool; [| apply emits_ret].
  apply (emits_bind isPostOrder 0 0); [apply emits_stopDistance; reflexivity |].
  intros slPips. apply (emits_bind isPostOrder 0 0); [apply (emits_call isPostOrder) |].
  intros _. destruct (GetAccount E); [destruct (0 <? slPips)%float |..]; apply emits_ret.
Qed.

Lemma emits_persist kind E rec : emits kind 0 (persist E rec).
Proof.
  apply emits_same. intros w. unfold persist. destruct (db w) as [p |]; [| reflexivity].
  destruct (database.CreateAIRecommendation E _ p) as [[id | e |] p1]; try reflexivity.
  destruct (database.CreateRecommendation E _ p1) as [o p2]. reflexivity.
Qed.

Lemma emits_usageLog kind E req persistedID : emits kind 0 (usageLog E req persistedID).
Proof.
  unfold usageLog. destruct (negb _); [apply emits_on_db | apply emits_ret].
Qed.

Lemma emits_analysisCache kind E req :
  (forall inst, kind (CallGetCandles inst "M5" 20) = false) ->
  emits kind 0 (analysisCache E req).
Proof.
  intros K w. unfold analysisCache.
  assert (Hnil : exists more, calls w = (calls w ++ more)%list /\
                              (length (List.filter kind more) <= 0)%nat).
  { exists []. rewrite app_nil_r. split; [reflexivity | cbn; lia]. }
  destruct (db w) as [p |]; [| exact Hnil].
  destruct (ai.Request_Instruments req) as [| inst rest]; [exact Hnil |].
  cbn [call]. destruct (GetCandles E inst "M5" 20) as [[candles |] | e |];
    try (exists [CallGetCandles inst "M5" 20]; split; [reflexivity |];
         cbn; rewrite K; cbn; lia).
  destruct (database.InsertMarketAnalysisCache E _ _ _ p) as [o p'].
  exists [CallGetCandles inst "M5" 20]. split; [reflexivity |]. cbn. rewrite K. cbn. lia.
Qed.

Lemma emits_afterDraft_orders E req rec : emits isPostOrder 0 (afterDraft E req rec).
Proof.
  unfold afterDraft.
  apply (emits_bind isPostOrder 0 0); [apply emits_enrichPrice; reflexivity |].
  intros mid. apply (emits_bind isPostOrder 0 0); [apply emits_positionSizing_orders |].
  intros rec1. apply (emits_bind isPostOrder 0 0); [apply emits_persist |].
  intros [rec2 pid]. apply (emits_bind isPostOrder 0 0); [apply emits_usageLog |].
  intros _. apply (emits_bind isPostOrder 0 0);
    [apply emits_analysisCache; reflexivity | intros _; apply emits_ret].
Qed.

Lemma emits_aiGenerateRecommendation_orders E body :
  emits isPostOrder 0 (aiGenerateRecommendation E (mainServer E) body).
Proof.
  destruct body as [req |]; [| apply emits_ret].
  intros w. unfold mainServer. rewrite aiGenerateRecommendation_afterDraft.
  destruct (emits_main_aiSvc isPostOrder E req eq_refl eq_refl eq_refl eq_refl w)
    as (more1 & H1 & L1).
  destruct (Service_GenerateRecommendation (main_aiSvc E) req w) as [[rec | e |] w1];
    cbn [fst snd] in *; try (exists more1; split; assumption).
  destruct (emits_afterDraft_orders E req rec w1) as (more2 & H2 & L2).
  exists (more1 ++ more2)%list. split.
  - rewrite H2, H1, app_assoc. reflexivity.
  - rewrite List.filter_app, List.length_app. lia.
Qed.

Lemma emits_serve E r :
  emits isPostOrder (if places r then 1 else 0) (fun w => (tt, serve E r w)).
Proof.
  destruct r; cbn [places serve]; intros w; cbn [snd].
  - exists []. rewrite app_nil_r. split; [| cbn; lia].
    unfold createRecommendation. destruct body as [r |]; [| reflexivity].
    destruct (db w) as [p |]; [| reflexivity].
    destruct (database.CreateRecommendation E _ p) as [[id | e |] p']; reflexivity.
  - exists []. rewrite app_nil_r. split; [| cbn; lia].
    unfold listRecommendations. destruct (db w) as [p |]; [| reflexivity].
    destruct (database.ListRecommendations E p); reflexivity.
  - apply emits_acceptRecommendation.
  - exists []. rewrite app_nil_r. split; [| cbn; lia].
    unfold deleteRecommendation. destruct (db w) as [p |]; [| reflexivity].
    destruct (database.SoftDeleteRecommendation E id p) as [[e |] p']; reflexivity.
  - apply emits_placeOrder.
  - apply emits_aiGenerateRecommendation_orders.
  - apply emits_recServer_AcceptRecommendation.
  - exists []. rewrite app_nil_r. split; [| cbn; lia].
    unfold recServer_CreateRecommendation. destruct (db w) as [p |]; [| reflexivity].
    destruct (database.CreateRecommendation E _ p) as [[id | e |] p']; reflexivity.
  - exists []. rewrite app_nil_r. split; [| cbn; lia].
    unfold recServer_ListRecommendations. destruct (db w) as [p |]; [| reflexivity].
    destruct (database.ListRecommendations E p); reflexivity.
  - unfold tradeServer_PlaceOrder, PlaceMarketOrder.
    match goal with
    | |- context [postMarketOrder E ?pl w] =>
        pose proof (postMarketOrder_world E pl w) as Hw;
        destruct (postMarketOrder E pl w) as [[resp | err |] w1]
    end; cbn [snd] in *; subst w1.
    + cbn [db]. destruct (db w) as [p |].
      * destruct (database.CreateTrade E _ p) as [o p']. cbn.
        eexists. split; [reflexivity | cbn; lia].
      * eexists. split; [reflexivity | cbn; lia].
    + eexists. split; [reflexivity | cbn; lia].
    + eexists. split; [reflexivity | cbn; lia].
Qed.

(** X14. No request places more than one order, and only the two accepts
    and the order request place any: over any sequence of requests, the
    log of calls only grows, and the orders posted to the broker are at
    most as many as the accept and order requests of the sequence. A
    generation, a creation, a listing or a deletion never posts an
    order. *)
Theorem one_order_per_request requests w :
  exists more,
    calls (run requests w) = (calls w ++ more)%list /\
    (length (List.filter isPostOrder more)
     <= length (List.filter (fun er => places (snd er)) requests))%nat.
Proof.
  revert w. induction requests as [| [E r] requests IH]; intros w.
  - exists []. cbn. rewrite app_nil_r. split; [reflexivity | lia].
  - cbn [run fold_left fst snd]. fold (run requests (serve E r w)).
    destruct (emits_serve E r w) as (more1 & H1 & L1). cbn [snd] in H1.
    destruct (IH (serve E r w)) as (more2 & H2 & L2).
    exists (more1 ++ more2)%list. split.
    + rewrite H2, H1, app_assoc. reflexivity.
    + rewrite List.filter_app, List.length_app. cbn [List.filter snd].
      destruct (places r); cbn [length]; lia.
Qed.

(** ** What a generation answers *)

Lemma main_aiSvc_draft E req w rec :
  fst (Service_GenerateRecommendation (main_aiSvc E) req w) = Ok rec ->
  ai.Recommendation_Instrument rec = firstInstrument req /\
  ai.Recommendation_Direction rec = "BUY" /\
  ai.Recommendation_Units rec = 100 /\
  ai.Recommendation_StopLoss rec = None /\
  ai.Recommendation_TakeProfit rec = None.
Proof.
  unfold main_aiSvc, NewService, serviceImpl_GenerateRecommendation, NewAggregator,
    NewClaudeClient, main_marketFetcher, main_newsFetcher, main_histFetcher,
    claudeClientImpl_GenerateRecommendation.
  cbn [Service_GenerateRecommendation GatherMarketData GatherNewsData GatherHistoricalData
       AssembleContext ClaudeClient_GenerateRecommendation].
  unfold bindR, bind, call, ret.
  destruct (marketFetcher E (ai.Request_Instruments req)) as [m | e |];
    cbn [fst snd]; try discriminate.
  destruct (ai.Request_Instruments req) as [| i0 rest] eqn:Hinstr;
    cbn [fst snd]; try discriminate.
  destruct (SearchNews E (i0 ++ " forex") 5) as [news | e |]; cbn [fst snd];
    try discriminate.
  destruct (String.eqb (ANTHROPIC_API_KEY E) ""); cbn [fst]; intros H;
    injection H as <-; cbn; repeat split.
Qed.

Lemma enrichPrice_priceOf E instrument w :
  fst (enrichPrice E instrument w) = priceOf E instrument.
Proof.
  unfold enrichPrice, priceOf, currentMid, bind, call, ret. cbn zeta.
  destruct (midOfPrices E (GetPrices E 0 [instrument]) =? 0)%float; reflexivity.
Qed.

Lemma persist_draft E rec w :
  fst (fst (persist E rec w)) = rec \/
  exists id, fst (fst (persist E rec w)) = set_ID id rec.
Proof.
  unfold persist. destruct (db w) as [p |]; [| left; reflexivity].
  destruct (database.CreateAIRecommendation E _ p) as [[id | e |] p1];
    try (left; reflexivity).
  destruct (database.CreateRecommendation E _ p1) as [o p2]. right. exists id. reflexivity.
Qed.

Lemma afterDraft_answer E req rec w :
  exists sized final,
    sized = fst (positionSizing E req
                   (brackets req (priceOf E (ai.Recommendation_Instrument rec)) rec)
                   (snd (enrichPrice E (ai.Recommendation_Instrument rec) w))) /\
    fst (afterDraft E req rec w) = JSON 200 (H_recommendation final) /\
    (final = sized \/ exists id, final = set_ID id sized).
Proof.
  unfold afterDraft. unfold bind at 1.
  pose proof (enrichPrice_priceOf E (ai.Recommendation_Instrument rec) w) as Hmid.
  destruct (enrichPrice E _ w) as [mid w1]. cbn [fst snd] in *. subst mid.
  unfold bind at 1.
  destruct (positionSizing E req _ w1) as [rec1 w2]. cbn [fst].
  unfold bind at 1. pose proof (persist_draft E rec1 w2) as Hp.
  destruct (persist E rec1 w2) as [[rec2 pid] w3]. cbn [fst] in Hp.
  unfold bind at 1. destruct (usageLog E req pid w3) as [u w4].
  unfold bind at 1. destruct (analysisCache E req w4) as [u' w5].
  exists rec1, rec2. split; [reflexivity |]. split; [reflexivity | exact Hp].
Qed.

Lemma emits_afterDraft_account E req rec :
  0 < ai.Request_Units req -> emits isGetAccount 0 (afterDraft E req rec).
Proof.
  intros Hunits. unfold afterDraft.
  apply (emits_bind isGetAccount 0 0); [apply emits_enrichPrice; reflexivity |].
  intros mid. apply (emits_bind isGetAccount 0 0).
  { unfold positionSizing. apply Z.ltb_lt in Hunits. rewrite Hunits. apply emits_ret. }
  intros rec1. apply (emits_bind isGetAccount 0 0); [apply emits_persist |].
  intros [rec2 pid]. apply (emits_bind isGetAccount 0 0); [apply emits_usageLog |].
  intros _. apply (emits_bind isGetAccount 0 0);
    [apply emits_analysisCache; reflexivity | intros _; apply emits_ret].
Qed.

(** X15. Units given in the request win: a generation on the server of
    [main] that is answered 200 for a request with a positive unit count
    answers a recommendation of exactly that many units, whatever the risk
    fraction and the stop distance of the request, and never reads the
    account of the broker. *)
Theorem generation_explicit_units E req w rec :
  0 < ai.Request_Units req ->
  fst (aiGenerateRecommendation E (mainServer E) (Some req) w)
  = JSON 200 (H_recommendation rec) ->
  ai.Recommendation_Units rec = ai.Request_Units req /\
  exists more,
    calls (snd (aiGenerateRecommendation E (mainServer E) (Some req) w))
    = (calls w ++ more)%list /\
    List.filter isGetAccount more = [].
Proof.
  intros Hunits. unfold mainServer. rewrite aiGenerateRecommendation_afterDraft.
  destruct (emits_main_aiSvc isGetAccount E req eq_refl eq_refl eq_refl eq_refl w)
    as (more1 & H1 & L1).
  destruct (Service_GenerateRecommendation (main_aiSvc E) req w) as [[draft | e |] w1];
    cbn [fst snd] in *; try discriminate.
  intros Hans. split.
  - destruct (afterDraft_answer E req draft w1) as (sized & final & Hsized & Hrec & Hfinal).
    assert (Hs : ai.Recommendation_Units sized = ai.Request_Units req).
    { subst sized. unfold positionSizing. apply Z.ltb_lt in Hunits. rewrite Hunits.
      reflexivity. }
    rewrite Hrec in Hans. injection Hans as <-.
    destruct Hfinal as [-> | [id ->]]; exact Hs.
  - destruct (emits_afterDraft_account E req draft Hunits w1) as (more2 & H2 & L2).
    exists (more1 ++ more2)%list. split.
    + rewrite H2, H1, app_assoc. reflexivity.
    + rewrite List.filter_app.
      destruct (List.filter isGetAccount more1); [| cbn in L1; lia].
      destruct (List.filter isGetAccount more2); [reflexivity | cbn in L2; lia].
Qed.

Lemma generation_explicit_units_witness :
  exists rec,
    fst (aiGenerateRecommendation (demoEnv orderFilled noFaults)
           (mainServer (demoEnv orderFilled noFaults)) (Some unitsRequest) demoWorld)
    = JSON 200 (H_recommendation rec) /\
    ai.Recommendation_Units rec = 5000.
Proof.
  eexists. split; [vm_compute; reflexivity |].
  apply (generation_explicit_units (demoEnv orderFilled noFaults) unitsRequest demoWorld);
    [reflexivity | vm_compute; reflexivity].
Defined.

(** X16. Without a price there are no brackets: when neither the quotes
    nor the last candle give a positive price for the drafted instrument,
    a generation on the server of [main] that is answered 200 answers a
    recommendation with no stop loss and no take profit; and when the
    request gives neither positive units nor a positive stop distance, the
    recommendation keeps the 100 units of the draft, whatever risk
    fraction was asked. *)
Theorem generation_without_price E req w rec :
  (0 <? priceOf E (firstInstrument req))%float = false ->
  fst (aiGenerateRecommendation E (mainServer E) (Some req) w)
  = JSON 200 (H_recommendation rec) ->
  ai.Recommendation_StopLoss rec = None /\
  ai.Recommendation_TakeProfit rec = None /\
  (ai.Request_Units req <= 0 ->
   (0 <? ai.Request_StopLossPips req)%float = false ->
   ai.Recommendation_Units rec = 100).
Proof.
  intros Hprice. unfold mainServer. rewrite aiGenerateRecommendation_afterDraft.
  pose proof (main_aiSvc_draft E req w) as Hdraft.
  destruct (Service_GenerateRecommendation (main_aiSvc E) req w) as [[draft | e |] w1];
    cbn [fst snd] in *; try discriminate.
  destruct (Hdraft draft eq_refl) as (Hi & _ & Hu & Hsl & Htp). clear Hdraft.
  intros Hans.
  destruct (afterDraft_answer E req draft w1) as (sized & final & Hsized & Hrec & Hfinal).
  rewrite Hi in Hsized. unfold brackets in Hsized. rewrite Hprice in Hsized.
  assert (Hs : ai.Recommendation_StopLoss sized = None /\
               ai.Recommendation_TakeProfit sized = None /\
               (ai.Request_Units req <= 0 ->
                (0 <? ai.Request_StopLossPips req)%float = false ->
                ai.Recommendation_Units sized = 100)).
  { subst sized. unfold positionSizing.
    destruct (0 <? ai.Request_Units req) eqn:Hunits.
    - cbn. split; [assumption |]. split; [assumption |].
      intros Hle. apply Z.ltb_lt in Hunits. lia.
    - rewrite Hsl. destruct (0 <? ai.Request_StopLossPips req)%float eqn:Hpips.
      + rewrite Bool.andb_true_r, Bool.andb_false_r, Bool.orb_false_r.
        destruct (0 <? ai.Request_RiskPercent req)%float.
        * unfold stopDistance. rewrite Hpips. unfold bind, call, ret. cbn [fst snd].
          destruct (GetAccount E) as [account | e |]; cbn [fst];
            [rewrite Hpips; cbn |..];
            (split; [assumption |]); (split; [assumption |]); intros _ H;
            discriminate H.
        * cbn. split; [assumption |]. split; [assumption |]. intros _ H.
          discriminate H.
      + rewrite !Bool.andb_false_r. cbn. split; [assumption |]. split; [assumption |].
        intros _ _. assumption. }
  rewrite Hrec in Hans. injection Hans as <-.
  destruct Hfinal as [-> | [id ->]]; exact Hs.
Qed.

Lemma generation_without_price_witness :
  exists rec,
    fst (aiGenerateRecommendation (noPrices (demoEnv orderFilled noFaults))
           (mainServer (noPrices (demoEnv orderFilled noFaults))) (Some riskOnlyRequest)
           demoWorld)
    = JSON 200 (H_recommendation rec) /\
    ai.Recommendation_StopLoss rec = None /\
    ai.Recommendation_Units rec = 100.
Proof.
  eexists. split; [vm_compute; reflexivity |].
  destruct (generation_without_price (noPrices (demoEnv orderFilled noFaults))
              riskOnlyRequest demoWorld _ eq_refl eq_refl) as (H1 & _ & H2).
  split; [exact H1 | apply H2; [cbn; lia | reflexivity]].
Defined.

(** ** Generating, then finding *)

Lemma calls_only_ret {A} (a : A) : calls_only (ret a).
Proof. intros w. split; reflexivity. Qed.

Lemma calls_only_call e : calls_only (call e).
Proof. intros w. split; reflexivity. Qed.

Lemma calls_only_bind {A B} (m : M A) (k : A -> M B) :
  calls_only m -> (forall a, calls_only (k a)) -> calls_only (bind m k).
Proof.
  intros Hm Hk w. unfold bind. destruct (Hm w) as [H1 H2].
  destruct (m w) as [a w1]. cbn [snd] in *. destruct (Hk a w1) as [H3 H4].
  split; congruence.
Qed.

Lemma calls_only_enrichPrice E instrument : calls_only (enrichPrice E instrument).
Proof.
  unfold enrichPrice, currentMid.
  apply calls_only_bind.
  - apply calls_only_bind; [apply calls_only_call | intros _; apply calls_only_ret].
  - intros mid. destruct (mid =? 0)%float; [| apply calls_only_ret].
    apply calls_only_bind; [apply calls_only_call | intros _; apply calls_only_ret].
Qed.

Lemma calls_only_positionSizing E req rec : calls_only (positionSizing E req rec).
Proof.
  unfold positionSizing. destruct (0 <? ai.Request_Units req); [apply calls_only_ret |].
  destruct (_ || _)%bool; [| apply calls_only_ret].
  apply calls_only_bind.
  - unfold stopDistance, currentMid.
    destruct (0 <? ai.Request_StopLossPips req)%float; [apply calls_only_ret |].
    destruct (ai.Recommendation_StopLoss rec); [| apply calls_only_ret].
    apply calls_only_bind.
    + apply calls_only_bind; [apply calls_only_call | intros _; apply calls_only_ret].
    + intros mid. destruct (0 <? mid)%float; apply calls_only_ret.
  - intros slPips. apply calls_only_bind; [apply calls_only_call |].
    intros _. destruct (GetAccount E); [destruct (0 <? slPips)%float |..];
      apply calls_only_ret.
Qed.

Lemma calls_only_main_aiSvc E req :
  calls_only (Service_GenerateRecommendation (main_aiSvc E) req).
Proof.
  intros w. pose proof (main_aiSvc_outcome E req w) as H. cbn zeta in H.
  destruct (Service_GenerateRecommendation (main_aiSvc E) req w) as [r w1].
  cbn [fst snd] in *.
  destruct (marketFetcher E (ai.Request_Instruments req)) as [m | e |].
  1: destruct (newsFor E (ai.Request_Instruments req)) as [[news | e |] |].
  all: destruct H as [_ ->]; split; reflexivity.
Qed.


Lemma positionSizing_ID E req rec w :
  ai.Recommendation_ID (fst (positionSizing E req rec w)) = ai.Recommendation_ID rec.
Proof.
  unfold positionSizing. destruct (0 <? ai.Request_Units req); [reflexivity |].
  destruct (_ || _)%bool; [| reflexivity].
  unfold bind. destruct (stopDistance E req rec w) as [slPips w1].
  cbn [call]. destruct (GetAccount E); [destruct (0 <? slPips)%float |..]; reflexivity.
Qed.

Lemma brackets_ID req mid rec :
  ai.Recommendation_ID (brackets req mid rec) = ai.Recommendation_ID rec.
Proof.
  unfold brackets. destruct (0 <? mid)%float; [| reflexivity].
  destruct (String.eqb _ "BUY"); reflexivity.
Qed.






(** ** The order of an accept *)

Lemma submit_posts E x w :
  submit E x w = postMarketOrder E (acceptPayload E x) w.
Proof.
  unfold submit, PlaceMarketOrder, PlaceMarketOrderWithBrackets, acceptPayload.
  destruct (resolved_sl x), (resolved_tp x); reflexivity.
Qed.

(** X18. The one order an accept posts is the first call it makes and is
    for what the identifier resolved to: the instrument, the units negated
    when the direction reads SELL in any case of letters, and as stop loss
    and take profit the levels of the AI form that are positive, printed
    with five decimals (none for the legacy form or an entry of [recs]).
    Nothing is called after it but, on a server with a database and after
    a filled order, one price fetch. *)
Theorem accept_posts_resolved_order E id w x :
  resolve E id w = Some x ->
  calls (snd (acceptRecommendation E id w))
  = (calls w ++ [CallPostOrder (acceptPayload E x)])%list \/
  calls (snd (acceptRecommendation E id w))
  = (calls w ++ [CallPostOrder (acceptPayload E x);
                 CallGetPrices [Instrument (resolved_r x)]])%list.
Proof.
  intros Hres.
  remember (acceptRecommendation E id w) as out eqn:Hout. revert Hout.
  unfold acceptRecommendation. rewrite Hres, submit_posts.
  pose proof (postMarketOrder_world E (acceptPayload E x) w) as Hw.
  destruct (postMarketOrder E (acceptPayload E x) w) as [[resp | err |] w1];
    cbn [snd] in Hw; subst w1.
  2,3: intros ->; left; reflexivity.
  unfold reconcile. cbn [db].
  destruct (db w) as [p |].
  - destruct (if resolved_isAI x then _ else _) as [o p1].
    unfold currentMid, bind, call, ret. cbn [db with_db recs calls].
    destruct (database.CreateTrade E _ p1) as [o2 p2].
    intros ->. right. cbn. rewrite <- app_assoc. reflexivity.
  - intros ->. left. reflexivity.
Qed.

Lemma accept_posts_resolved_order_witness :
  calls (snd (acceptRecommendation (demoEnv orderRejected noFaults) (demoUUID 0) demoWorld))
  = [CallPostOrder
       {| broker.Order_Type := "MARKET";
          broker.Order_Instrument := "EUR_USD";
          broker.Order_Units := 40000%float;
          broker.Order_TimeInForce := "FOK";
          broker.Order_PositionFill := "DEFAULT";
          broker.Order_TakeProfitOnFill := Some "0.00000";
          broker.Order_StopLossOnFill := Some "0.00000" |}].
Proof.
  destruct (accept_posts_resolved_order (demoEnv orderRejected noFaults) (demoUUID 0)
              demoWorld _ eq_refl) as [H | H].
  - exact H.
  - vm_compute in H. discriminate.
Defined.

(** X19. The reconciliation is best effort, statement by statement: when
    the update that marks the resolved recommendation executed fails, the
    accept is answered 200 all the same and the trade row is written, so
    the recommendation stays as it was (pending, with no trade reference)
    beside a trade made from it. *)
Theorem accept_unmarked_trade E id w p x resp e :
  db w = Some p ->
  resolve E id w = Some x ->
  fst (submit E x w) = Ok resp ->
  db_err E (updateOf x) = Some e ->
  db_err E InsertTrade = None ->
  ~ In (gen_random_uuid E (database.uuid_drawn p)) (trade_ids p) ->
  fst (acceptRecommendation E id w) = JSON 200 (H_accepted (resolved_r x) resp) /\
  exists p',
    db (snd (acceptRecommendation E id w)) = Some p' /\
    database.recommendations p' = database.recommendations p /\
    database.ai_recommendations p' = database.ai_recommendations p /\
    database.trades p' = (database.trades p ++ [acceptedTrade E p (resolved_r x) resp])%list.
Proof.
  intros Hdb Hres Hsub Hmark Hok Hfresh.
  remember (acceptRecommendation E id w) as out eqn:Hout. revert Hout.
  unfold acceptRecommendation. rewrite Hres.
  destruct (submit_world E x w) as [Hdb1 _].
  destruct (submit E x w) as [placed w1]. cbn [fst snd] in *. subst placed.
  unfold reconcile. rewrite Hdb1, Hdb.
  assert (Hp1 : (if resolved_isAI x
                 then database.MarkAIRecommendationExecuted E id
                        (broker.OrderCreateTransaction_ID resp) p
                 else database.MarkRecommendationExecuted E id
                        (broker.OrderCreateTransaction_ID resp) p) = (Some e, p)).
  { unfold updateOf in Hmark. unfold database.MarkAIRecommendationExecuted,
      database.MarkRecommendationExecuted.
    destruct (resolved_isAI x); rewrite Hmark; reflexivity. }
  rewrite Hp1. unfold currentMid, bind, call, ret. cbn [db with_db recs calls].
  match goal with
  | |- context [database.CreateTrade E ?t p] =>
      destruct (CreateTrade_drawn E t p Hok eq_refl Hfresh) as [Htrades _];
      destruct (CreateTrade_tables E t p) as [Hrecs Hai];
      destruct (database.CreateTrade E t p) as [o p']
  end.
  cbn [snd] in *. intros ->. split; [reflexivity |].
  exists p'. cbn [snd db with_db]. repeat split; assumption.
Qed.

Lemma accept_unmarked_trade_witness :
  exists p',
    db (snd (acceptRecommendation (demoEnv orderFilled updateDown) (demoUUID 1) demoWorld))
    = Some p' /\
    database.recommendations p' = database.recommendations demoPostgres.
Proof.
  destruct (accept_unmarked_trade (demoEnv orderFilled updateDown) (demoUUID 1) demoWorld
              demoPostgres _ {| broker.OrderCreateTransaction_ID := "6357" |}
              (Error "connection reset by peer") eq_refl eq_refl eq_refl eq_refl eq_refl)
    as (_ & p' & H1 & H2 & _).
  - vm_compute. intros [].
  - exists p'. split; [exact H1 | exact H2].
Defined.

(** ** The answer of the broker *)



(** ** The AI listing *)

(** X21. [ListAIRecommendations], when its query succeeds, returns at most
    500 rows whatever limit is asked, and at most 200 when the limit asked
    is not in 1..500; the rows are rows of the table, no row newer than one
    before it. *)
Theorem list_ai_recommendations_limit E limit p rows :
  database.ListAIRecommendations E limit p = Ok rows ->
  (length rows <= 500)%nat /\
  (1 <= limit <= 500 -> (length rows <= Z.to_nat limit)%nat) /\
  (~ 1 <= limit <= 500 -> (length rows <= 200)%nat) /\
  newest_first models.AIRecommendation_CreatedAt rows /\
  forall r, In r rows -> In r (database.ai_recommendations p).
Proof.
  unfold database.ListAIRecommendations.
  destruct (db_err E SelectAIRecommendations); [discriminate |].
  intros H. injection H as <-.
  destruct (limit <=? 0) eqn:Hlo; cbn [orb].
  - apply Z.leb_le in Hlo. repeat split.
    + etransitivity; [apply List.firstn_le_length | lia].
    + lia.
    + intros _. apply List.firstn_le_length.
    + apply firstn_newest_first, order_by_desc_newest_first.
    + intros r Hr. eapply In_order_by_desc, In_firstn_In, Hr.
  - apply Z.leb_gt in Hlo. destruct (500 <? limit) eqn:Hhi.
    + apply Z.ltb_lt in Hhi. repeat split.
      * etransitivity; [apply List.firstn_le_length | lia].
      * lia.
      * intros _. apply List.firstn_le_length.
      * apply firstn_newest_first, order_by_desc_newest_first.
      * intros r Hr. eapply In_order_by_desc, In_firstn_In, Hr.
    + apply Z.ltb_ge in Hhi. repeat split.
      * etransitivity; [apply List.firstn_le_length | lia].
      * intros _. apply List.firstn_le_length.
      * lia.
      * apply firstn_newest_first, order_by_desc_newest_first.
      * intros r Hr. eapply In_order_by_desc, In_firstn_In, Hr.
Qed.

Lemma list_ai_recommendations_limit_witness :
  exists rows,
    database.ListAIRecommendations (demoEnv orderFilled noFaults) 1000 demoPostgres
    = Ok rows /\
    (length rows <= 200)%nat.
Proof.
  eexists. split; [reflexivity |].
  destruct (list_ai_recommendations_limit (demoEnv orderFilled noFaults) 1000
              demoPostgres _ eq_refl) as (_ & _ & H & _).
  apply H. lia.
Defined.

(** ** A generation that is not stored *)

Lemma main_aiSvc_draft_name E req w rec :
  fst (Service_GenerateRecommendation (main_aiSvc E) req w) = Ok rec ->
  ai.Recommendation_ID rec = "fallback" \/ ai.Recommendation_ID rec = "simulated".
Proof.
  unfold main_aiSvc, NewService, serviceImpl_GenerateRecommendation, NewAggregator,
    NewClaudeClient, main_marketFetcher, main_newsFetcher, main_histFetcher,
    claudeClientImpl_GenerateRecommendation.
  cbn [Service_GenerateRecommendation GatherMarketData GatherNewsData GatherHistoricalData
       AssembleContext ClaudeClient_GenerateRecommendation].
  unfold bindR, bind, call, ret.
  destruct (marketFetcher E (ai.Request_Instruments req)) as [m | e |];
    cbn [fst snd]; try discriminate.
  destruct (ai.Request_Instruments req) as [| i0 rest] eqn:Hinstr;
    cbn [fst snd]; try discriminate.
  destruct (SearchNews E (i0 ++ " forex") 5) as [news | e |]; cbn [fst snd];
    try discriminate.
  destruct (String.eqb (ANTHROPIC_API_KEY E) ""); cbn [fst]; intros H;
    injection H as <-; [left | right]; reflexivity.
Qed.

Lemma afterDraft_not_stored E req draft w p e :
  db w = Some p ->
  db_err E InsertAIRecommendation = Some e ->
  exists sized p',
    fst (afterDraft E req draft w) = JSON 200 (H_recommendation sized) /\
    ai.Recommendation_ID sized = ai.Recommendation_ID draft /\
    db (snd (afterDraft E req draft w)) = Some p' /\
    recs (snd (afterDraft E req draft w)) = recs w /\
    database.recommendations p' = database.recommendations p /\
    database.ai_recommendations p' = database.ai_recommendations p /\
    database.trades p' = database.trades p /\
    database.audit_logs p' = database.audit_logs p /\
    database.ai_usage_logs p' = database.ai_usage_logs p.
Proof.
  intros Hdb Hfail.
  remember (afterDraft E req draft w) as out eqn:Hout. revert Hout.
  unfold afterDraft. unfold bind at 1.
  destruct (calls_only_enrichPrice E (ai.Recommendation_Instrument draft) w) as [Hdb1 Hr1].
  destruct (enrichPrice E _ w) as [mid w1]. cbn [snd] in Hdb1, Hr1.
  unfold bind at 1.
  destruct (calls_only_positionSizing E req (brackets req mid draft) w1) as [Hdb2 Hr2].
  pose proof (positionSizing_ID E req (brackets req mid draft) w1) as Hid.
  destruct (positionSizing E req _ w1) as [sized w2]. cbn [fst snd] in *.
  rewrite brackets_ID in Hid.
  unfold bind at 1. unfold persist, database.CreateAIRecommendation.
  rewrite Hdb2, Hdb1, Hdb, Hfail.
  unfold bind at 1. unfold usageLog. cbn [String.eqb negb ret].
  unfold bind at 1. unfold analysisCache. cbn [db with_db].
  destruct (ai.Request_Instruments req) as [| inst rest].
  - intros ->. exists sized, p. cbn. repeat split; congruence.
  - cbn [call]. destruct (GetCandles E inst "M5" 20) as [[candles |] | e0 |].
    2-4: intros ->; exists sized, p; cbn; repeat split; congruence.
    unfold database.InsertMarketAnalysisCache.
    destruct (db_err E InsertMarketAnalysisCache);
      intros ->; eexists sized, _; cbn; repeat split; congruence.
Qed.

(** X22. A generation whose AI insert fails is answered 200 all the same,
    on the server of [main], with the recommendation under the name the
    drafter gave it ("fallback" or "simulated"): neither recommendation
    table has gained a row (there is no legacy
    mirror without the AI row), and nothing was added to the audit log or
    to the usage log. *)
Theorem generation_not_stored E req w p e rec :
  db w = Some p ->
  db_err E InsertAIRecommendation = Some e ->
  fst (aiGenerateRecommendation E (mainServer E) (Some req) w)
  = JSON 200 (H_recommendation rec) ->
  (ai.Recommendation_ID rec = "fallback" \/ ai.Recommendation_ID rec = "simulated") /\
  recs (snd (aiGenerateRecommendation E (mainServer E) (Some req) w)) = recs w /\
  exists p',
    db (snd (aiGenerateRecommendation E (mainServer E) (Some req) w)) = Some p' /\
    database.recommendations p' = database.recommendations p /\
    database.ai_recommendations p' = database.ai_recommendations p /\
    database.trades p' = database.trades p /\
    database.audit_logs p' = database.audit_logs p /\
    database.ai_usage_logs p' = database.ai_usage_logs p.
Proof.
  intros Hdb Hfail. unfold mainServer. rewrite aiGenerateRecommendation_afterDraft.
  destruct (calls_only_main_aiSvc E req w) as [Hdb1 Hr1].
  pose proof (main_aiSvc_draft_name E req w) as Hname.
  destruct (Service_GenerateRecommendation (main_aiSvc E) req w) as [[draft | e0 |] w1];
    cbn [fst snd] in *; try discriminate.
  rewrite <- Hdb1 in Hdb.
  destruct (afterDraft_not_stored E req draft w1 p e Hdb Hfail)
    as (sized & p' & Hans & Hid & Hdb' & Hrecs & H1 & H2 & H3 & H4 & H5).
  rewrite Hans. intros Hrec. injection Hrec as <-.
  split; [rewrite Hid; apply Hname; reflexivity |].
  split; [congruence |]. exists p'. repeat split; assumption.
Qed.

Lemma generation_not_stored_witness :
  exists rec,
    fst (aiGenerateRecommendation (demoEnv orderFilled aiInsertDown)
           (mainServer (demoEnv orderFilled aiInsertDown)) (Some sizingRequest) demoWorld)
    = JSON 200 (H_recommendation rec) /\
    (ai.Recommendation_ID rec = "fallback" \/ ai.Recommendation_ID rec = "simulated").
Proof.
  eexists. split; [vm_compute; reflexivity |].
  apply (generation_not_stored (demoEnv orderFilled aiInsertDown) sizingRequest demoWorld
           demoPostgres (Error "connection reset by peer") _ eq_refl eq_refl).
  vm_compute. reflexivity.
Defined.

(** ** The server without a database *)

(** X23. On a server without a database a created recommendation is kept
    in [recs] under its identifier (a timestamp when the body gave none),
    replacing what was there under it; the listing then shows it, and
    shows, beside it, exactly the entries that were there under other
    identifiers; and accept resolves the identifier to it. *)
Theorem memory_created_then_listed E body w :
  db w = None ->
  let r := stamped E body in
  let w' := snd (createRecommendation E (Some body) w) in
  fst (createRecommendation E (Some body) w) = JSON 201 (H_created r) /\
  db w' = None /\
  (forall E', resolve E' (ID r) w' = Some (plain r)) /\
  forall E', exists entries,
    fst (listRecommendations E' w') = Answered 200 (FromMemory entries) /\
    forall entry, In entry entries <->
                  entry = r \/ exists id, id <> ID r /\ recs w !! id = Some entry.
Proof.
  intros Hdb r w'. subst r w'. unfold createRecommendation. fold (stamped E body).
  rewrite Hdb. cbn [fst snd]. split; [reflexivity |].
  split; [exact Hdb |]. split.
  - intros E'. unfold resolve, findLegacy, findAI, findMemory.
    cbn [db recs with_recs]. rewrite Hdb, lookup_insert_eq. reflexivity.
  - intros E'. unfold listRecommendations. cbn [db recs with_recs]. rewrite Hdb.
    eexists. split; [reflexivity |]. intros entry. rewrite in_map_iff. split.
    + intros ([id r0] & <- & Hin). apply list_elem_of_In, elem_of_map_to_list in Hin.
      cbn [snd]. destruct (decide (id = ID (stamped E body))) as [-> | Hne].
      * rewrite lookup_insert_eq in Hin. left. congruence.
      * rewrite lookup_insert_ne in Hin by congruence. right. exists id. split; assumption.
    + intros [-> | (id & Hne & Hin)].
      * exists (ID (stamped E body), stamped E body). split; [reflexivity |].
        apply list_elem_of_In, elem_of_map_to_list, lookup_insert_eq.
      * exists (id, entry). split; [reflexivity |].
        apply list_elem_of_In, elem_of_map_to_list.
        rewrite lookup_insert_ne by congruence. exact Hin.
Qed.

Lemma memory_created_then_listed_witness :
  resolve (demoEnv orderFilled noFaults) "20260101000000"
    (snd (createRecommendation (demoEnv orderFilled noFaults) (Some manualBody) memoryWorld))
  = Some (plain (stamped (demoEnv orderFilled noFaults) manualBody)).
Proof.
  destruct (memory_created_then_listed (demoEnv orderFilled noFaults) manualBody memoryWorld
              eq_refl) as (_ & _ & H & _).
  exact (H (demoEnv orderFilled noFaults)).
Defined.

(** ** The gRPC trade and recommendation services *)

Lemma CreateTrade_supplied E t p :
  db_err E InsertTrade = None ->
  models.Trade_ID t <> "" ->
  (uuid_in E (models.Trade_ID t) = false ->
   snd (database.CreateTrade E t p) = p) /\
  (uuid_in E (models.Trade_ID t) = true ->
   ~ In (models.Trade_ID t) (trade_ids p) ->
   database.trades (snd (database.CreateTrade E t p))
   = (database.trades p
      ++ [{| database.trade_columns :=
               database.set_Trade_ID_times (models.Trade_ID t) (NOW E) t;
             database.trade_deleted_at := None |}])%list).
Proof.
  intros Hok Hid. unfold database.CreateTrade, database.coalesce_id. rewrite Hok.
  apply String.eqb_neq in Hid. rewrite Hid. split.
  - intros ->. reflexivity.
  - intros -> Hfresh.
    rewrite (not_In_existsb_false
               (fun x => models.Trade_ID (database.trade_columns x)) _ _ Hfresh).
    unfold database.audit. destruct (db_err E (InsertAudit _ _)); reflexivity.
Qed.

(** X24. The gRPC [PlaceOrder] hands the order identifier of the broker to
    the database as the key of the trade row. After a filled order it
    answers with the trade under that identifier in every case; when the
    database does not read the identifier as a uuid nothing is written at
    all, and when it does, and holds no trade under it, the trade row is
    written under the broker's identifier, without entry price and without
    the broker reference that the REST handler stores. *)
Theorem grpc_place_order_trade_key E instrument units w p ord :
  db w = Some p ->
  fst (PlaceMarketOrder E instrument units w) = Ok ord ->
  broker.OrderCreateTransaction_ID ord <> "" ->
  db_err E InsertTrade = None ->
  let id := broker.OrderCreateTransaction_ID ord in
  let out := tradeServer_PlaceOrder E instrument units w in
  fst out = Ok {| v1_Trade_Id := id; v1_Trade_Instrument := instrument;
                  v1_Trade_Units := units |} /\
  (uuid_in E id = false -> db (snd out) = Some p) /\
  (uuid_in E id = true -> ~ In id (trade_ids p) ->
   exists p',
     db (snd out) = Some p' /\
     database.trades p'
     = (database.trades p
        ++ [{| database.trade_columns :=
                 database.set_Trade_ID_times id (NOW E)
                   (structToModelTrade id instrument units);
               database.trade_deleted_at := None |}])%list).
Proof.
  intros Hdb Hpost Hid Hok id out. subst id out.
  remember (tradeServer_PlaceOrder E instrument units w) as out eqn:Hout. revert Hout.
  unfold tradeServer_PlaceOrder. unfold PlaceMarketOrder in *.
  match goal with
  | |- context [postMarketOrder E ?pl w] =>
      pose proof (postMarketOrder_world E pl w) as Hw;
      destruct (postMarketOrder E pl w) as [placed w1]
  end.
  cbn [fst snd] in *. subst placed w1. cbn [db]. rewrite Hdb.
  destruct (CreateTrade_supplied E
              (structToModelTrade (broker.OrderCreateTransaction_ID ord) instrument units)
              p Hok Hid) as [Hno Hyes].
  destruct (database.CreateTrade E _ p) as [o p']. cbn [snd models.Trade_ID] in *.
  intros ->. cbn [fst snd db with_db]. split; [reflexivity |]. split.
  - intros Hu. rewrite (Hno Hu). reflexivity.
  - intros Hu Hfresh. exists p'. split; [reflexivity | exact (Hyes Hu Hfresh)].
Qed.

Lemma grpc_place_order_trade_key_witness :
  db (snd (tradeServer_PlaceOrder (demoEnv orderFilled noFaults) "EUR_USD" 1000%float
             demoWorld))
  = Some demoPostgres /\
  exists p',
    db (snd (tradeServer_PlaceOrder (uuidOrders (demoEnv orderFilled noFaults)) "EUR_USD"
               1000%float demoWorld)) = Some p' /\
    trade_ids p' = [demoUUID 3].
Proof.
  split.
  - apply (grpc_place_order_trade_key (demoEnv orderFilled noFaults) "EUR_USD" 1000%float
             demoWorld demoPostgres {| broker.OrderCreateTransaction_ID := "6357" |}
             eq_refl eq_refl); [discriminate | reflexivity | reflexivity].
  - destruct (grpc_place_order_trade_key (uuidOrders (demoEnv orderFilled noFaults))
                "EUR_USD" 1000%float demoWorld demoPostgres
                {| broker.OrderCreateTransaction_ID := demoUUID 3 |} eq_refl eq_refl)
      as (_ & _ & H); [discriminate | reflexivity |].
    destruct H as (p' & H1 & H2); [reflexivity | vm_compute; intros [] |].
    exists p'. split; [exact H1 |]. unfold trade_ids. rewrite H2. reflexivity.
Defined.




(** ** The migration runner *)

Lemma recorded_app name db names executed' :
  migrate.recorded name
    {| migrate.schema_migrations := migrate.schema_migrations db ++ names;
       migrate.executed := executed' |}
  = (migrate.recorded name db || existsb (String.eqb name) names)%bool.
Proof. unfold migrate.recorded. cbn. apply List.existsb_app. Qed.

Lemma pending_recorded_other e entries db executed' :
  ~ In (migrate.Name e) (map migrate.Name entries) ->
  migrate.pending entries
    {| migrate.schema_migrations := migrate.schema_migrations db ++ [migrate.Name e];
       migrate.executed := executed' |}
  = migrate.pending entries db.
Proof.
  intros Hnot. unfold migrate.pending. f_equal. apply List.filter_ext_in.
  intros x Hx. rewrite recorded_app. cbn [existsb].
  destruct (String.eqb (migrate.Name x) (migrate.Name e)) eqn:Heq.
  - apply String.eqb_eq in Heq. exfalso. apply Hnot. rewrite <- Heq.
    apply in_map. exact Hx.
  - rewrite !Bool.orb_false_r. reflexivity.
Qed.

Lemma apply_entries_returned E entries :
  NoDup (map migrate.Name entries) ->
  forall db db' printed,
    migrate.apply_entries E entries db = (migrate.Returned, db', printed) ->
    printed = migrate.pending entries db /\
    migrate.executed db' = (migrate.executed db ++ migrate.pending entries db)%list /\
    migrate.schema_migrations db'
    = (migrate.schema_migrations db ++ migrate.pending entries db)%list.
Proof.
  induction entries as [| e rest IH]; intros Hnd db db' printed Hrun.
  - cbn in Hrun. injection Hrun as <- <-. cbn. rewrite !app_nil_r. repeat split.
  - apply NoDup_cons in Hnd. destruct Hnd as [Hnot Hnd]. rewrite list_elem_of_In in Hnot.
    cbn [migrate.apply_entries] in Hrun. unfold migrate.pending.
    cbn [List.filter]. fold (migrate.pending rest db).
    destruct (migrate.isScript e) eqn:Hscript; cbn [negb andb] in *.
    2:{ apply (IH Hnd _ _ _ Hrun). }
    destruct (migrate.select_exists E (migrate.Name e)); [discriminate |].
    destruct (migrate.recorded (migrate.Name e) db) eqn:Hrec; cbn [negb map].
    { apply (IH Hnd _ _ _ Hrun). }
    destruct (migrate.ReadFile E (migrate.Name e)); [discriminate |].
    destruct (migrate.exec_script E (migrate.Name e)); [discriminate |].
    destruct (migrate.insert_schema_migrations E (migrate.Name e)); [discriminate |].
    cbn [migrate.schema_migrations migrate.executed] in Hrun.
    destruct (migrate.apply_entries E rest _) as [[exit db3] printed3] eqn:Hrest.
    injection Hrun as -> -> <-.
    destruct (IH Hnd _ _ _ Hrest) as (Hp & Hx & Hs).
    rewrite (pending_recorded_other e rest db _ Hnot) in Hp, Hx, Hs.
    cbn [migrate.schema_migrations migrate.executed] in Hx, Hs.
    rewrite Hp, Hx, Hs, <- !app_assoc. repeat split.
Qed.

Lemma apply_entries_records E entries :
  forall db db' printed,
    migrate.apply_entries E entries db = (migrate.Returned, db', printed) ->
    (forall name, migrate.recorded name db = true -> migrate.recorded name db' = true) /\
    (forall e, In e entries -> migrate.isScript e = true ->
               migrate.recorded (migrate.Name e) db' = true).
Proof.
  induction entries as [| e rest IH]; intros db db' printed Hrun.
  - cbn in Hrun. injection Hrun as <- <-. split; [auto | intros e []].
  - cbn [migrate.apply_entries] in Hrun.
    destruct (migrate.isScript e) eqn:Hscript; cbn [negb] in Hrun.
    2:{ destruct (IH _ _ _ Hrun) as [Hmono Hall]. split; [exact Hmono |].
        intros x [<- | Hx] Hs; [congruence | exact (Hall x Hx Hs)]. }
    destruct (migrate.select_exists E (migrate.Name e)); [discriminate |].
    destruct (migrate.recorded (migrate.Name e) db) eqn:Hrec.
    { destruct (IH _ _ _ Hrun) as [Hmono Hall]. split; [exact Hmono |].
      intros x [<- | Hx] Hs; [exact (Hmono _ Hrec) | exact (Hall x Hx Hs)]. }
    destruct (migrate.ReadFile E (migrate.Name e)); [discriminate |].
    destruct (migrate.exec_script E (migrate.Name e)); [discriminate |].
    destruct (migrate.insert_schema_migrations E (migrate.Name e)); [discriminate |].
    cbn [migrate.schema_migrations migrate.executed] in Hrun.
    destruct (migrate.apply_entries E rest _) as [[exit db3] printed3] eqn:Hrest.
    injection Hrun as -> -> <-.
    destruct (IH _ _ _ Hrest) as [Hmono Hall]. split.
    + intros name Hname. apply Hmono. rewrite recorded_app, Hname. reflexivity.
    + intros x [<- | Hx] Hs; [| exact (Hall x Hx Hs)].
      apply Hmono. rewrite recorded_app. cbn. rewrite String.eqb_refl.
      apply Bool.orb_true_iff. right. reflexivity.
Qed.

Lemma apply_entries_nothing_pending E entries db :
  (forall name, migrate.select_exists E name = None) ->
  (forall e, In e entries -> migrate.isScript e = true ->
             migrate.recorded (migrate.Name e) db = true) ->
  migrate.apply_entries E entries db = (migrate.Returned, db, []).
Proof.
  intros Hq. induction entries as [| e rest IH]; intros Hall; [reflexivity |].
  cbn [migrate.apply_entries].
  destruct (migrate.isScript e) eqn:Hscript; cbn [negb].
  - rewrite Hq, (Hall e (or_introl eq_refl) Hscript).
    apply IH. intros x Hx. apply Hall. right. exact Hx.
  - apply IH. intros x Hx. apply Hall. right. exact Hx.
Qed.

Lemma migrate_pending_again E entries db db' printed :
  migrate.ReadDir E = Ok entries ->
  NoDup (map migrate.Name entries) ->
  migrate.main E db = (migrate.Returned, db', printed) ->
  migrate.executed db' = (migrate.executed db ++ migrate.pending entries db)%list /\
  printed = migrate.pending entries db /\
  migrate.schema_migrations db'
  = (migrate.schema_migrations db ++ migrate.pending entries db)%list.
Proof.
  intros Hdir Hnd. unfold migrate.main. rewrite Hdir.
  destruct (String.eqb (migrate.dsn E) ""); [discriminate |].
  destruct (migrate.sql_Open E); [discriminate |].
  destruct (migrate.create_schema_migrations E); [discriminate |].
  intros Hrun. destruct (apply_entries_returned E entries Hnd _ _ _ Hrun) as (H1 & H2 & H3).
  repeat split; assumption.
Qed.

(** X26. A migration run that returns has applied exactly the scripts that
    were pending: the entries of the directory that are no directories,
    end in [.sql] and were not recorded in [schema_migrations], each once
    and in the order of the directory (whose names are distinct); it has
    recorded those names, printed them as applied, and touched nothing
    else. *)
Theorem migrate_applies_pending E entries db db' printed :
  migrate.ReadDir E = Ok entries ->
  NoDup (map migrate.Name entries) ->
  migrate.main E db = (migrate.Returned, db', printed) ->
  printed = migrate.pending entries db /\
  migrate.executed db' = (migrate.executed db ++ migrate.pending entries db)%list /\
  migrate.schema_migrations db'
  = (migrate.schema_migrations db ++ migrate.pending entries db)%list.
Proof.
  intros Hdir Hnd Hrun.
  destruct (migrate_pending_again E entries db db' printed Hdir Hnd Hrun) as (H1 & H2 & H3).
  repeat split; assumption.
Qed.

Lemma migrate_applies_pending_witness :
  migrate.executed (snd (fst (migrate.main migrate.demoEnv migrate.emptyDatabase)))
  = ["0001_init.sql"; "0002_ai.sql"; "0003_audit_logs.sql"].
Proof.
  destruct (migrate_applies_pending migrate.demoEnv migrate.demoEntries
              migrate.emptyDatabase
              (snd (fst (migrate.main migrate.demoEnv migrate.emptyDatabase)))
              (snd (migrate.main migrate.demoEnv migrate.emptyDatabase)) eq_refl)
    as (_ & H & _).
  - apply (bool_decide_unpack _). vm_compute. reflexivity.
  - reflexivity.
  - exact H.
Defined.

(** X27. Migrating is idempotent: after a run that returned, a further run
    over the same directory that meets no failure applies nothing, records
    nothing and prints nothing. *)
Theorem migrate_idempotent E E' entries db db' printed :
  migrate.ReadDir E = Ok entries ->
  migrate.main E db = (migrate.Returned, db', printed) ->
  migrate.healthy E' entries ->
  migrate.main E' db' = (migrate.Returned, db', []).
Proof.
  intros Hdir Hrun (Hdsn & Hopen & Hcreate & Hdir' & Hops).
  unfold migrate.main in *. rewrite Hdir in Hrun. rewrite Hdir', Hopen, Hcreate.
  apply String.eqb_neq in Hdsn. rewrite Hdsn.
  destruct (String.eqb (migrate.dsn E) ""); [discriminate |].
  destruct (migrate.sql_Open E); [discriminate |].
  destruct (migrate.create_schema_migrations E); [discriminate |].
  apply apply_entries_nothing_pending.
  - intros name. apply Hops.
  - apply (apply_entries_records E entries db db' printed Hrun).
Qed.

Lemma migrate_idempotent_witness :
  migrate.main migrate.demoEnv
    (snd (fst (migrate.main migrate.demoEnv migrate.emptyDatabase)))
  = (migrate.Returned, snd (fst (migrate.main migrate.demoEnv migrate.emptyDatabase)), []).
Proof.
  apply (migrate_idempotent migrate.demoEnv migrate.demoEnv migrate.demoEntries
           migrate.emptyDatabase
           (snd (fst (migrate.main migrate.demoEnv migrate.emptyDatabase)))
           (snd (migrate.main migrate.demoEnv migrate.emptyDatabase)) eq_refl eq_refl).
  repeat split. discriminate.
Defined.

Lemma apply_entries_unrecorded E f err entries :
  (forall name, migrate.select_exists E name = None /\ migrate.ReadFile E name = None /\
                migrate.exec_script E name = None) ->
  (forall name, name <> f -> migrate.insert_schema_migrations E name = None) ->
  migrate.insert_schema_migrations E f = Some err ->
  NoDup (map migrate.Name entries) ->
  forall db,
    In f (migrate.pending entries db) ->
    exists db' printed,
      migrate.apply_entries E entries db = (migrate.Fatal err, db', printed) /\
      In f (migrate.executed db') /\
      migrate.recorded f db' = false.
Proof.
  intros Hops Hins Hfail. induction entries as [| e rest IH]; intros Hnd db Hpend.
  - destruct Hpend.
  - apply NoDup_cons in Hnd. destruct Hnd as [Hnot Hnd]. rewrite list_elem_of_In in Hnot.
    unfold migrate.pending in Hpend. cbn [List.filter] in Hpend.
    fold (migrate.pending rest db) in Hpend.
    cbn [migrate.apply_entries].
    destruct (migrate.isScript e) eqn:Hscript; cbn [negb andb] in *.
    2:{ apply (IH Hnd db Hpend). }
    destruct (Hops (migrate.Name e)) as (-> & -> & ->).
    destruct (migrate.recorded (migrate.Name e) db) eqn:Hrec; cbn [negb map] in *.
    { apply (IH Hnd db Hpend). }
    destruct (String.eqb (migrate.Name e) f) eqn:Heq.
    + apply String.eqb_eq in Heq. rewrite Heq, Hfail. eexists _, _.
      split; [reflexivity |]. cbn [migrate.executed]. split.
      * apply in_or_app. right. left. reflexivity.
      * rewrite <- Heq. exact Hrec.
    + apply String.eqb_neq in Heq. rewrite (Hins _ Heq).
      destruct Hpend as [Hpend | Hpend]; [contradiction |].
      change (In f (migrate.pending rest db)) in Hpend.
      cbn [migrate.schema_migrations migrate.executed].
      rewrite <- (pending_recorded_other e rest db (migrate.executed db ++ [migrate.Name e])
                    Hnot) in Hpend.
      destruct (IH Hnd _ Hpend) as (db' & printed & Hrun & Hx & Hr).
      cbn [migrate.schema_migrations migrate.executed] in Hrun.
      rewrite Hrun. eexists _, _. split; [reflexivity |]. split; assumption.
Qed.

(** X28. A script is applied before it is recorded, and not in one
    transaction with the record: when the insert into [schema_migrations]
    fails for a pending script (and nothing else fails), the run exits
    with that error and the script has been executed but is not recorded;
    the next run that returns finds it pending and executes it again. *)
Theorem migrate_unrecorded_applied_again E E' f err entries db db2 printed2 :
  migrate.dsn E <> "" -> migrate.sql_Open E = None ->
  migrate.create_schema_migrations E = None ->
  migrate.ReadDir E = Ok entries ->
  (forall name, migrate.select_exists E name = None /\ migrate.ReadFile E name = None /\
                migrate.exec_script E name = None) ->
  (forall name, name <> f -> migrate.insert_schema_migrations E name = None) ->
  migrate.insert_schema_migrations E f = Some err ->
  NoDup (map migrate.Name entries) ->
  In f (migrate.pending entries db) ->
  migrate.ReadDir E' = Ok entries ->
  migrate.main E' (snd (fst (migrate.main E db))) = (migrate.Returned, db2, printed2) ->
  fst (fst (migrate.main E db)) = migrate.Fatal err /\
  In f (migrate.executed (snd (fst (migrate.main E db)))) /\
  ~ In f (migrate.schema_migrations (snd (fst (migrate.main E db)))) /\
  exists again,
    migrate.executed db2 = (migrate.executed (snd (fst (migrate.main E db))) ++ again)%list /\
    In f again.
Proof.
  intros Hdsn Hopen Hcreate Hdir Hops Hins Hfail Hnd Hpend Hdir' Hrun2.
  assert (Hmain : migrate.main E db = migrate.apply_entries E entries db).
  { unfold migrate.main. apply String.eqb_neq in Hdsn.
    rewrite Hdsn, Hopen, Hcreate, Hdir. reflexivity. }
  rewrite Hmain in *.
  destruct (apply_entries_unrecorded E f err entries Hops Hins Hfail Hnd db Hpend)
    as (db1 & printed1 & Hrun1 & Hx & Hr).
  rewrite Hrun1 in *. cbn [fst snd] in *.
  split; [reflexivity |]. split; [exact Hx |]. split.
  - intros Hin. unfold migrate.recorded in Hr.
    assert (Hex : existsb (String.eqb f) (migrate.schema_migrations db1) = true).
    { apply List.existsb_exists. exists f. split; [exact Hin | apply String.eqb_refl]. }
    congruence.
  - destruct (migrate_pending_again E' entries db1 db2 printed2 Hdir' Hnd Hrun2) as [H _].
    exists (migrate.pending entries db1). split; [exact H |].
    unfold migrate.pending in *. apply in_map_iff in Hpend.
    destruct Hpend as (e & <- & He). apply List.filter_In in He. destruct He as [He Hok].
    apply in_map, List.filter_In. split; [exact He |].
    apply Bool.andb_true_iff in Hok. destruct Hok as [-> _]. rewrite Hr. reflexivity.
Qed.

Lemma migrate_unrecorded_applied_again_witness :
  fst (fst (migrate.main migrate.demoEnvUnrecorded migrate.emptyDatabase))
  = migrate.Fatal (Error "connection reset by peer") /\
  migrate.executed
    (snd (fst (migrate.main migrate.demoEnv
                 (snd (fst (migrate.main migrate.demoEnvUnrecorded
                              migrate.emptyDatabase))))))
  = ["0001_init.sql"; "0002_ai.sql"; "0002_ai.sql"; "0003_audit_logs.sql"].
Proof.
  split; [| reflexivity].
  apply (migrate_unrecorded_applied_again migrate.demoEnvUnrecorded migrate.demoEnv
           "0002_ai.sql" (Error "connection reset by peer") migrate.demoEntries
           migrate.emptyDatabase
           (snd (fst (migrate.main migrate.demoEnv
                        (snd (fst (migrate.main migrate.demoEnvUnrecorded
                                     migrate.emptyDatabase))))))
           (snd (migrate.main migrate.demoEnv
                   (snd (fst (migrate.main migrate.demoEnvUnrecorded
                                migrate.emptyDatabase)))))).
  - discriminate.
  - reflexivity.
  - reflexivity.
  - reflexivity.
  - intros name. repeat split.
  - intros name Hname. cbn. destruct (String.eqb name "0002_ai.sql") eqn:Heq;
      [apply String.eqb_eq in Heq; contradiction | reflexivity].
  - reflexivity.
  - apply (bool_decide_unpack _). vm_compute. reflexivity.
  - vm_compute. right. left. reflexivity.
  - reflexivity.
  - reflexivity.
Defined.
